(** * Conversation state machine of the Telegram quoting bot

    A shallow embedding of [src/telegram/lambda_function.py]: the
    validators, the history-shortcut registration, the message segmenter and
    the webhook handler's conversational dispatch, with the properties the
    specification states about them.

    Conventions of the embedding.
    - A Python [str] is a sequence of characters, one [ascii] each.  The
      character classes (case, white space, digits) are Python's on ASCII
      text; a character above 127 is kept as it is and counts as caseless,
      not a space and not a digit.
    - Python integers are [Z]; an index that may be [-1] stays a [Z].
    - A [dict] keyed by text is a [gmap string _]; the order of a dict that is
      iterated (buttons, option lists) is kept in a list.
    - Code that raises returns the exception as a value; code that loops is
      run with fuel, and the loop of the segmenter is shown to need no more
      fuel than the length of its input. *)

From Stdlib Require Import ZArith Ascii String.
From stdpp Require Import gmap strings list fin_maps pretty.

Local Open Scope Z_scope.

(** ** Text *)

Module Text.

(** [str.isspace] on ASCII: TAB..CR, FS..US and the blank. *)
Definition isspace (c : ascii) : bool :=
  let n := nat_of_ascii c in
  ((9 <=? n)%nat && (n <=? 13)%nat) || ((28 <=? n)%nat && (n <=? 32)%nat).

Fixpoint lstrip (s : list ascii) : list ascii :=
  match s with
  | c :: r => if isspace c then lstrip r else s
  | [] => []
  end.

Definition rstrip (s : list ascii) : list ascii :=
  reverse (lstrip (reverse s)).

(** [s.strip()] *)
Definition strip (s : list ascii) : list ascii := rstrip (lstrip s).

(** Python's treatment of a slice bound: a negative bound counts from the
    end, and every bound is clamped to [0 .. len]. *)
Definition slice_bound (len i : Z) : Z :=
  if i <? 0 then Z.max 0 (i + len) else Z.min i len.

(** [s[:i]] and [s[i:]] *)
Definition slice_to (i : Z) (s : list ascii) : list ascii :=
  take (Z.to_nat (slice_bound (Z.of_nat (length s)) i)) s.
Definition slice_from (i : Z) (s : list ascii) : list ascii :=
  drop (Z.to_nat (slice_bound (Z.of_nat (length s)) i)) s.

(** Position of the last [c] in [s], if any. *)
Fixpoint rindex (c : ascii) (s : list ascii) : option nat :=
  match s with
  | [] => None
  | x :: r =>
      match rindex c r with
      | Some k => Some (S k)
      | None => if decide (x = c) then Some 0%nat else None
      end
  end.

(** [s.rfind(c, 0, fin)]: the highest index of [c] in [s[0:fin]], or -1. *)
Definition rfind (s : list ascii) (c : ascii) (fin : Z) : Z :=
  match rindex c (slice_to fin s) with
  | Some k => Z.of_nat k
  | None => -1
  end.

Definition blank (s : list ascii) : Prop := Forall (fun c => isspace c = true) s.

(** The same operations on [string]. *)
Definition sobre_lista (f : list ascii -> list ascii) (s : string) : string :=
  string_of_list_ascii (f (list_ascii_of_string s)).

Definition str_strip : string -> string := sobre_lista strip.

(** [s.lstrip(c)] and [s.rstrip(c)] for a single character [c]. *)
Fixpoint lstrip_char (c : ascii) (s : list ascii) : list ascii :=
  match s with
  | x :: r => if decide (x = c) then lstrip_char c r else s
  | [] => []
  end.
Definition str_lstrip_char (c : ascii) : string -> string := sobre_lista (lstrip_char c).
Definition str_rstrip_char (c : ascii) : string -> string :=
  sobre_lista (fun s => reverse (lstrip_char c (reverse s))).

(** [s[:n]] for [n >= 0] *)
Definition str_take (n : nat) : string -> string := sobre_lista (take n).

Definition entre (lo hi c : ascii) : bool :=
  (nat_of_ascii lo <=? nat_of_ascii c)%nat && (nat_of_ascii c <=? nat_of_ascii hi)%nat.

Definition lower_char (c : ascii) : ascii :=
  if entre "A" "Z" c then ascii_of_nat (nat_of_ascii c + 32) else c.
Definition upper_char (c : ascii) : ascii :=
  if entre "a" "z" c then ascii_of_nat (nat_of_ascii c - 32) else c.
Definition cased (c : ascii) : bool := entre "A" "Z" c || entre "a" "z" c.

(** [s.lower()] *)
Fixpoint lower (s : string) : string :=
  match s with
  | EmptyString => EmptyString
  | String c r => String (lower_char c) (lower r)
  end.

(** [s.title()]: a cased character is put in upper case after an uncased
    one (or at the start) and in lower case after a cased one. *)
Fixpoint title_desde (previous_is_cased : bool) (s : string) : string :=
  match s with
  | EmptyString => EmptyString
  | String c r =>
      String (if previous_is_cased then lower_char c else upper_char c)
             (title_desde (cased c) r)
  end.
Definition title : string -> string := title_desde false.

(** [s.startswith(p)] and [s.endswith(p)] *)
Definition startswith (p s : string) : bool := String.prefix p s.
Definition endswith (p s : string) : bool :=
  String.prefix (String.rev p) (String.rev s).

(** [s.replace(old, new)] for a non-empty [old]: occurrences are replaced
    from left to right and do not overlap; [skip] counts the characters of
    the occurrence just replaced that are still to be passed over. *)
Fixpoint replace_desde (old new : string) (skip : nat) (s : string) : string :=
  match s with
  | EmptyString => EmptyString
  | String c r =>
      match skip with
      | S k => replace_desde old new k r
      | O =>
          if String.prefix old s
          then new +:+ replace_desde old new (String.length old - 1) r
          else String c (replace_desde old new O r)
      end
  end.
Definition replace (old new s : string) : string := replace_desde old new O s.

End Text.

(** ** Message segmenter: [dividir_mensaje] *)

Module Segmenter.
Import Text.

(** The three assignments to [corte] in the loop body. *)
Definition corte_de (mensaje : list ascii) (max_length : Z) : Z :=
  let corte := rfind mensaje " "%char max_length in
  let corte := if corte =? -1 then rfind mensaje "."%char max_length + 1 else corte in
  let corte := if corte =? -1 then max_length else corte in
  corte.

(** The [while] loop; [None] when the fuel runs out. *)
Fixpoint dividir_bucle (fuel : nat) (trozos : list (list ascii))
    (mensaje : list ascii) (max_length : Z) : option (list (list ascii)) :=
  if Z.of_nat (length mensaje) >? max_length then
    match fuel with
    | O => None
    | S fuel' =>
        let corte := corte_de mensaje max_length in
        dividir_bucle fuel' (trozos ++ [strip (slice_to corte mensaje)])
          (strip (slice_from corte mensaje)) max_length
    end
  else Some (trozos ++ [mensaje]).

Definition dividir_mensaje_fuel (fuel : nat) (mensaje : list ascii)
    (max_length : Z) : option (list (list ascii)) :=
  dividir_bucle fuel [] mensaje max_length.

(** [dividir_mensaje(mensaje, max_length)]: an iteration either shortens
    [mensaje] or leaves it as it is, so [length mensaje] rounds decide
    whether the loop ends; [None] stands for a loop that never ends
    (see [dividir_bucle_None_forever]). *)
Definition dividir_mensaje (mensaje : list ascii) (max_length : Z)
    : option (list (list ascii)) :=
  dividir_mensaje_fuel (S (length mensaje)) mensaje max_length.




End Segmenter.


(** ** Date validator and SQL renderer: [validar_fecha], [fecha_sql] *)

Module Fecha.
Import Text.

(** A [datetime.date]. *)
Record date := Date { year : Z; month : Z; day : Z }.

(** [\d] on ASCII text *)
Definition es_digito : ascii -> bool := entre "0" "9".

(** Pieces of the regular expression that [strptime] builds from a format.
    Each gives the ways it matches at the head of the text, in the order the
    engine tries them, as the matched text and the text left. *)
Definition uno (p : ascii -> bool) (s : list ascii) : list (list ascii * list ascii) :=
  match s with
  | a :: r => if p a then [([a], r)] else []
  | _ => []
  end.

Definition dos (p q : ascii -> bool) (s : list ascii) : list (list ascii * list ascii) :=
  match s with
  | a :: b :: r => if p a && q b then [([a; b], r)] else []
  | _ => []
  end.

(** [%d] is [(?P<d>3[0-1]|[1-2]\d|0[1-9]|[1-9]| [1-9])] *)
Definition re_d (s : list ascii) : list (list ascii * list ascii) :=
  dos (entre "3" "3") (entre "0" "1") s ++ dos (entre "1" "2") es_digito s ++
  dos (entre "0" "0") (entre "1" "9") s ++ uno (entre "1" "9") s ++
  dos (entre " " " ") (entre "1" "9") s.

(** [%m] is [(?P<m>1[0-2]|0[1-9]|[1-9])] *)
Definition re_m (s : list ascii) : list (list ascii * list ascii) :=
  dos (entre "1" "1") (entre "0" "2") s ++ dos (entre "0" "0") (entre "1" "9") s ++
  uno (entre "1" "9") s.

(** [%Y] is [(?P<Y>\d\d\d\d)] *)
Definition re_Y (s : list ascii) : list (list ascii * list ascii) :=
  match s with
  | a :: b :: c :: d :: r =>
      if es_digito a && es_digito b && es_digito c && es_digito d
      then [([a; b; c; d], r)] else []
  | _ => []
  end.

Definition literal (sep : ascii) (s : list ascii) : list (list ascii) :=
  match s with
  | c :: r => if decide (c = sep) then [r] else []
  | [] => []
  end.

(** [format_regex.match(data_string)] for the format [%d<sep>%m<sep>%Y]: the
    first way to match, with the text after the match. *)
Definition re_match (sep : ascii) (s : list ascii)
    : option (list ascii * list ascii * list ascii * list ascii) :=
  head ('(d, r1) ← re_d s; r2 ← literal sep r1;
        '(m, r3) ← re_m r2; r4 ← literal sep r3;
        '(y, r5) ← re_Y r4; [(d, m, y, r5)]).

(** [int(s)] on a run of digits, white space around it put aside. *)
Definition int_de (s : list ascii) : Z :=
  foldl (fun acc c => 10 * acc + (Z.of_nat (nat_of_ascii c) - 48)) 0 (strip s).

Definition is_leap (y : Z) : bool :=
  (y mod 4 =? 0) && (negb (y mod 100 =? 0) || (y mod 400 =? 0)).

Definition days_in_month (y m : Z) : Z :=
  if m =? 2 then (if is_leap y then 29 else 28)
  else if (m =? 4) || (m =? 6) || (m =? 9) || (m =? 11) then 30 else 31.

(** The dates [datetime.date(y, m, d)] accepts. *)
Definition fecha_posible (y m d : Z) : bool :=
  (1 <=? y) && (y <=? 9999) && (1 <=? m) && (m <=? 12) &&
  (1 <=? d) && (d <=? days_in_month y m).

(** [datetime.strptime(s, '%d<sep>%m<sep>%Y').date()]; [None] is
    [ValueError]: the text does not match the format, text is left after
    the match, or the date does not exist. *)
Definition strptime_dmy (sep : ascii) (s : string) : option date :=
  match re_match sep (list_ascii_of_string s) with
  | None => None
  | Some (d, m, y, resto) =>
      match resto with
      | _ :: _ => None
      | [] =>
          let '(y, m, d) := (int_de y, int_de m, int_de d) in
          if fecha_posible y m d then Some (Date y m d) else None
      end
  end.

Definition validar_fecha (cadena_fecha : string) : option date :=
  match strptime_dmy "-" cadena_fecha with
  | Some fecha_obj => Some fecha_obj
  | None =>
      match strptime_dmy "/" cadena_fecha with
      | Some fecha_obj => Some fecha_obj
      | None => None
      end
  end.

Definition digito (n : Z) : ascii := ascii_of_nat (48 + Z.to_nat (n mod 10)).

(** [fecha.strftime('%Y-%m-%d')], zero-filled as the library documents it.
    (The C library underneath may leave a year below 1000 unfilled; nothing
    is stated below about the rendering of such years.) *)
Definition strftime_Ymd (f : date) : string :=
  string_of_list_ascii
    [digito (year f / 1000); digito (year f / 100); digito (year f / 10); digito (year f);
     "-"%char; digito (month f / 10); digito (month f);
     "-"%char; digito (day f / 10); digito (day f)].

(** The [for formato in ('%d-%m-%Y', '%d/%m/%Y')] loop. *)
Fixpoint fecha_sql_desde (formatos : list ascii) (cadena_fecha : string) : option string :=
  match formatos with
  | sep :: formatos' =>
      match strptime_dmy sep cadena_fecha with
      | Some fecha_obj => Some (strftime_Ymd fecha_obj)
      | None => fecha_sql_desde formatos' cadena_fecha
      end
  | [] => None
  end.

Definition fecha_sql (cadena_fecha : string) : option string :=
  fecha_sql_desde ["-"%char; "/"%char] cadena_fecha.

Definition posible (f : date) : bool := fecha_posible (year f) (month f) (day f).







End Fecha.

(** ** History shortcuts: [agregar_opciones] *)

Module Historial.
Import Text.

(** [paso_default] is one step for every option or a dict from option to
    step. *)
Inductive paso :=
| PasoUnico (p : string)
| PasoPorOpcion (d : gmap string string).

(** [{opcion.lower(): paso_default for opcion in opciones}] when
    [paso_default] is not a dict *)
Definition paso_de (opciones : list string) (paso_default : paso) : gmap string string :=
  match paso_default with
  | PasoUnico p => foldl (fun d opcion => <[lower opcion := p]> d) ∅ opciones
  | PasoPorOpcion d => d
  end.

(** [historial if historial else {}] is [historial] as a map in both cases;
    the loop then stores every option in lower case. *)
Definition agregar_opciones (historial : gmap string string) (opciones : list string)
    (paso_default : paso) : gmap string string :=
  let paso_default := paso_de opciones paso_default in
  foldl (fun historial_actualizado opcion =>
           let opcion_min := lower opcion in
           <[opcion_min := default "start" (paso_default !! opcion_min)]>
             historial_actualizado)
        historial opciones.


End Historial.

(** ** The webhook handler: [lambda_handler], the branch for a message *)

Module Handler.
Import Text Fecha Historial Segmenter.

(** *** Data *)

(** What a field of the stored profile holds: text, a number (the
    beneficiary counter), a dict from text to text (the shortcut table, the
    document index), a list of texts (option lists) or [None]. *)
Inductive value :=
| VStr (s : string)
| VInt (n : Z)
| VDict (d : gmap string string)
| VList (l : list string)
| VNone.

(** The inbound message, as the handler reads it from the event body:
    [message.chat.id] as text ([EmptyString] when absent), [message.text],
    [message.from.first_name] and [last_name], and the [data] of
    [message.callback_query] when there is one. *)
Record evento := Evento {
  ev_chat_id : string;
  ev_text : string;
  ev_first_name : string;
  ev_last_name : string;
  ev_callback_data : option string
}.

(** What [enviar_mensaje_telegram] asks the transport to deliver. *)
Inductive accion :=
| SendDocument (chat_id caption document : string)
| SendButtons (chat_id text : string) (botones : list (string * string))
| SendMenu (chat_id text : string) (opciones : list string)
| SendText (chat_id text : string).

Inductive excepcion :=
| KeyError (k : string)
| TypeError
| AttributeError
| NameError (n : string)
| HTTPError
| URLError
| NoModelado.

(** The outcome of running code: it returns, it raises, or it loops for
    ever. *)
Inductive res (A : Type) :=
| Ok (a : A)
| Raise (e : excepcion)
| NoTermina.
Arguments Ok {A} a.
Arguments Raise {A} e.
Arguments NoTermina {A}.

(** The HTTP answer of the handler: status code and the [message] of its
    body. *)
Record http_respuesta := Respuesta { statusCode : Z; message : string }.

(** *** Collaborators *)

(** Answer of the quote, beneficiary and analyst services to a posted form:
    a JSON object with or without an [id], or one of the failures the
    callers catch. *)
Inductive respuesta_id :=
| JsonId (id : option string)
| IdHTTPError
| IdURLError
| IdJSONDecodeError.

(** Answer to the [urlopen] of [obtener_contenido_pagina]. *)
Inductive respuesta_pagina :=
| Pagina (contenido : string)
| PaginaHTTPError
| PaginaURLError.

(** Answer of the two chat-completion services: a JSON object with or
    without a [reply], or a failure. *)
Inductive respuesta_chat :=
| ChatReply (reply : option string)
| ChatHTTPError
| ChatURLError
| ChatException.

(** Result of [elegir_documento]: the triple [(documento, tipo, base_path)].
    For [tipo == 'list'] the document is a dict from label to path (its items
    in order), for [tipo == 'single'] it is one path. *)
Inductive elegido :=
| ElList (documento : list (string * string)) (base_path : option string)
| ElSingle (documento : string) (base_path : option string)
| ElOtro (base_path : option string).

(** The services the handler calls, as functions of what is sent to them.
    [elegir_documento] is called by the handler and defined nowhere in the
    source file; it is taken as one more collaborator. *)
Record servicios := Servicios {
  sv_cotizar : list (string * value) -> respuesta_id;
  sv_beneficiario : list (string * value) -> respuesta_id;
  sv_analista : list (string * value) -> respuesta_id;
  sv_pagina : string -> respuesta_pagina;
  sv_chatgpt : string -> string -> respuesta_chat;
  sv_gandalf : string -> string -> respuesta_chat;
  sv_documentos : string -> option (list string);
  elegir_documento : list value -> elegido
}.

(** *** State of a turn *)

(** The table of profiles, the actions sent so far, and the local variables
    of the handler that the branches assign: the profile being handled,
    [respuesta['text']], [botones], [opciones], [url_pdf], [pdf_file]. *)
Record estado := Estado {
  tabla : gmap string (gmap string value);
  enviados : list accion;
  usuario : gmap string value;
  respuesta : option string;
  botones : list (string * string);
  opciones : list string;
  url_pdf : option string;
  pdf_file : option string
}.

Definition con_tabla (t : gmap string (gmap string value)) (s : estado) : estado :=
  Estado t (enviados s) (usuario s) (respuesta s) (botones s) (opciones s)
         (url_pdf s) (pdf_file s).
Definition con_enviados (e : list accion) (s : estado) : estado :=
  Estado (tabla s) e (usuario s) (respuesta s) (botones s) (opciones s)
         (url_pdf s) (pdf_file s).
Definition con_usuario (u : gmap string value) (s : estado) : estado :=
  Estado (tabla s) (enviados s) u (respuesta s) (botones s) (opciones s)
         (url_pdf s) (pdf_file s).
Definition con_respuesta (r : option string) (s : estado) : estado :=
  Estado (tabla s) (enviados s) (usuario s) r (botones s) (opciones s)
         (url_pdf s) (pdf_file s).
Definition con_botones (b : list (string * string)) (s : estado) : estado :=
  Estado (tabla s) (enviados s) (usuario s) (respuesta s) b (opciones s)
         (url_pdf s) (pdf_file s).
Definition con_opciones (o : list string) (s : estado) : estado :=
  Estado (tabla s) (enviados s) (usuario s) (respuesta s) (botones s) o
         (url_pdf s) (pdf_file s).
Definition con_url_pdf (u : option string) (s : estado) : estado :=
  Estado (tabla s) (enviados s) (usuario s) (respuesta s) (botones s) (opciones s)
         u (pdf_file s).
Definition con_pdf_file (p : option string) (s : estado) : estado :=
  Estado (tabla s) (enviados s) (usuario s) (respuesta s) (botones s) (opciones s)
         (url_pdf s) p.

(** Code that reads and writes the state and may raise or loop. *)
Definition M (A : Type) : Type := estado -> res A * estado.

#[global] Instance M_ret : MRet M := fun A a s => (Ok a, s).
#[global] Instance M_bind : MBind M := fun A B f m s =>
  match m s with
  | (Ok a, s') => f a s'
  | (Raise e, s') => (Raise e, s')
  | (NoTermina, s') => (NoTermina, s')
  end.

Definition ret {A} (a : A) : M A := mret a.
Definition lanzar {A} (e : excepcion) : M A := fun s => (Raise e, s).
Definition no_termina {A} : M A := fun s => (NoTermina, s).
Definition nada : M unit := ret tt.

(** [usuario[k]], [usuario[k] = v], [k in usuario], [usuario.get(k)] *)
Definition leer (k : string) : M value := fun s =>
  match usuario s !! k with
  | Some v => (Ok v, s)
  | None => (Raise (KeyError k), s)
  end.
Definition poner (k : string) (v : value) : M unit := fun s =>
  (Ok tt, con_usuario (<[k := v]> (usuario s)) s).
Definition obtener (k : string) : M (option value) := fun s => (Ok (usuario s !! k), s).

(** [respuesta['text'] = t] and the other locals *)
Definition decir (t : string) : M unit := fun s => (Ok tt, con_respuesta (Some t) s).
Definition fijar_botones (b : list (string * string)) : M unit := fun s =>
  (Ok tt, con_botones b s).
Definition fijar_opciones (o : list string) : M unit := fun s => (Ok tt, con_opciones o s).
Definition fijar_url_pdf (u : option string) : M unit := fun s => (Ok tt, con_url_pdf u s).
Definition fijar_pdf_file (p : option string) : M unit := fun s => (Ok tt, con_pdf_file p s).

(** Truth value of a text that may be [None]. *)
Definition no_vacio (t : option string) : bool :=
  match t with
  | Some (String _ _) => true
  | _ => false
  end.

(** [enviar_mensaje_telegram]: a document when [url_pdf] is given, else
    buttons, else an option menu, else plain text; [pdf_file] is not used. *)
Definition enviar_mensaje_telegram (chat_id mensaje : string)
    (botones : list (string * string)) (url_pdf pdf_file : option string)
    (opciones : list string) : accion :=
  match url_pdf with
  | Some (String c r) => SendDocument chat_id mensaje (String c r)
  | _ =>
      match botones, opciones with
      | _ :: _, _ => SendButtons chat_id mensaje botones
      | [], _ :: _ => SendMenu chat_id mensaje opciones
      | [], [] => SendText chat_id mensaje
      end
  end.

Definition enviar (chat_id mensaje : string) (botones : list (string * string))
    (url_pdf pdf_file : option string) (opciones : list string) : M unit := fun s =>
  (Ok tt, con_enviados
            (enviados s ++ [enviar_mensaje_telegram chat_id mensaje botones url_pdf
                              pdf_file opciones]) s).

(** [enviar_mensaje_telegram(sender, respuesta['text'], botones, url_pdf,
    pdf_file, opciones)] with the locals as they are. *)
Definition enviar_respuesta (sender : string) : M unit := fun s =>
  match respuesta s with
  | Some t => enviar sender t (botones s) (url_pdf s) (pdf_file s) (opciones s) s
  | None => (Raise (KeyError "text"), s)
  end.

(** [enviar_mensaje_telegram(sender, respuesta['text'], None, None, None,
    opciones)] *)
Definition enviar_menu (sender : string) (opciones : list string) : M unit := fun s =>
  match respuesta s with
  | Some t => enviar sender t [] None None opciones s
  | None => (Raise (KeyError "text"), s)
  end.

(** [guardar_usuario]: the item is [{'userID': user_id, **user_data}]. *)
Definition guardar (user_id : string) (user_data : gmap string value) : M unit := fun s =>
  (Ok tt, con_tabla (<[user_id := user_data ∪ {["userID" := VStr user_id]}]> (tabla s)) s).
Definition guardar_usuario (user_id : string) : M unit := fun s =>
  guardar user_id (usuario s) s.

(** [recuperar_usuario]: the item, or [None] when there is none (or an empty
    one). *)
Definition recuperar_usuario (user_id : string) : M (option (gmap string value)) := fun s =>
  match tabla s !! user_id with
  | Some user_data => (Ok (if decide (user_data = ∅) then None else Some user_data), s)
  | None => (Ok None, s)
  end.

(** *** Values *)

(** [v == t] for a text [t]: a value of another type is not equal to it. *)
Definition veq (v : value) (t : string) : bool :=
  match v with
  | VStr s => (s =? t)%string
  | _ => false
  end.

(** Truth value of a stored value. *)
Definition verdadero (v : value) : bool :=
  match v with
  | VStr s => no_vacio (Some s)
  | VInt n => negb (n =? 0)
  | VDict d => negb (bool_decide (d = ∅))
  | VList l => match l with [] => false | _ => true end
  | VNone => false
  end.

Definition opcional (t : option string) : value :=
  match t with
  | Some s => VStr s
  | None => VNone
  end.

(** [sub in s] for two texts. *)
Fixpoint contiene (sub s : string) : bool :=
  String.prefix sub s ||
  match s with
  | String _ r => contiene sub r
  | EmptyString => false
  end.

(** The text of a value inside an f-string.  The text of a dict or of a list
    (their [repr]) is not modelled. *)
Definition formatear (v : value) : M string :=
  match v with
  | VStr s => ret s
  | VInt n => ret (pretty n)
  | VNone => ret "None"
  | _ => lanzar NoModelado
  end.

(** The keys of [{doc: ... for doc in documentos}] in the order of their
    first insertion. *)
Fixpoint claves_en_orden (vistos documentos : list string) : list string :=
  match documentos with
  | [] => []
  | doc :: r =>
      if bool_decide (doc ∈ vistos) then claves_en_orden vistos r
      else doc :: claves_en_orden (doc :: vistos) r
  end.

Definition nl : string := String (ascii_of_nat 10) EmptyString.

(** *** The collaborators as the handler sees them *)

Section handler.
Context (sv : servicios).

Definition id_de (r : respuesta_id) : string :=
  match r with
  | JsonId (Some id) => id
  | JsonId None => EmptyString
  | IdHTTPError | IdURLError | IdJSONDecodeError => EmptyString
  end.

(** [cotizar], [agregar_beneficiario], [asignar_a_analista]: the [id] of the
    answer, the empty text when it has none or the call fails. *)
Definition cotizar (datos : list (string * value)) : string := id_de (sv_cotizar sv datos).
Definition agregar_beneficiario (datos : list (string * value)) : string :=
  id_de (sv_beneficiario sv datos).
Definition asignar_a_analista (datos : list (string * value)) : string :=
  id_de (sv_analista sv datos).

(** [obtener_contenido_pagina(url)]: both failures are raised again. *)
Definition obtener_contenido_pagina (url : string) : M string :=
  match sv_pagina sv url with
  | Pagina contenido => ret contenido
  | PaginaHTTPError => lanzar HTTPError
  | PaginaURLError => lanzar URLError
  end.

(** [generar_pdf(id_cotizacion)]: its [except] clauses print and raise
    again. *)
Definition generar_pdf (id_cotizacion : string) : M string :=
  obtener_contenido_pagina
    ("https://YOUR_PDF_SERVICE.co/pdfgen/gen.php?id=" +:+ id_cotizacion +:+
     "&zoom=0.65&orientation=Landscape&nofolder=1&server=YOUR_SERVER.co").

Definition respuesta_de (r : respuesta_chat) : string :=
  match r with
  | ChatReply (Some reply) => reply
  | ChatReply None => "No se pudo obtener una respuesta."
  | ChatHTTPError => "Hubo un problema al procesar tu pregunta."
  | ChatURLError => "Error al procesar la pregunta."
  | ChatException => "Error al procesar la pregunta."
  end.

Definition pregunta_a_chatgpt (mensaje model : string) : string :=
  respuesta_de (sv_chatgpt sv mensaje model).
Definition pregunta_a_gandalf (mensaje model : string) : string :=
  respuesta_de (sv_gandalf sv mensaje model).

(** [isinstance(model, str) and bool(model.strip())] *)
Definition modelo_es_valido (model : value) : bool :=
  match model with
  | VStr s => no_vacio (Some (str_strip s))
  | _ => false
  end.

Definition obtener_documentos (folder_path : string) : option (list string) :=
  sv_documentos sv folder_path.

(** [correo_es_valido]: [re.match] of [[^@]+@[^@]+\.[^@]+] at the start of
    the text: a non-empty run without [@], an [@], then a run without [@]
    that has a full stop after its first and before its last character. *)
Fixpoint hasta_arroba (s : list ascii) : list ascii * list ascii :=
  match s with
  | [] => ([], [])
  | c :: r =>
      if decide (c = "@"%char) then ([], s)
      else let '(a, b) := hasta_arroba r in (c :: a, b)
  end.

Fixpoint punto_interior (s : list ascii) : bool :=
  match s with
  | _ :: (("."%char :: _ :: _) as r) => true
  | _ :: r => punto_interior r
  | [] => false
  end.

Definition correo_es_valido (correo : string) : bool :=
  match hasta_arroba (list_ascii_of_string correo) with
  | (_ :: _, _ :: resto) => punto_interior (fst (hasta_arroba resto))
  | _ => false
  end.

Definition parentesco_valido (cadena : string) : bool :=
  bool_decide (lower (str_strip cadena) ∈
    lower <$> ["Madre"; "Padre"; "Esposo"; "Esposa"; "Hijo"; "Hija"; "Hermano"; "Hermana"]).

(** [agregar_opciones(usuario.get('historial', {}), opciones, paso)]: a
    stored value that is not a dict is replaced by a new dict when it is
    false, and cannot be assigned into when it is not. *)
Definition agregar_opciones_en (historial : option value) (opciones : list string)
    (paso : string) : M value :=
  match historial with
  | None => ret (VDict (agregar_opciones ∅ opciones (PasoUnico paso)))
  | Some (VDict d) => ret (VDict (agregar_opciones d opciones (PasoUnico paso)))
  | Some v =>
      if verdadero v then
        match opciones with
        | [] => ret v
        | _ :: _ => lanzar TypeError
        end
      else ret (VDict (agregar_opciones ∅ opciones (PasoUnico paso)))
  end.

(** [usuario['historial'] = agregar_opciones(usuario.get('historial', {}),
    opciones, paso)] *)
Definition registrar_opciones (opciones : list string) (paso : string) : M unit :=
  historial ← obtener "historial";
  historial ← agregar_opciones_en historial opciones paso;
  poner "historial" historial.

(** The buttons offered with "another question?". *)
Definition botones_pregunta (rol : value) : list (string * string) :=
  if veq rol "admin" || veq rol "developer"
  then [("Si", "Si"); ("No", "No"); ("Cotiza", "Volver")]
  else [("Si", "Si"); ("No", "No"); ("Cotiza", "Volver a cotizar")].

Definition si_no : list (string * string) := [("Si", "Si"); ("No", "No")].

(** [fecha_sql(usuario[k])]: [strptime] raises [TypeError] on what is not a
    text. *)
Definition fecha_sql_de (k : string) : M value :=
  v ← leer k;
  match v with
  | VStr s => ret (opcional (fecha_sql s))
  | _ => lanzar TypeError
  end.

End handler.

(** *** The rules of the dispatch *)

(** One constructor for each branch of the [if]/[elif] chain, in its
    order. *)
Inductive regla :=
| RStart | RMaster | RChatgpt | RAskedWelcome | RAskedBirthdate | RAskedOnlyName
| RAskedName | RAskedEmail | RAskedSex | RAskBenefit | RAskedParent
| RAskedBirthdateParent | RAskedFamily | REnd | RAdditionalHelp | REndCotiza
| RWaitForQuestion | RConfirmContinue | RAskedAdmin | RAskedMaster | RAskedTrainer
| RGandalf | RSubCategorySelection | RCompanySelection | RDocumentChoice | RFallback.

(** The conditions of the chain: the first that holds selects the rule. *)
Definition regla_de (master step modo : value) (mensaje_decoded : string) : regla :=
  let es t := (mensaje_decoded =? t)%string in
  if negb (veq master "ON") && (veq step "start" || es "hola" || es "/start")
     && negb (es "chatgpt" || es "dr seguro") && veq modo "normal" then RStart
  else if veq step "master" then RMaster
  else if es "chatgpt" || es "dr seguro" then RChatgpt
  else if veq step "askedWelcome" && veq modo "normal" then RAskedWelcome
  else if veq step "askedBirthdate" then RAskedBirthdate
  else if veq step "askedOnlyName" then RAskedOnlyName
  else if veq step "askedName" then RAskedName
  else if veq step "askedEmail" then RAskedEmail
  else if veq step "askedSex" then RAskedSex
  else if veq step "askBenefit" then RAskBenefit
  else if veq step "askedParent" then RAskedParent
  else if veq step "askedBirthdateParent" then RAskedBirthdateParent
  else if veq step "askedFamily" then RAskedFamily
  else if veq step "end" then REnd
  else if veq step "additionalHelp" then RAdditionalHelp
  else if veq step "endCotiza" then REndCotiza
  else if veq step "waitForQuestion" then RWaitForQuestion
  else if veq step "confirmContinue" then RConfirmContinue
  else if veq step "askedAdmin" then RAskedAdmin
  else if veq step "askedMaster" then RAskedMaster
  else if veq step "askedTrainer" then RAskedTrainer
  else if veq step "gandalf" then RGandalf
  else if veq step "sub_category_selection" then RSubCategorySelection
  else if veq step "company_selection" then RCompanySelection
  else if veq step "document_choice" then RDocumentChoice
  else RFallback.

Definition saludo : string :=
  "Hola, espero te encuentres bien. Soy *TUBOT*, ejecutivo virtual de *TUEMPRESA*. Es un gusto para mí atenderte para ofrecerte diferentes opciones de seguros de salud.".
Definition pide_nombre : string := "¿Sería tan amable de darme su nombre y apellido?".
Definition pide_fecha : string := "¿Sería tan amable de indicarme su fecha de nacimiento?".
Definition despedida : string :=
  "¡Gracias por contactarnos! Si necesitas más ayuda en el futuro, no dudes en escribirnos.".
Definition no_entiendo : string :=
  "No entiendo tu mensaje. Escribe *hola* para empezar de nuevo.".
Definition error_cotizacion : string := "Hubo un error al procesar tu cotización.".
Definition adelante : string := "Estoy aqui para responder tus preguntas. Adelante.".
Definition fecha_incorrecta : string :=
  "La fecha no es correcta, por favor ingresa una fecha valida (DD/MM/AAAA).".
Definition perfecto : string :=
  "Perfecto, en este momento le estoy enviando un cuadro de cotización para que proceda con su revisión.".

(** The roles offered to a master: [Desarrollador] too when the developer
    flag is on. *)
Definition roles_de (developer : value) : list string :=
  if veq developer "ON"
  then ["Usuario"; "Asociado"; "Master"; "Desarrollador"]
  else ["Usuario"; "Asociado"; "Master"].

Definition areas : list string :=
  ["Riesgos"; "Soporte al Cliente"; "Administracion"; "Hablar con TUBOT"].

Section reglas.
Context (sv : servicios) (sender mensaje_decoded : string) (nombre rol developer : value).

Definition regla_start : M unit :=
  poner "poliza" (VStr "Salud");;
  poner "cotiza" (VStr EmptyString);;
  if veq nombre EmptyString then
    decir saludo;;
    enviar_respuesta sender;;
    decir pide_nombre;;
    poner "step" (VStr "askedWelcome")
  else if veq rol "admin" then
    n ← formatear nombre;
    decir ("Hola *" +:+ n +:+
           "*, espero te encuentres bien. Soy *TUBOT*, ejecutivo virtual de *TUEMPRESA*.");;
    enviar_respuesta sender;;
    decir "¿En qué área te puedo ayudar?";;
    fijar_opciones areas;;
    registrar_opciones areas "askedAdmin";;
    enviar_menu sender areas;;
    decir EmptyString;;
    poner "step" (VStr "askedAdmin")
  else if veq rol "developer" then
    n ← formatear nombre;
    decir ("Hola *" +:+ n +:+ "*, soy *TUBOTSECUNDARIO*, pregúntame lo que quieras");;
    poner "step" (VStr "waitForQuestion");;
    poner "modo" (VStr "gandalf")
  else
    n ← formatear nombre;
    decir ("Hola *" +:+ n +:+
           "*, espero te encuentres bien. Soy *TUBOT*, ejecutivo virtual de *TUEMPRESA*. Es un gusto para mí atenderte para ofrecerte diferentes opciones de seguros de salud.");;
    enviar_respuesta sender;;
    decir pide_fecha;;
    poner "step" (VStr "askedBirthdate").

Definition regla_master : M unit :=
  poner "poliza" (VStr "Salud");;
  poner "cotiza" (VStr EmptyString);;
  n ← formatear nombre;
  decir ("Hola *" +:+ n +:+
         "*, espero te encuentres bien. Soy *TUBOT*, ejecutivo virtual de *TUEMPRESA*.");;
  enviar_respuesta sender;;
  decir "¿Con que rol quieres interactuar conmigo?";;
  let roles := roles_de developer in
  fijar_opciones roles;;
  registrar_opciones roles "askedMaster";;
  enviar_menu sender roles;;
  decir EmptyString;;
  poner "step" (VStr "askedMaster").

Definition regla_chatgpt : M unit :=
  decir adelante;;
  poner "step" (VStr "waitForQuestion").

Definition regla_askedWelcome : M unit :=
  poner "nombre" (VStr (title mensaje_decoded));;
  decir ("Un gusto *" +:+ title mensaje_decoded +:+
         "*. También indícame tu fecha de nacimiento:");;
  poner "step" (VStr "askedBirthdate").

Definition regla_askedBirthdate : M unit :=
  match validar_fecha mensaje_decoded with
  | Some fecha =>
      poner "fecha" (VStr mensaje_decoded);;
      decir "Y ahora tu correo electrónico.";;
      poner "step" (VStr "askedEmail")
  | None =>
      decir fecha_incorrecta;;
      poner "step" (VStr "askedBirthdate")
  end.

Definition regla_askedOnlyName : M unit :=
  poner "nombre" (VStr (title mensaje_decoded));;
  poner "step" (VStr "end");;
  poliza ← leer "poliza";
  let _ := asignar_a_analista sv
             [("telefono", VStr sender); ("nombre", VStr (title mensaje_decoded));
              ("poliza", poliza)] in
  p ← formatear poliza;
  decir ("Gracias " +:+ title mensaje_decoded +:+
         ", voy a dirigir tu llamada a un analista para una póliza de " +:+ p +:+
         ". ¿Tienes alguna otra pregunta para mí?");;
  fijar_botones [("Si", "Si"); ("No", "No"); ("Cotiza", "Volver a cotizar")];;
  poner "step" (VStr "additionalHelp").

Definition regla_askedName : M unit :=
  poner "nombre" (VStr (title mensaje_decoded));;
  decir "Proporciona un correo electrónico para contactarte";;
  poner "step" (VStr "askedEmail").

Definition regla_askedEmail : M unit :=
  if correo_es_valido mensaje_decoded then
    poner "email" (VStr mensaje_decoded);;
    decir "Por último, selecciona tu género:";;
    fijar_botones [("M", "Masculino"); ("F", "Femenino")];;
    poner "step" (VStr "askedSex")
  else
    decir "El correo electrónico ingresado no es válido. Por favor, ingresa un correo electrónico válido.".

Definition regla_askedSex : M unit :=
  poner "sexo" (VStr mensaje_decoded);;
  poner "bcuenta" (VInt 0);;
  poner "beneficiario" (VStr "no");;
  decir "¿Desea agregar a un familiar a la cotización?";;
  fijar_botones si_no;;
  poner "step" (VStr "askBenefit").

Definition regla_askBenefit : M unit :=
  if (mensaje_decoded =? "si")%string then
    poner "beneficiario" (VStr "si");;
    decir "Escribe el parentesco (Madre, Padre, Esposo, Esposa, Hijo, Hija, Hermano o Hermana):";;
    poner "step" (VStr "askedParent")
  else
    decir "Ha elegido no agregar más familiares. Procederé a preparar su cotización.";;
    fijar_botones [("Continuar", "Continuar")];;
    poner "step" (VStr "askedFamily").

Definition regla_askedParent : M unit :=
  if parentesco_valido mensaje_decoded then
    let parentesco := lower (str_strip mensaje_decoded) in
    poner "parentesco" (VStr parentesco);;
    decir ("Escribe la fecha de nacimiento de tu " +:+ parentesco +:+ ":");;
    poner "step" (VStr "askedBirthdateParent")
  else
    decir "El parentesco no es correcto. Por favor, escribe alguna de estas opciones: Madre, Padre, Esposo, Esposa, Hijo, Hija, Hermano o Hermana".

Definition regla_askedBirthdateParent : M unit :=
  match validar_fecha mensaje_decoded with
  | Some fecha =>
      poner "bfecha" (VStr mensaje_decoded);;
      bcuenta ← leer "bcuenta";
      match bcuenta with
      | VInt n => poner "bcuenta" (VInt (n + 1))
      | _ => lanzar TypeError
      end;;
      bfecha ← fecha_sql_de "bfecha";
      parentesco ← leer "parentesco";
      bcuenta ← leer "bcuenta";
      let _ := agregar_beneficiario sv
                 [("btoken", VStr sender); ("bfecha", bfecha);
                  ("bparentesco", parentesco); ("correlativo", bcuenta)] in
      decir "¿Desea agregar a otro familiar a la cotización?";;
      fijar_botones si_no;;
      poner "step" (VStr "askBenefit")
  | None => decir fecha_incorrecta
  end.

(** The form posted for a quote: the fields of the profile it reads, each
    of which must be there. *)
Definition datos_cotizacion (extra : list (string * value)) : M (list (string * value)) :=
  fecha ← fecha_sql_de "fecha";
  nombre ← leer "nombre";
  email ← leer "email";
  sexo ← leer "sexo";
  plan ← leer "plan";
  monto ← leer "monto";
  monto2 ← leer "monto2";
  ret ([("telefono", VStr sender); ("fecha", fecha); ("nombre", nombre);
        ("email", email); ("sexo", sexo); ("plan", plan); ("monto", monto);
        ("monto2", monto2)] ++ extra).

(** The [if id_cotizacion: ... else: ...] after each quote. *)
Definition enviar_cotizacion (id_cotizacion : string) (guarda : bool) : M unit :=
  if no_vacio (Some id_cotizacion) then
    (if guarda then poner "cotiza" (VStr id_cotizacion) else nada);;
    fijar_url_pdf (Some ("https://YOUR_PDF_SERVICE.co/pdfgen/" +:+ id_cotizacion +:+ ".pdf"));;
    fijar_pdf_file (Some ("Cotizacion_" +:+ id_cotizacion +:+ ".pdf"));;
    decir ("Tu cotización " +:+ id_cotizacion +:+ " ya está lista. Puedes verla aquí.");;
    enviar_respuesta sender
  else
    decir error_cotizacion;;
    fijar_url_pdf None;;
    enviar_respuesta sender.

Definition regla_askedFamily : M unit :=
  poner "bcuenta" (VInt 0);;
  decir perfecto;;
  enviar_respuesta sender;;
  _ ← leer "nombre";
  poner "plan" (VStr "Amplio");;
  poner "monto" (VStr "100000");;
  poner "monto2" (VStr "200000");;
  poner "modo" (VStr "chatgpt");;
  poner "step" (VStr "waitForQuestion");;
  guardar_usuario sender;;
  data ← datos_cotizacion [];
  let id_cotizacion := cotizar sv data in
  _ ← generar_pdf sv id_cotizacion;
  enviar_cotizacion id_cotizacion true;;
  decir "Por otro lado, le estoy enviando otras cotizaciones que puedan adaptarse a su presupuesto";;
  fijar_url_pdf None;;
  enviar_respuesta sender;;
  poner "monto" (VStr "50000");;
  poner "monto2" (VStr "30000");;
  poner "monto3" (VStr "20000");;
  poner "plan" (VStr "Amplio");;
  monto3 ← leer "monto3";
  data ← datos_cotizacion [("monto3", monto3); ("bdelete", VStr "SI")];
  let id_cotizacion := cotizar sv data in
  _ ← generar_pdf sv id_cotizacion;
  enviar_cotizacion id_cotizacion false;;
  _ ← leer "poliza";
  fijar_url_pdf None;;
  decir "Tu cotización ha sido procesada con éxito. ¿Tienes alguna otra pregunta para mí?";;
  enviar_respuesta sender;;
  decir EmptyString;;
  poner "modo" (VStr "chatgpt");;
  poner "step" (VStr "waitForQuestion");;
  guardar_usuario sender.

Definition regla_end : M unit :=
  poliza ← leer "poliza";
  decir (if veq poliza "Salud"
         then "Tu cotización ha sido procesada con éxito. ¿Tienes alguna otra pregunta para mí?"
         else "¿Tienes alguna otra pregunta para mí?");;
  fijar_botones (botones_pregunta rol);;
  poner "step" (VStr "additionalHelp").

Definition regla_additionalHelp : M unit :=
  let es t := (mensaje_decoded =? t)%string in
  let interno := veq rol "admin" || veq rol "developer" in
  (if es "no" then
     decir (if interno
            then "¡Gracias por contactarme! Si necesitas más ayuda en el futuro, no dudes en escribirme."
            else despedida);;
     poner "step" (VStr "finalizado");;
     poner "modo" (VStr "normal")
   else nada);;
  if es "volver a cotizar" || es "volver" || startswith "hola" mensaje_decoded then
    decir (if interno
           then "¡Seguro! Solo escribeme *Hola* otra vez cuando quieras volver a consultar.."
           else "¡Seguro! Solo escribeme *Hola* otra vez cuando quieras volver a cotizar..");;
    poner "step" (VStr "start");;
    poner "modo" (VStr "normal")
  else if es "si" then
    modo ← leer "modo";
    (if veq modo "gandalf" then
       decir "Pregúntame lo que quieras. Soy *Gandalf el Blanco*."
     else
       decir "Por favor, escribe tu pregunta a continuación.";;
       poner "modo" (VStr "chatgpt"));;
    poner "step" (VStr "waitForQuestion")
  else
    modo ← leer "modo";
    if veq modo "chatgpt" then
      let respuesta_chatgpt := pregunta_a_chatgpt sv mensaje_decoded "gpt-4o" in
      if (respuesta_chatgpt =? "TOKEN_START")%string then
        decir "¡Bien! Vamos a cotizar de nuevo...";;
        poner "step" (VStr "start");;
        poner "modo" (VStr "normal")
      else if (respuesta_chatgpt =? "TOKEN_END")%string then
        decir despedida;;
        poner "step" (VStr "finalizado");;
        poner "modo" (VStr "normal")
      else
        decir (respuesta_chatgpt +:+ nl +:+ nl +:+ "¿Tienes otra pregunta?");;
        fijar_botones (botones_pregunta rol);;
        poner "step" (VStr "confirmContinue")
    else nada.

(** [respuesta_chatgpt] is read before any assignment to it in this turn. *)
Definition regla_endCotiza : M unit := lanzar (NameError "respuesta_chatgpt").

(** [for respuesta_chatgpt in mensajes: enviar_mensaje_telegram(sender,
    respuesta_chatgpt, None, None, None, None)] *)
Fixpoint enviar_trozos (mensajes : list (list ascii)) : M unit :=
  match mensajes with
  | [] => nada
  | trozo :: resto =>
      enviar sender (string_of_list_ascii trozo) [] None None [];;
      enviar_trozos resto
  end.

Definition regla_waitForQuestion : M unit :=
  if (mensaje_decoded =? "continuar")%string then nada
  else
    model ← obtener "model";
    let model := match model with
                 | Some (VStr m) => if modelo_es_valido (VStr m) then m else "gpt-4o"
                 | _ => "gpt-4o"
                 end in
    modo ← leer "modo";
    let respuesta_chatgpt :=
      if veq modo "gandalf" || veq rol "developer"
      then pregunta_a_gandalf sv mensaje_decoded model
      else pregunta_a_chatgpt sv mensaje_decoded model in
    match dividir_mensaje (list_ascii_of_string respuesta_chatgpt) 1000 with
    | None => no_termina
    | Some mensajes =>
        enviar_trozos mensajes;;
        decir "¿Tienes otra pregunta?";;
        fijar_botones (botones_pregunta rol);;
        poner "step" (VStr "additionalHelp")
    end.

Definition regla_confirmContinue : M unit :=
  (if (mensaje_decoded =? "si")%string then
     decir "¡Muy bien! Haz tu próxima pregunta.";;
     poner "step" (VStr "additionalHelp");;
     poner "modo" (VStr "chatgpt")
   else nada);;
  if (mensaje_decoded =? "cotiza")%string then
    decir "¡Seguro! Podemos volver a cotizar.";;
    poner "step" (VStr "start");;
    poner "modo" (VStr "normal")
  else
    decir despedida;;
    poner "step" (VStr "finalizado");;
    poner "modo" (VStr "normal").

Definition suboptions (categoria : string) : list string :=
  if (categoria =? "administracion")%string then
    ["Aranceles"; "Relacion Comisiones"; "Pago Comisiones"; "Contacto"]
  else if (categoria =? "riesgos")%string then
    ["Condicionados"; "Métodos Pago"; "Requisitos Cotizar"; "Requisitos Emitir";
     "Requ. cotizar colectivo"; "Requ. cotizar flota"; "Solicitudes";
     "Edad de admisibilidad"; "Plazos de espera"]
  else ["Red clinicas"; "Proc. Reclamos"; "Tramitar Recl."; "Contactos Emerg."].

Definition categorias : list string := ["administracion"; "riesgos"; "soporte al cliente"].

Definition regla_askedAdmin : M unit :=
  decir "¿En qué subárea te puedo ayudar?";;
  poner "step" (VStr "start");;
  _ ← leer "modo";
  (if bool_decide (mensaje_decoded ∈ categorias) then
     poner "categoria" (VStr mensaje_decoded);;
     fijar_opciones (suboptions mensaje_decoded);;
     registrar_opciones (suboptions mensaje_decoded) "sub_category_selection";;
     poner "opciones" (VList (suboptions mensaje_decoded));;
     decir "Selecciona una subcategoría:";;
     poner "step" (VStr "sub_category_selection")
   else nada);;
  if (mensaje_decoded =? "hablar con deyna")%string then
    decir adelante;;
    fijar_opciones [];;
    enviar_respuesta sender;;
    poner "step" (VStr "waitForQuestion");;
    _ ← leer "modo";
    decir EmptyString
  else nada.

(** The statements [usuario['rol'] == ...] and [usuario['modo'] == ...] of
    this branch are comparisons: they read the field and change nothing. *)
Definition regla_askedMaster : M unit :=
  let es t := (mensaje_decoded =? t)%string in
  (if es "usuario" then
     decir saludo;;
     enviar_respuesta sender;;
     decir pide_nombre;;
     _ ← leer "rol";
     _ ← leer "modo";
     poner "step" (VStr "askedWelcome")
   else nada);;
  (if es "asociado" then
     decir "¿En qué área te puedo ayudar?";;
     fijar_opciones areas;;
     registrar_opciones areas "askedAdmin";;
     enviar_menu sender areas;;
     decir EmptyString;;
     _ ← leer "rol";
     poner "step" (VStr "askedAdmin");;
     _ ← leer "modo";
     nada
   else nada);;
  (if es "desarrollador" && veq developer "ON" then
     n ← formatear nombre;
     decir ("Hola *" +:+ n +:+ "*, soy *TUBOTSECUNDARIO*, pregúntame lo que quieras");;
     _ ← leer "rol";
     poner "step" (VStr "waitForQuestion");;
     poner "modo" (VStr "gandalf")
   else nada);;
  if es "master" then
    decir "¡Hola Maestro! ¿Que nueva instrucción o sugerencia quieres que aprenda?";;
    poner "step" (VStr "askedTrainer")
  else nada.

Definition regla_askedTrainer : M unit :=
  decir "Memorizando. Espera un momento por favor...";;
  enviar sender "Memorizando. Espera un momento por favor..." [] None None [];;
  user_data ← recuperar_usuario "deyna";
  match user_data with
  | Some user_data =>
      match user_data !! "instrucciones" with
      | Some (VStr instrucciones) =>
          guardar "deyna"
            (<["instrucciones" := VStr (instrucciones +:+ nl +:+ mensaje_decoded)]> user_data);;
          let _ := pregunta_a_chatgpt sv "TUBOT:reborn" "gpt-4o" in
          decir "Mi base de conocimiento ha sido actualizada con éxito.";;
          poner "step" (VStr "master")
      | Some _ => lanzar TypeError
      | None =>
          decir "Mi base de conocimiento no tiene instrucciones. Algo anda mal con mi servidor.";;
          poner "step" (VStr "master")
      end
  | None =>
      decir "Mi base de conocimiento no tiene instrucciones. Algo anda mal con mi servidor.";;
      poner "step" (VStr "master")
  end.

Definition regla_gandalf : M unit :=
  decir adelante;;
  fijar_opciones [];;
  enviar_respuesta sender;;
  poner "step" (VStr "waitForQuestion");;
  _ ← leer "modo";
  decir EmptyString.

Definition companias : list string :=
  ["Compania1"; "Compania2"; "Compania3"; "Compania4"; "Compania5"; "Compania6";
   "Compania7"; "Compania8"; "Compania9"; "Compania10"].

(** [companies.get(mensaje_decoded, [])]: the first key of the dict is
    spelled [conicionados]. *)
Definition companies (subcategoria : string) : list string :=
  if bool_decide (subcategoria ∈ ["conicionados"; "red clinicas"; "métodos pago"; "solicitudes"])
  then companias else [].

(** What follows a call of [elegir_documento]. *)
Definition documento_elegido (e : elegido) (pdf : string) : M unit :=
  match e with
  | ElList documento base_path =>
      poner "base_path" (opcional base_path);;
      poner "documents" (VDict (list_to_map documento));;
      fijar_opciones (documento.*1);;
      registrar_opciones (documento.*1) "document_choice";;
      decir "Selecciona un archivo o carpeta:";;
      poner "step" (VStr "document_choice")
  | ElSingle documento base_path =>
      poner "base_path" (opcional base_path);;
      fijar_url_pdf (Some (match base_path with
                           | Some b => b +:+ documento
                           | None => documento
                           end));;
      fijar_pdf_file (Some pdf);;
      decir "Aquí está el documento que solicitaste";;
      poner "step" (VStr "start")
  | ElOtro base_path =>
      poner "base_path" (opcional base_path);;
      decir "Opción no válida. Selecciona una opción válida."
  end.

Definition regla_sub_category_selection : M unit :=
  categoria ← leer "categoria";
  if veq categoria "administracion" || veq categoria "riesgos"
     || veq categoria "soporte al cliente" then
    poner "subcategoria" (VStr mensaje_decoded);;
    if bool_decide (mensaje_decoded ∈
         ["condicionados"; "métodos pago"; "solicitudes"; "red clinicas"]) then
      poner "step" (VStr "company_selection");;
      poner "companies" (VList (companies mensaje_decoded));;
      fijar_opciones (companies mensaje_decoded);;
      registrar_opciones (companies mensaje_decoded) "company_selection";;
      decir "Selecciona una aseguradora:"
    else
      documento_elegido (elegir_documento sv [categoria; VStr mensaje_decoded])
        (str_take 22 mensaje_decoded +:+ ".pdf")
  else decir "Subcategoría no reconocida. Elige una opción válida.".

Definition regla_company_selection : M unit :=
  categoria ← leer "categoria";
  subcategoria ← leer "subcategoria";
  documento_elegido
    (elegir_documento sv [categoria; subcategoria; VStr mensaje_decoded])
    (mensaje_decoded +:+ ".pdf").

Definition documentos_url : string := "https://YOUR_DOCUMENT_SERVICE.co/doc_asist/".

(** The listing of a folder of [document_choice]. *)
Definition abrir_carpeta : M unit :=
  base_path ← leer "base_path";
  match base_path with
  | VStr base_path =>
      let folder_path := str_rstrip_char "/" base_path +:+ "/" +:+
                         str_lstrip_char "/" mensaje_decoded in
      match obtener_documentos sv (replace documentos_url EmptyString folder_path) with
      | Some ((_ :: _) as documentos) =>
          let folder_path := if endswith "/" folder_path then folder_path
                             else folder_path +:+ "/" in
          poner "documents"
            (VDict (list_to_map ((fun doc => (doc, folder_path +:+ doc)) <$> documentos)));;
          fijar_opciones (claves_en_orden [] documentos);;
          registrar_opciones (claves_en_orden [] documentos) "document_choice";;
          decir "Selecciona un archivo o carpeta:";;
          poner "step" (VStr "document_choice")
      | _ =>
          decir "Documento no válido o carpeta vacia. Intente de nuevo.";;
          poner "step" (VStr "start")
      end
  | _ => lanzar AttributeError
  end.

Definition regla_document_choice : M unit :=
  documents ← leer "documents";
  match documents with
  | VDict documents =>
      match documents !! mensaje_decoded with
      | Some ((String _ _) as selected_doc) =>
          if endswith "pdf" selected_doc then
            fijar_url_pdf (Some selected_doc);;
            fijar_pdf_file (Some mensaje_decoded);;
            decir "Aquí está el documento que solicitaste";;
            fijar_botones [];;
            fijar_opciones [];;
            poner "step" (VStr "start")
          else abrir_carpeta
      | _ => abrir_carpeta
      end
  | _ => lanzar AttributeError
  end.

Definition regla_fallback : M unit :=
  decir no_entiendo;;
  poner "step" (VStr "start");;
  poner "modo" (VStr "normal").

Definition cuerpo (r : regla) : M unit :=
  match r with
  | RStart => regla_start
  | RMaster => regla_master
  | RChatgpt => regla_chatgpt
  | RAskedWelcome => regla_askedWelcome
  | RAskedBirthdate => regla_askedBirthdate
  | RAskedOnlyName => regla_askedOnlyName
  | RAskedName => regla_askedName
  | RAskedEmail => regla_askedEmail
  | RAskedSex => regla_askedSex
  | RAskBenefit => regla_askBenefit
  | RAskedParent => regla_askedParent
  | RAskedBirthdateParent => regla_askedBirthdateParent
  | RAskedFamily => regla_askedFamily
  | REnd => regla_end
  | RAdditionalHelp => regla_additionalHelp
  | REndCotiza => regla_endCotiza
  | RWaitForQuestion => regla_waitForQuestion
  | RConfirmContinue => regla_confirmContinue
  | RAskedAdmin => regla_askedAdmin
  | RAskedMaster => regla_askedMaster
  | RAskedTrainer => regla_askedTrainer
  | RGandalf => regla_gandalf
  | RSubCategorySelection => regla_sub_category_selection
  | RCompanySelection => regla_company_selection
  | RDocumentChoice => regla_document_choice
  | RFallback => regla_fallback
  end.

End reglas.

(** *** The handler *)

Definition obtener_boton (ev : evento) (mensaje : string) : string :=
  match ev_callback_data ev with
  | Some data => data
  | None => mensaje
  end.

(** The profile created for an unseen sender. *)
Definition usuario_nuevo (nombre : string) : gmap string value :=
  {[ "step" := VStr "start"; "monto" := VStr EmptyString; "nombre" := VStr nombre;
     "fecha" := VStr EmptyString; "modo" := VStr "normal"; "cotiza" := VStr EmptyString ]}.

Definition fijar_usuario (u : gmap string value) : M unit := fun s =>
  (Ok tt, con_usuario u s).

(** [if 'historial' in usuario: if mensaje_decoded in usuario['historial']:
    step = usuario['historial'][mensaje_decoded]; usuario['step'] = step].
    A stored value that is not a dict raises where Python does: a list or a
    text that holds the message cannot be indexed by it, a number or [None]
    cannot be searched. *)
Definition atajo (mensaje_decoded : string) (step : value) : M value :=
  historial ← obtener "historial";
  match historial with
  | None => ret step
  | Some (VDict historial) =>
      match historial !! mensaje_decoded with
      | Some paso => poner "step" (VStr paso);; ret (VStr paso)
      | None => ret step
      end
  | Some (VList l) =>
      if bool_decide (mensaje_decoded ∈ l) then lanzar TypeError else ret step
  | Some (VStr t) =>
      if contiene mensaje_decoded t then lanzar TypeError else ret step
  | Some (VInt _) | Some VNone => lanzar TypeError
  end.

Definition campo_o (k : string) (defecto : value) : M value :=
  v ← obtener k;
  ret (default defecto v).

(** The end of a turn: [respuesta['text']] is sent when it is there and not
    empty, the profile is stored, and the handler answers 200. *)
Definition cierre (sender : string) : M http_respuesta :=
  (fun s => if no_vacio (respuesta s) then enviar_respuesta sender s else (Ok tt, s));;
  (fun s => if decide (usuario s = ∅) then (Ok tt, s) else guardar_usuario sender s);;
  ret (Respuesta 200 "Operación realizada correctamente").

(** The step after the history override, for a profile whose [historial] is
    absent or a dict. *)
Definition paso_efectivo (u : gmap string value) (mensaje_decoded : string)
    (step : value) : value :=
  match u !! "historial" with
  | Some (VDict historial) =>
      match historial !! mensaje_decoded with
      | Some paso => VStr paso
      | None => step
      end
  | _ => step
  end.

(** The master flag of a profile, [OFF] when it has none. *)
Definition master_de (u : gmap string value) : value := default (VStr "OFF") (u !! "master").

(** The step that selects the rule, after the history override and the
    routing of a master at [start] to [master]. *)
Definition paso_despachado (u : gmap string value) (mensaje_decoded : string)
    (step : value) : value :=
  let step := paso_efectivo u mensaje_decoded step in
  if veq (master_de u) "ON" && veq step "start" then VStr "master" else step.

(** A profile whose [historial] is absent or a dict, as the handler
    leaves it. *)
Definition bien_tipado (u : gmap string value) : Prop :=
  u !! "historial" = None \/ exists h, u !! "historial" = Some (VDict h).

(** The profile after the override and the routing: they store the step
    they choose. *)
Definition usuario_con_atajo (u : gmap string value) (mensaje_decoded : string)
    : gmap string value :=
  match u !! "historial" with
  | Some (VDict historial) =>
      match historial !! mensaje_decoded with
      | Some paso => <["step" := VStr paso]> u
      | None => u
      end
  | _ => u
  end.

Definition usuario_despachado (u : gmap string value) (mensaje_decoded : string)
    (step : value) : gmap string value :=
  if veq (master_de u) "ON" && veq (paso_efectivo u mensaje_decoded step) "start"
  then <["step" := VStr "master"]> (usuario_con_atajo u mensaje_decoded)
  else usuario_con_atajo u mensaje_decoded.

(** The shortcut table of a profile, empty when it has none. *)
Definition historial_de (u : gmap string value) : gmap string string :=
  match u !! "historial" with
  | Some (VDict historial) => historial
  | _ => ∅
  end.

(** [nombre] after [if not (profile_name == "") and (nombre == ""): nombre =
    profile_name]. *)
Definition nombre_de (profile_name : string) (nombre : value) : value :=
  if negb (profile_name =? EmptyString)%string && veq nombre EmptyString
  then VStr profile_name else nombre.

(** The stored profile of the sender, or a new one, which is stored. *)
Definition cargar (sender profile_name : string) : M unit :=
  guardado ← recuperar_usuario sender;
  match guardado with
  | Some u => fijar_usuario u
  | None =>
      fijar_usuario (usuario_nuevo (if (profile_name =? EmptyString)%string
                                    then EmptyString else profile_name));;
      guardar_usuario sender
  end.

(** From the reading of the profile to the end of the turn. *)
Definition despacho (sv : servicios) (sender profile_name mensaje : string)
    : M http_respuesta :=
  step ← leer "step";
  nombre ← leer "nombre";
  rol ← campo_o "rol" (VStr "user");
  master ← campo_o "master" (VStr "OFF");
  developer ← campo_o "developer" (VStr "OFF");
  let nombre := nombre_de profile_name nombre in
  let mensaje_decoded := lower mensaje in
  if (sender =? "YOUR_BOT_PHONE_NUMBER")%string then lanzar (NameError "jsonify")
  else
    step ← atajo mensaje_decoded step;
    step ← (if veq master "ON" && veq step "start"
            then poner "step" (VStr "master");; ret (VStr "master")
            else ret step);
    modo ← leer "modo";
    cuerpo sv sender mensaje_decoded nombre rol developer
           (regla_de master step modo mensaje_decoded);;
    cierre sender.

(** The branch [elif 'body' in event] of [lambda_handler]: one turn of the
    conversation.  ([print] and [time.sleep] are left out; the requests with
    query parameters, which administer the table, are not part of the
    conversation.) *)
Definition lambda_handler (sv : servicios) (ev : evento) : M http_respuesta :=
  let chat_id := ev_chat_id ev in
  let mensaje := ev_text ev in
  let profile_name := ev_first_name ev +:+ " " +:+ ev_last_name ev in
  if negb (no_vacio (Some chat_id)) || negb (no_vacio (Some mensaje)) then
    ret (Respuesta 200 "Mensaje no válido")
  else
    let sender := chat_id in
    let mensaje := obtener_boton ev mensaje in
    cargar sender profile_name;;
    despacho sv sender profile_name mensaje.

(** A turn: the handler run on a table, with the locals as the code
    initialises them. *)
Definition inicio (t : gmap string (gmap string value)) : estado :=
  Estado t [] ∅ None [] [] None None.

Definition ok_200 : http_respuesta := Respuesta 200 "Operación realizada correctamente".

(** An event that the handler does not turn away: it has a sender and a
    text, and the sender is not the bot itself. *)
Definition evento_valido (ev : evento) : Prop :=
  no_vacio (Some (ev_chat_id ev)) = true /\ no_vacio (Some (ev_text ev)) = true /\
  ev_chat_id ev <> "YOUR_BOT_PHONE_NUMBER".

Definition profile_name_de (ev : evento) : string :=
  ev_first_name ev +:+ " " +:+ ev_last_name ev.

(** The normalised text of the event. *)
Definition mensaje_decoded_de (ev : evento) : string :=
  lower (obtener_boton ev (ev_text ev)).

(** What a turn leaves: the answer 200, the actions sent, and in the stored
    profile of the sender the step and the mode. *)
Definition deja (r : res http_respuesta * estado) (sender : string)
    (acciones : list accion) (step modo : string) : Prop :=
  r.1 = Ok ok_200 /\ enviados r.2 = acciones /\
  exists u', tabla r.2 !! sender = Some u' /\
             u' !! "step" = Some (VStr step) /\ u' !! "modo" = Some (VStr modo).

Definition turno (sv : servicios) (ev : evento) (t : gmap string (gmap string value))
    : res http_respuesta * estado :=
  lambda_handler sv ev (inicio t).

(** A field of the profile that a turn leaves stored for the sender. *)
Definition campo_guardado (r : res http_respuesta * estado) (sender k : string)
    : option value :=
  tabla r.2 !! sender ≫= fun u => u !! k.

(** *** Sample collaborators and profiles *)

(** Every service answers. *)
Definition servicios_en_pie : servicios :=
  Servicios (fun _ => JsonId (Some "77")) (fun _ => JsonId (Some "5"))
    (fun _ => JsonId (Some "9")) (fun _ => Pagina "%PDF")
    (fun _ _ => ChatReply (Some "Con gusto.")) (fun _ _ => ChatReply (Some "Amigo."))
    (fun _ => Some ["poliza.pdf"]) (fun _ => ElOtro None).

(** The PDF service answers with an HTTP error; the others answer. *)
Definition servicios_sin_pdf : servicios :=
  Servicios (fun _ => JsonId (Some "77")) (fun _ => JsonId (Some "5"))
    (fun _ => JsonId (Some "9")) (fun _ => PaginaHTTPError)
    (fun _ _ => ChatReply (Some "Con gusto.")) (fun _ _ => ChatReply (Some "Amigo."))
    (fun _ => Some ["poliza.pdf"]) (fun _ => ElOtro None).

(** A user who has answered every question of the quote. *)
Definition perfil_cotizando (step modo : string) : gmap string value :=
  {[ "userID" := VStr "42"; "step" := VStr step; "monto" := VStr EmptyString;
     "nombre" := VStr "Ana Diaz"; "fecha" := VStr "25/12/1990"; "modo" := VStr modo;
     "cotiza" := VStr EmptyString; "poliza" := VStr "Salud";
     "email" := VStr "ana@correo.com"; "sexo" := VStr "f"; "bcuenta" := VInt 0;
     "beneficiario" := VStr "no" ]}.

(** A developer who was made master and has been shown the role menu. *)
Definition perfil_master (step modo : string) : gmap string value :=
  {[ "userID" := VStr "42"; "step" := VStr step; "monto" := VStr EmptyString;
     "nombre" := VStr "Ana Diaz"; "fecha" := VStr EmptyString; "modo" := VStr modo;
     "rol" := VStr "developer"; "developer" := VStr "ON"; "master" := VStr "ON";
     "poliza" := VStr "Salud"; "cotiza" := VStr EmptyString;
     "historial" :=
       VDict {[ "hola" := "start"; "/start" := "start"; "usuario" := "askedMaster";
                "asociado" := "askedMaster"; "master" := "askedMaster";
                "desarrollador" := "askedMaster" ]} ]}.

Definition mensaje_de (texto : string) : evento := Evento "42" texto "Ana" "Diaz" None.

End Handler.
(** ** What a turn keeps: predicates on the state of a turn *)

Module Invariantes.
Import Text Historial Handler.

(** The chat an action is addressed to. *)
Definition chat_de (a : accion) : string :=
  match a with
  | SendDocument chat_id _ _ => chat_id
  | SendButtons chat_id _ _ => chat_id
  | SendMenu chat_id _ _ => chat_id
  | SendText chat_id _ => chat_id
  end.

(** Every item of the table carries its key as [userID], as the items that
    [put_item] writes and [get_item] reads do. *)
Definition coherente (t : gmap string (gmap string value)) : Prop :=
  forall k u, t !! k = Some u -> u !! "userID" = Some (VStr k).

(** The fields of the profile that the rules assign. *)
Definition campos_asignados : list string :=
  ["poliza"; "cotiza"; "step"; "modo"; "nombre"; "fecha"; "email"; "sexo"; "bcuenta";
   "beneficiario"; "parentesco"; "bfecha"; "plan"; "monto"; "monto2"; "monto3";
   "categoria"; "opciones"; "subcategoria"; "companies"; "base_path"; "documents"].

(** The steps that the rules assign. *)
Definition pasos_asignados : list string :=
  ["start"; "master"; "askedWelcome"; "askedAdmin"; "waitForQuestion"; "askedBirthdate";
   "askedMaster"; "askedEmail"; "end"; "additionalHelp"; "askedSex"; "askBenefit";
   "askedParent"; "askedBirthdateParent"; "askedFamily"; "finalizado"; "confirmContinue";
   "sub_category_selection"; "askedTrainer"; "company_selection"; "document_choice"].

(** An assignment [usuario[k] = v] of a rule: [k] is one of the fields
    above, and a step is one of the steps above. *)
Definition asignable (k : string) (v : value) : Prop :=
  (k ∈ campos_asignados) /\
  (k = "step" -> exists paso, (paso ∈ pasos_asignados) /\ v = VStr paso).

(** A profile whose step, and every step of whose shortcut table, is one
    that the rules assign: what the handler and the requests with query
    parameters create. *)
Definition alcanzable (u : gmap string value) : Prop :=
  (exists paso, (paso ∈ pasos_asignados) /\ u !! "step" = Some (VStr paso)) /\
  forall k paso, historial_de u !! k = Some paso -> paso ∈ pasos_asignados.

(** [m] keeps [P], sets [respuesta['text']] before it reads it when [b] is
    off, and raises only what [Q] allows. *)
Definition cumple (P : estado -> Prop) (Q : excepcion -> Prop) (b : bool)
    {A} (m : M A) : Prop :=
  forall s, P s -> (b = true -> respuesta s <> None) ->
    P (m s).2 /\ (respuesta s <> None -> respuesta (m s).2 <> None) /\
    match (m s).1 with
    | Raise e => Q e
    | _ => True
    end.

(** The table holds for [k] nothing, an empty profile, or a profile at an
    assigned step; [m] keeps it so. *)
Definition en_regla (k : string) (t : gmap string (gmap string value)) : Prop :=
  forall u, t !! k = Some u -> u <> ∅ -> alcanzable u.

Definition guarda (k : string) {A} (m : M A) : Prop :=
  forall s, en_regla k (tabla s) -> en_regla k (tabla (m s).2).

End Invariantes.

(** ** The webhook handler: [lambda_handler], the branch for a request with
    query parameters *)

Module Admin.
Import Text Historial Handler.

(** The request, as the branch reads it: the HTTP method of
    [requestContext] and [queryStringParameters]. *)
Record peticion := Peticion { method : string; params : gmap string string }.

(** The body of the answer: [json.dumps(user_data, indent=4)], the
    [hub.challenge] parameter as it came ([None] when absent), or a fixed
    text. *)
Inductive body :=
| BodyJson (user_data : gmap string value)
| BodyChallenge (hub_challenge : option string)
| BodyTexto (t : string).

Record respuesta_http := RespuestaHttp { status : Z; cuerpo_http : body }.

(** [json.dumps(user_data, indent=4)]: a number read from the table is a
    [Decimal], which [json] does not serialise. *)
Definition es_numero (v : value) : bool :=
  match v with
  | VInt _ => true
  | _ => false
  end.

Definition json_dumps (user_data : gmap string value) : M body :=
  if bool_decide (map_Forall (fun _ v => es_numero v = false) user_data)
  then ret (BodyJson user_data)
  else lanzar TypeError.

Definition historial_inicial : gmap string string :=
  {[ "hola" := "start"; "/start" := "start" ]}.

Definition keys_to_delete : list string :=
  ["bcuenta"; "documents"; "companies"; "opciones"; "base_path"].

(** [for key in keys_to_delete: if key in usuario: del usuario[key]] *)
Definition borrar (keys : list string) (usuario : gmap string value) : gmap string value :=
  foldl (fun usuario key => delete key usuario) usuario keys.

(** [user_data = recuperar_usuario(id); if user_data: return {200,
    json.dumps(user_data)}]; [None] when the block falls through. *)
Definition responder (user_id : string) : M (option respuesta_http) :=
  user_data ← recuperar_usuario user_id;
  match user_data with
  | Some user_data =>
      b ← json_dumps user_data;
      ret (Some (RespuestaHttp 200 b))
  | None => ret None
  end.

(** [usuario = recuperar_usuario(id)], the assignments to [usuario], then
    [guardar_usuario(id, usuario)]: assigning into [None] raises
    [TypeError]. *)
Definition modificar (user_id : string)
    (cambios : gmap string value -> gmap string value) : M (option respuesta_http) :=
  usuario ← recuperar_usuario user_id;
  match usuario with
  | Some usuario => guardar user_id (cambios usuario);; responder user_id
  | None => lanzar TypeError
  end.

(** The profile after [adminid] (with [rol = 'admin']) and after [resetid]
    (with [rol = 'user']). *)
Definition restablecido (rol : string) (usuario : gmap string value) : gmap string value :=
  borrar keys_to_delete
    (<["historial" := VDict historial_inicial]>
       (<["rol" := VStr rol]> (<["step" := VStr "start"]> usuario))).

Definition admin_nuevo : gmap string value :=
  <["historial" := VDict historial_inicial]>
    {[ "step" := VStr "start"; "monto" := VStr EmptyString; "nombre" := VStr EmptyString;
       "fecha" := VStr EmptyString; "modo" := VStr "normal"; "cotiza" := VStr EmptyString;
       "rol" := VStr "admin" ]}.

Definition developer_nuevo : gmap string value :=
  <["developer" := VStr "ON"]>
    (<["historial" := VDict historial_inicial]>
       {[ "step" := VStr "start"; "monto" := VStr EmptyString;
          "nombre" := VStr EmptyString; "fecha" := VStr EmptyString;
          "modo" := VStr "normal"; "rol" := VStr "developer" ]}).

(** One [if method == 'GET' and <parameter> is not None:] block. *)
Definition bloque (p : peticion) (parametro : string)
    (cuerpo_bloque : string -> M (option respuesta_http)) : M (option respuesta_http) :=
  match params p !! parametro with
  | Some valor => if (method p =? "GET")%string then cuerpo_bloque valor else ret None
  | None => ret None
  end.

(** A block, and what follows it when it does not return. *)
Definition o_sigue (b : M (option respuesta_http)) (resto : M respuesta_http)
    : M respuesta_http :=
  r ← b;
  match r with
  | Some r => ret r
  | None => resto
  end.

Definition administrar (p : peticion) : M respuesta_http :=
  o_sigue (bloque p "userid" (fun user_id =>
    user_data ← recuperar_usuario user_id;
    match user_data with
    | Some user_data =>
        b ← json_dumps (delete "bcuenta" user_data);
        ret (Some (RespuestaHttp 200 b))
    | None => ret None
    end)) (
  o_sigue (bloque p "adminid" (fun admin_id => modificar admin_id (restablecido "admin"))) (
  o_sigue (bloque p "resetid" (fun reset_id => modificar reset_id (restablecido "user"))) (
  o_sigue (bloque p "setname_id" (fun setnameid =>
    modificar setnameid (fun usuario =>
      <["nombre" := opcional (params p !! "name")]> usuario))) (
  o_sigue (bloque p "add_admin" (fun add_admin =>
    guardar add_admin admin_nuevo;; responder add_admin)) (
  o_sigue (bloque p "add_developer" (fun add_developer =>
    guardar add_developer developer_nuevo;; responder add_developer)) (
  o_sigue (bloque p "master_id" (fun master_id =>
    modificar master_id (fun usuario =>
      <["modo" := VStr "normal"]>
        (<["master" := VStr "ON"]>
           (<["historial" := VDict historial_inicial]> usuario))))) (
  if (method p =? "GET")%string &&
     bool_decide (params p !! "hub.mode" = Some "subscribe") &&
     bool_decide (params p !! "hub.verify_token" = Some "VALOR_TOKEN")
  then ret (RespuestaHttp 200 (BodyChallenge (params p !! "hub.challenge")))
  else ret (RespuestaHttp 403 (BodyTexto "Token inválido o método incorrecto"))))))))).

(** A request run on a table. *)
Definition administra (p : peticion) (t : gmap string (gmap string value))
    : res respuesta_http * estado :=
  administrar p (inicio t).

End Admin.

(** * Properties *)

(** ** Facts about text operations *)

Module TextFacts.
Import Text.

Lemma blank_nil : blank [].
Proof. constructor. Qed.

Lemma blank_app (a b : list ascii) : blank a -> blank b -> blank (a ++ b).
Proof. unfold blank. intros. apply Forall_app; auto. Qed.

Lemma blank_reverse (a : list ascii) : blank a -> blank (reverse a).
Proof. unfold blank. intros H. by apply Forall_reverse. Qed.

Lemma lstrip_split (s : list ascii) : exists l, blank l /\ s = l ++ lstrip s.
Proof.
  induction s as [|c r [l [Hl Hr]]]; simpl.
  - exists []. split; [apply blank_nil | done].
  - destruct (isspace c) eqn:Hc.
    + exists (c :: l). split; [by constructor | by rewrite Hr at 1].
    + exists []. split; [apply blank_nil | done].
Qed.

Lemma rstrip_split (s : list ascii) : exists r, blank r /\ s = rstrip s ++ r.
Proof.
  unfold rstrip. destruct (lstrip_split (reverse s)) as [l [Hl Hs]].
  exists (reverse l). split; [by apply blank_reverse |].
  rewrite <- reverse_app, <- Hs. by rewrite reverse_involutive.
Qed.

Lemma strip_split (s : list ascii) :
  exists l r, blank l /\ blank r /\ s = l ++ strip s ++ r.
Proof.
  destruct (lstrip_split s) as [l [Hl Hs]].
  destruct (rstrip_split (lstrip s)) as [r [Hr Hs']].
  exists l, r. repeat split; try done. unfold strip. by rewrite <- Hs'.
Qed.

Lemma length_strip (s : list ascii) : (length (strip s) <= length s)%nat.
Proof.
  destruct (strip_split s) as (l & r & _ & _ & Hs).
  rewrite Hs at 2. rewrite !length_app. lia.
Qed.

Lemma strip_length_eq (s : list ascii) : length (strip s) = length s -> strip s = s.
Proof.
  intros Hlen. destruct (strip_split s) as (l & r & _ & _ & Hs).
  assert (Hl : length s = (length l + (length (strip s) + length r))%nat).
  { rewrite Hs at 1. by rewrite !length_app. }
  destruct l; [|simpl in Hl; lia]. destruct r; [|simpl in Hl; lia].
  rewrite Hs at 2. simpl. by rewrite app_nil_r.
Qed.





Lemma length_slice_from (i : Z) (s : list ascii) :
  (length (slice_from i s) <= length s)%nat.
Proof. unfold slice_from. rewrite length_drop. lia. Qed.

Lemma slice_from_length_eq (i : Z) (s : list ascii) :
  length (slice_from i s) = length s -> slice_from i s = s.
Proof.
  unfold slice_from. rewrite length_drop.
  generalize (Z.to_nat (slice_bound (Z.of_nat (length s)) i)). intros n H.
  destruct s as [|c r]; [by rewrite drop_nil|].
  simpl in H. by replace n with 0%nat by lia.
Qed.

Lemma slice_from_0 (s : list ascii) : slice_from 0 s = s.
Proof.
  unfold slice_from, slice_bound. simpl.
  by replace (Z.min 0 (Z.of_nat (length s))) with 0 by lia.
Qed.


Lemma rindex_None (c : ascii) (s : list ascii) : rindex c s = None <-> c ∉ s.
Proof.
  induction s as [|x r IH]; simpl.
  - split; [intros _; apply not_elem_of_nil | done].
  - rewrite not_elem_of_cons. destruct (rindex c r) as [j|].
    + split; [done|]. intros [_ Hr]. by apply IH in Hr.
    + destruct (decide (x = c)) as [->|Hne].
      * split; [done | by intros [? _]].
      * split; [intros _; split; [done | by apply IH] | done].
Qed.


End TextFacts.

(** ** The segmenter *)

Module SegmenterFacts.
Import Text Segmenter TextFacts.


(** The next value of [mensaje] is never longer, and as long only when it
    is [mensaje] itself. *)
Lemma resto_length (c : Z) (m : list ascii) :
  (length (strip (slice_from c m)) <= length m)%nat.
Proof.
  pose proof (length_strip (slice_from c m)).
  pose proof (length_slice_from c m). lia.
Qed.

Lemma resto_length_eq (c : Z) (m : list ascii) :
  length (strip (slice_from c m)) = length m -> strip (slice_from c m) = m.
Proof.
  intros H.
  pose proof (length_strip (slice_from c m)).
  pose proof (length_slice_from c m).
  assert (Hs : slice_from c m = m) by (apply slice_from_length_eq; lia).
  rewrite Hs in *. by apply strip_length_eq.
Qed.

Lemma dividir_bucle_mono (fuel fuel' : nat) trozos m max_length r :
  (fuel <= fuel')%nat ->
  dividir_bucle fuel trozos m max_length = Some r ->
  dividir_bucle fuel' trozos m max_length = Some r.
Proof.
  revert fuel' trozos m. induction fuel as [|fuel IH]; intros fuel' trozos m Hle; simpl.
  - destruct (Z.of_nat (length m) >? max_length) eqn:E; [done|].
    destruct fuel'; simpl; by rewrite E.
  - destruct (Z.of_nat (length m) >? max_length) eqn:E.
    + destruct fuel' as [|fuel']; [lia|]. simpl. rewrite E. apply IH. lia.
    + destruct fuel'; simpl; by rewrite E.
Qed.

(** A round that leaves [mensaje] as it was is repeated for ever. *)
Lemma dividir_bucle_stuck (m : list ascii) (max_length : Z) :
  Z.of_nat (length m) > max_length ->
  strip (slice_from (corte_de m max_length) m) = m ->
  forall fuel trozos, dividir_bucle fuel trozos m max_length = None.
Proof.
  intros Hlen Hsame fuel. induction fuel as [|fuel IH]; intros trozos; simpl.
  - destruct (Z.of_nat (length m) >? max_length) eqn:E; [done | lia].
  - destruct (Z.of_nat (length m) >? max_length) eqn:E; [|lia].
    rewrite Hsame. apply IH.
Qed.

Lemma dividir_bucle_None_bounded (n : nat) : forall m max_length trozos,
  (length m <= n)%nat ->
  dividir_bucle (S n) trozos m max_length = None ->
  forall fuel trozos', dividir_bucle fuel trozos' m max_length = None.
Proof.
  induction n as [|n IH]; intros m max_length trozos Hn Hnone fuel trozos'.
  - simpl in Hnone. destruct (Z.of_nat (length m) >? max_length) eqn:E; [|done].
    apply dividir_bucle_stuck; [lia|].
    apply resto_length_eq.
    pose proof (resto_length (corte_de m max_length) m). lia.
  - cbn [dividir_bucle] in Hnone.
    destruct (Z.of_nat (length m) >? max_length) eqn:E; [|done].
    destruct (decide (length (strip (slice_from (corte_de m max_length) m)) = length m))
      as [Heq|Hne].
    + apply dividir_bucle_stuck; [lia | by apply resto_length_eq].
    + pose proof (resto_length (corte_de m max_length) m).
      destruct fuel as [|fuel]; simpl; rewrite E; [done|].
      eapply IH; [|exact Hnone]. lia.
Qed.

(** [dividir_mensaje] answers [None] only for a loop that no amount of fuel
    ends, and otherwise what any sufficient fuel gives. *)
Lemma dividir_bucle_None_forever (m : list ascii) (max_length : Z) :
  dividir_mensaje m max_length = None ->
  forall fuel, dividir_mensaje_fuel fuel m max_length = None.
Proof.
  unfold dividir_mensaje, dividir_mensaje_fuel. intros H fuel.
  eapply dividir_bucle_None_bounded; [|exact H]. lia.
Qed.

Lemma dividir_mensaje_fuel_Some (fuel : nat) (m : list ascii) (max_length : Z) r :
  dividir_mensaje_fuel fuel m max_length = Some r ->
  dividir_mensaje m max_length = Some r.
Proof.
  intros H. destruct (dividir_mensaje m max_length) as [r'|] eqn:E.
  - unfold dividir_mensaje, dividir_mensaje_fuel in *.
    destruct (Nat.le_ge_cases fuel (S (length m))).
    + by rewrite (dividir_bucle_mono _ _ _ _ _ _ H0 H) in E.
    + by rewrite (dividir_bucle_mono _ _ _ _ _ _ H0 E) in H.
  - by rewrite (dividir_bucle_None_forever _ _ E fuel) in H.
Qed.













(** Without a blank or a full stop in the window the cut is placed at 0
    and the round changes nothing. *)
Lemma corte_de_sin_corte (m : list ascii) (max_length : Z) :
  " "%char ∉ slice_to max_length m -> "."%char ∉ slice_to max_length m ->
  corte_de m max_length = 0.
Proof.
  intros Hsp Hdot. apply rindex_None in Hsp, Hdot.
  unfold corte_de, rfind. by rewrite Hsp, Hdot.
Qed.

End SegmenterFacts.

Module SegmenterClaims.
Import Text Segmenter TextFacts SegmenterFacts.

(** C2 (the code departs from it).  The segmenter is not total: when the
    text is longer than [max_length] and its first [max_length] characters
    hold neither a blank nor a full stop, [rfind('.') + 1] is 0, the test
    [corte == -1] that guards the hard cut can no longer hold, the round
    appends an empty chunk and leaves the text as it was; on a text without
    surrounding white space the loop then never ends, whatever the fuel. *)
Theorem dividir_mensaje_no_hard_cut (mensaje : list ascii) (max_length : Z) :
  1 <= max_length ->
  Z.of_nat (length mensaje) > max_length ->
  " "%char ∉ slice_to max_length mensaje ->
  "."%char ∉ slice_to max_length mensaje ->
  strip mensaje = mensaje ->
  corte_de mensaje max_length = 0 /\
  forall fuel, dividir_mensaje_fuel fuel mensaje max_length = None.
Proof.
  intros Hmax Hlen Hsp Hdot Hstrip.
  pose proof (corte_de_sin_corte mensaje max_length Hsp Hdot) as Hc.
  split; [done|]. intros fuel. apply dividir_bucle_stuck; [done|].
  by rewrite Hc, slice_from_0.
Qed.

Lemma dividir_mensaje_no_hard_cut_aaaa :
  let mensaje := list_ascii_of_string "aaaa" in
  (1 <= 2 /\ Z.of_nat (length mensaje) > 2 /\
   (" "%char ∉ slice_to 2 mensaje) /\ ("."%char ∉ slice_to 2 mensaje) /\
   strip mensaje = mensaje) /\
  corte_de mensaje 2 = 0 /\
  forall fuel, dividir_mensaje_fuel fuel mensaje 2 = None.
Proof.
  assert (H1 : 1 <= 2) by lia.
  assert (H2 : Z.of_nat (length (list_ascii_of_string "aaaa")) > 2) by (simpl; lia).
  assert (H3 : " "%char ∉ slice_to 2 (list_ascii_of_string "aaaa"))
    by (apply rindex_None; reflexivity).
  assert (H4 : "."%char ∉ slice_to 2 (list_ascii_of_string "aaaa"))
    by (apply rindex_None; reflexivity).
  assert (H5 : strip (list_ascii_of_string "aaaa") = list_ascii_of_string "aaaa")
    by reflexivity.
  exact (conj (conj H1 (conj H2 (conj H3 (conj H4 H5))))
           (dividir_mensaje_no_hard_cut (list_ascii_of_string "aaaa") 2 H1 H2 H3 H4 H5)).
Defined.




End SegmenterClaims.

(** ** Dates *)

Module FechaFacts.
Import Text Fecha.

Lemma digito_cases (P : Z -> Prop) :
  P 0 -> P 1 -> P 2 -> P 3 -> P 4 -> P 5 -> P 6 -> P 7 -> P 8 -> P 9 ->
  forall v, 0 <= v <= 9 -> P v.
Proof.
  intros ????? ????? v Hv.
  assert (v = 0 \/ v = 1 \/ v = 2 \/ v = 3 \/ v = 4 \/ v = 5 \/ v = 6 \/ v = 7 \/ v = 8 \/ v = 9)
    as Hc by lia.
  destruct Hc as [->|[->|[->|[->|[->|[->|[->|[->|[->| ->]]]]]]]]]; assumption.
Qed.

Lemma es_digito_digito (c : ascii) :
  es_digito c = true -> exists v, 0 <= v <= 9 /\ c = digito v.
Proof.
  intros H. exists (Z.of_nat (nat_of_ascii c) - 48).
  destruct c as [[] [] [] [] [] [] [] []]; try discriminate H;
    (split; [cbv; split; congruence | reflexivity]).
Qed.





Lemma es_digito_de_digito (v : Z) : 0 <= v <= 9 -> es_digito (digito v) = true.
Proof. revert v. apply digito_cases; reflexivity. Qed.











Lemma strptime_posible (sep : ascii) (s : string) (f : date) :
  strptime_dmy sep s = Some f -> posible f = true.
Proof.
  unfold strptime_dmy. repeat case_match; try done. intros [= <-]. done.
Qed.



Lemma validar_fecha_sql (s : string) (f : date) :
  validar_fecha s = Some f -> posible f = true /\ fecha_sql s = Some (strftime_Ymd f).
Proof.
  unfold validar_fecha, fecha_sql. cbn [fecha_sql_desde].
  destruct (strptime_dmy "-" s) as [f1|] eqn:E1.
  - intros [= <-]. eauto using strptime_posible.
  - destruct (strptime_dmy "/" s) as [f2|] eqn:E2; [|done].
    intros [= <-]. eauto using strptime_posible.
Qed.

Lemma validar_fecha_None_sql (s : string) : validar_fecha s = None <-> fecha_sql s = None.
Proof.
  unfold validar_fecha, fecha_sql. cbn [fecha_sql_desde].
  destruct (strptime_dmy "-" s); [done|]. by destruct (strptime_dmy "/" s).
Qed.

Lemma elem_of_uno p s m r : (m, r) ∈ uno p s -> exists a, m = [a] /\ s = a :: r.
Proof.
  unfold uno. destruct s as [|a s]; [by intros ?%elem_of_nil|].
  destruct (p a); [|by intros ?%elem_of_nil].
  intros [= -> ->]%list_elem_of_singleton. eauto.
Qed.

Lemma elem_of_dos p q s m r : (m, r) ∈ dos p q s -> exists a b, m = [a; b] /\ s = a :: b :: r.
Proof.
  unfold dos. destruct s as [|a [|b s]]; try by intros ?%elem_of_nil.
  destruct (p a && q b); [|by intros ?%elem_of_nil].
  intros [= -> ->]%list_elem_of_singleton. eauto.
Qed.

Lemma elem_of_re_d s m r :
  (m, r) ∈ re_d s -> s = m ++ r /\ (1 <= length m <= 2)%nat.
Proof.
  unfold re_d. rewrite !elem_of_app.
  intros [H|[H|[H|[H|H]]]];
    first [ apply elem_of_dos in H as (a & b & -> & ->)
          | apply elem_of_uno in H as (a & -> & ->) ]; simpl; split; (done || lia).
Qed.








End FechaFacts.

(** ** History shortcuts *)

Module HistorialFacts.
Import Text Historial.

Lemma lower_char_idem (c : ascii) : lower_char (lower_char c) = lower_char c.
Proof. by destruct c as [[] [] [] [] [] [] [] []]. Qed.

Lemma lower_idem (s : string) : lower (lower s) = lower s.
Proof. induction s as [|c s IH]; simpl; [done|]. by rewrite lower_char_idem, IH. Qed.

Section registro.
Context (f g : string -> string).

Local Abbreviation registrar h ops :=
  (foldl (fun (h' : gmap string string) (o : string) => <[f o := g o]> h') h ops).

Lemma registrar_conserva ops : forall h k,
  is_Some (h !! k) -> is_Some (registrar h ops !! k).
Proof.
  induction ops as [|o ops IH]; intros h k Hk; simpl; [done|].
  apply IH. destruct (decide (f o = k)) as [<-|Hne].
  - rewrite lookup_insert_eq. eauto.
  - by rewrite lookup_insert_ne.
Qed.



Lemma registrar_valor ops p : forall h o,
  (forall o', o' ∈ ops -> g o' = p) -> o ∈ ops -> registrar h ops !! f o = Some p.
Proof.
  induction ops as [|o' ops IH]; intros h o Hg Ho; [by apply elem_of_nil in Ho|].
  simpl. destruct (decide (o ∈ ops)) as [Hin|Hnin].
  - apply IH; [|done]. intros o'' Ho''. apply Hg, elem_of_cons. by right.
  - apply elem_of_cons in Ho as [->|Ho]; [|done].
    clear IH. assert (Hh : <[f o' := g o']> h !! f o' = Some p).
    { rewrite lookup_insert_eq. f_equal. apply Hg, elem_of_cons. by left. }
    assert (Hg' : forall o'', o'' ∈ ops -> g o'' = p).
    { intros o'' Ho''. apply Hg, elem_of_cons. by right. }
    revert Hh Hg'. generalize (<[f o' := g o']> h). clear Hg Hnin.
    induction ops as [|o'' ops IH]; intros h' Hh Hg'; simpl; [done|].
    apply IH.
    + destruct (decide (f o'' = f o')) as [Heq|Hne].
      * rewrite Heq, lookup_insert_eq. f_equal. apply Hg', elem_of_cons. by left.
      * by rewrite lookup_insert_ne.
    + intros o3 Ho3. apply Hg', elem_of_cons. by right.
Qed.

Lemma registrar_ajeno ops : forall h k,
  (forall o, o ∈ ops -> f o <> k) -> registrar h ops !! k = h !! k.
Proof.
  induction ops as [|o ops IH]; intros h k Hk; simpl; [done|].
  rewrite IH.
  - apply lookup_insert_ne, Hk, elem_of_cons. by left.
  - intros o' Ho'. apply Hk, elem_of_cons. by right.
Qed.

End registro.

Lemma paso_de_unico (ops : list string) (p : string) (o : string) :
  o ∈ ops -> paso_de ops (PasoUnico p) !! lower o = Some p.
Proof. intros Ho. unfold paso_de. by apply (registrar_valor lower (fun _ => p)). Qed.

Lemma agregar_opciones_registrar (h : gmap string string) ops pd :
  agregar_opciones h ops pd
  = foldl (fun h o => <[lower o := default "start" (paso_de ops pd !! lower o)]> h) h ops.
Proof. reflexivity. Qed.


End HistorialFacts.

(** ** The handler *)

Module HandlerFacts.
Import Text Fecha Historial Handler.

Lemma bind_Ok {A B} (m : M A) (f : A -> M B) s a s' :
  m s = (Ok a, s') -> (m ≫= f) s = f a s'.
Proof. intros H. unfold mbind, M_bind. by rewrite H. Qed.

Lemma bind_Raise {A B} (m : M A) (f : A -> M B) s e s' :
  m s = (Raise e, s') -> (m ≫= f) s = (Raise e, s').
Proof. intros H. unfold mbind, M_bind. by rewrite H. Qed.

Lemma bind_asoc {A B C} (m : M A) (f : A -> M B) (g : B -> M C) s :
  ((m ≫= f) ≫= g) s = (m ≫= fun x => f x ≫= g) s.
Proof. unfold mbind, M_bind. by destruct (m s) as [[a|e|] s']. Qed.

Lemma leer_Some k v s : usuario s !! k = Some v -> leer k s = (Ok v, s).
Proof. intros H. unfold leer. by rewrite H. Qed.

Lemma leer_None k s : usuario s !! k = None -> leer k s = (Raise (KeyError k), s).
Proof. intros H. unfold leer. by rewrite H. Qed.

Lemma atajo_eq m step s :
  bien_tipado (usuario s) ->
  atajo m step s = (Ok (paso_efectivo (usuario s) m step),
                    con_usuario (usuario_con_atajo (usuario s) m) s).
Proof.
  intros [H|[h H]]; unfold atajo, paso_efectivo, usuario_con_atajo.
  - erewrite bind_Ok by reflexivity. rewrite H. by destruct s.
  - erewrite bind_Ok by reflexivity. rewrite H.
    destruct (h !! m); [reflexivity | by destruct s].
Qed.

Lemma usuario_con_atajo_ne u m k : k <> "step" -> usuario_con_atajo u m !! k = u !! k.
Proof.
  intros Hk. unfold usuario_con_atajo. repeat case_match; try done.
  by rewrite lookup_insert_ne.
Qed.

Lemma usuario_despachado_ne u m step k :
  k <> "step" -> usuario_despachado u m step !! k = u !! k.
Proof.
  intros Hk. unfold usuario_despachado. case_match.
  - rewrite lookup_insert_ne by done. by apply usuario_con_atajo_ne.
  - by apply usuario_con_atajo_ne.
Qed.

Lemma usuario_con_atajo_step u m step :
  bien_tipado u -> u !! "step" = Some step ->
  usuario_con_atajo u m !! "step" = Some (paso_efectivo u m step).
Proof.
  intros _ Hs. unfold usuario_con_atajo, paso_efectivo. repeat case_match; try done.
  by rewrite lookup_insert_eq.
Qed.

Lemma usuario_despachado_step u m step :
  bien_tipado u -> u !! "step" = Some step ->
  usuario_despachado u m step !! "step" = Some (paso_despachado u m step).
Proof.
  intros Hb Hs. unfold usuario_despachado, paso_despachado. case_match.
  - by rewrite lookup_insert_eq.
  - by apply usuario_con_atajo_step.
Qed.

Lemma usuario_despachado_no_vacio u m step :
  u <> ∅ -> usuario_despachado u m step <> ∅.
Proof.
  intros Hu. unfold usuario_despachado, usuario_con_atajo.
  repeat case_match; try done; apply insert_non_empty.
Qed.

Lemma despacho_eq sv sender pn mensaje s step nombre modo :
  sender <> "YOUR_BOT_PHONE_NUMBER" ->
  usuario s !! "step" = Some step -> usuario s !! "nombre" = Some nombre ->
  usuario s !! "modo" = Some modo -> bien_tipado (usuario s) ->
  despacho sv sender pn mensaje s
  = (cuerpo sv sender (lower mensaje) (nombre_de pn nombre)
       (default (VStr "user") (usuario s !! "rol"))
       (default (VStr "OFF") (usuario s !! "developer"))
       (regla_de (master_de (usuario s))
          (paso_despachado (usuario s) (lower mensaje) step) modo (lower mensaje))
     ≫= fun _ => cierre sender)
    (con_usuario (usuario_despachado (usuario s) (lower mensaje) step) s).
Proof.
  intros Hbot Hstep Hnombre Hmodo Hb. unfold despacho.
  erewrite bind_Ok by (by apply leer_Some).
  erewrite bind_Ok by (by apply leer_Some).
  erewrite bind_Ok by reflexivity.
  erewrite bind_Ok by reflexivity.
  erewrite bind_Ok by reflexivity.
  cbv zeta.
  replace (sender =? "YOUR_BOT_PHONE_NUMBER")%string with false
    by (symmetry; by apply String.eqb_neq).
  erewrite bind_Ok by (by apply atajo_eq).
  fold (master_de (usuario s)).
  unfold paso_despachado, usuario_despachado.
  destruct (veq (master_de (usuario s)) "ON" &&
            veq (paso_efectivo (usuario s) (lower mensaje) step) "start") eqn:E.
  - erewrite bind_Ok by reflexivity.
    erewrite bind_Ok.
    2:{ apply leer_Some. destruct s; cbn. rewrite lookup_insert_ne by done.
        rewrite usuario_con_atajo_ne by done. exact Hmodo. }
    by destruct s.
  - erewrite bind_Ok by reflexivity.
    erewrite bind_Ok.
    2:{ apply leer_Some. destruct s; cbn.
        rewrite usuario_con_atajo_ne by done. exact Hmodo. }
    by destruct s.
Qed.

Lemma cargar_existente sender pn t u :
  t !! sender = Some u -> u <> ∅ ->
  cargar sender pn (inicio t) = (Ok tt, con_usuario u (inicio t)).
Proof.
  intros Ht Hu. unfold cargar.
  erewrite bind_Ok.
  2:{ unfold recuperar_usuario. cbn [tabla inicio]. rewrite Ht.
      by rewrite decide_False by done. }
  reflexivity.
Qed.

Lemma cargar_nuevo sender pn t :
  t !! sender = None -> pn <> EmptyString ->
  cargar sender pn (inicio t)
  = (Ok tt, Estado (<[sender := usuario_nuevo pn ∪ {["userID" := VStr sender]}]> t) []
              (usuario_nuevo pn) None [] [] None None).
Proof.
  intros Ht Hpn. unfold cargar.
  erewrite bind_Ok.
  2:{ unfold recuperar_usuario. cbn [tabla inicio]. by rewrite Ht. }
  replace (pn =? EmptyString)%string with false by (symmetry; by apply String.eqb_neq).
  reflexivity.
Qed.

Lemma turno_valido sv ev t :
  evento_valido ev ->
  turno sv ev t
  = (cargar (ev_chat_id ev) (profile_name_de ev) ≫= fun _ =>
     despacho sv (ev_chat_id ev) (profile_name_de ev) (obtener_boton ev (ev_text ev)))
    (inicio t).
Proof.
  intros (H1 & H2 & _). unfold turno, lambda_handler. cbv zeta. by rewrite H1, H2.
Qed.

Lemma cierre_texto sender s texto :
  respuesta s = Some texto -> no_vacio (Some texto) = true -> usuario s <> ∅ ->
  cierre sender s
  = (Ok ok_200,
     con_tabla (<[sender := usuario s ∪ {["userID" := VStr sender]}]> (tabla s))
       (con_enviados
          (enviados s ++ [enviar_mensaje_telegram sender texto (botones s) (url_pdf s)
                            (pdf_file s) (opciones s)]) s)).
Proof.
  intros Hr Ht Hu. unfold cierre. destruct s; cbn in Hr, Hu; subst.
  erewrite bind_Ok.
  2:{ cbv beta. cbn [respuesta]. rewrite Ht. reflexivity. }
  erewrite bind_Ok.
  2:{ cbv beta. cbn [usuario con_enviados]. rewrite decide_False by done. reflexivity. }
  reflexivity.
Qed.


Ltac expone :=
  cbn [tabla enviados usuario respuesta botones opciones url_pdf pdf_file
       con_tabla con_enviados con_usuario con_respuesta con_botones con_opciones
       con_url_pdf con_pdf_file].

Ltac busca :=
  expone;
  repeat (rewrite lookup_insert_eq || rewrite lookup_insert_ne by done);
  rewrite ?usuario_despachado_ne by done;
  first [eassumption | reflexivity].

Lemma paso_Ok {A B} (m : M A) (f : A -> M B) s a s' R :
  m s = (Ok a, s') -> f a s' = R -> (m ≫= f) s = R.
Proof. intros H <-. by apply bind_Ok. Qed.

Lemma paso_Raise {A B} (m : M A) (f : A -> M B) s e s' R :
  m s = (Raise e, s') -> (Raise e, s') = R -> (m ≫= f) s = R.
Proof. intros H <-. by apply bind_Raise. Qed.

Lemma paso_asoc {A B C} (m : M A) (f : A -> M B) (g : B -> M C) s R :
  (m ≫= fun x => f x ≫= g) s = R -> ((m ≫= f) ≫= g) s = R.
Proof. intros <-. apply bind_asoc. Qed.

Ltac da_ tac :=
  first [ eapply paso_Ok; [tac|]
        | lazymatch goal with
          | |- (mbind _ (mbind _ _)) _ = _ => eapply paso_asoc; da_ tac
          end ].
Ltac da tac := da_ tac; cbv beta; expone.
Ltac sigue_ :=
  lazymatch goal with
  | |- (mbind _ (mbind _ _)) _ = _ => eapply paso_asoc; sigue_
  | |- (mbind _ _) _ = _ => eapply paso_Ok; [reflexivity|]
  end.
Ltac sigue := sigue_; cbv beta; expone.
Ltac entera := eapply paso_Ok; [reflexivity|]; cbv beta; expone.
Ltac mira := da ltac:(apply leer_Some; busca).

Lemma turno_existente sv ev t u step nombre modo :
  evento_valido ev -> t !! ev_chat_id ev = Some u -> u <> ∅ ->
  u !! "step" = Some step -> u !! "nombre" = Some nombre -> u !! "modo" = Some modo ->
  bien_tipado u ->
  turno sv ev t
  = (cuerpo sv (ev_chat_id ev) (mensaje_decoded_de ev)
       (nombre_de (profile_name_de ev) nombre)
       (default (VStr "user") (u !! "rol")) (default (VStr "OFF") (u !! "developer"))
       (regla_de (master_de u) (paso_despachado u (mensaje_decoded_de ev) step) modo
          (mensaje_decoded_de ev))
     ≫= fun _ => cierre (ev_chat_id ev))
    (Estado t [] (usuario_despachado u (mensaje_decoded_de ev) step) None [] [] None None).
Proof.
  intros Hev Ht Hu Hstep Hnombre Hmodo Hb.
  rewrite turno_valido by done.
  erewrite bind_Ok by (by apply cargar_existente).
  destruct Hev as (_ & _ & Hbot).
  by erewrite despacho_eq.
Qed.

Ltac concluye :=
  repeat split; eexists; (split; [apply lookup_insert_eq|]);
  repeat split; apply lookup_union_Some_l; busca.


(** C10 (as amended).  Whenever the dispatch hands the turn to the rule of
    [confirmContinue], the text [cotiza] ends the turn at step [start], mode
    [normal], and every other text, [si] included, ends it at step
    [finalizado], mode [normal], with the farewell as the only action. *)
Theorem confirmContinue_cierra sv ev t u step nombre modo :
  evento_valido ev -> t !! ev_chat_id ev = Some u -> u <> ∅ ->
  u !! "step" = Some step -> u !! "nombre" = Some nombre -> u !! "modo" = Some modo ->
  bien_tipado u ->
  regla_de (master_de u) (paso_despachado u (mensaje_decoded_de ev) step) modo
    (mensaje_decoded_de ev) = RConfirmContinue ->
  if (mensaje_decoded_de ev =? "cotiza")%string
  then deja (turno sv ev t) (ev_chat_id ev)
         [SendText (ev_chat_id ev) "¡Seguro! Podemos volver a cotizar."] "start" "normal"
  else deja (turno sv ev t) (ev_chat_id ev)
         [SendText (ev_chat_id ev) despedida] "finalizado" "normal".
Proof.
  intros Hev Ht Hu Hstep Hnombre Hmodo Hb Hr.
  destruct (mensaje_decoded_de ev =? "cotiza")%string eqn:Ec;
    [|destruct (mensaje_decoded_de ev =? "si")%string eqn:Es].
  - eassert (E : turno sv ev t = _).
    { erewrite turno_existente by done. rewrite Hr. cbn [cuerpo].
      unfold regla_confirmContinue. rewrite Ec.
      apply String.eqb_eq in Ec. rewrite Ec.
      change ("cotiza" =? "si")%string with false. cbv iota.
      entera. by apply cierre_texto; [| |apply insert_non_empty]. }
    rewrite E. unfold deja. cbn [fst snd]. expone. concluye.
  - eassert (E : turno sv ev t = _).
    { erewrite turno_existente by done. rewrite Hr. cbn [cuerpo].
      unfold regla_confirmContinue. rewrite Ec, Es.
      entera. by apply cierre_texto; [| |apply insert_non_empty]. }
    rewrite E. unfold deja. cbn [fst snd]. expone. concluye.
  - eassert (E : turno sv ev t = _).
    { erewrite turno_existente by done. rewrite Hr. cbn [cuerpo].
      unfold regla_confirmContinue. rewrite Ec, Es.
      entera. by apply cierre_texto; [| |apply insert_non_empty]. }
    rewrite E. unfold deja. cbn [fst snd]. expone. concluye.
Qed.






(** C7 (the code departs from it).  At [askedMaster] the keyword [usuario]
    sends the welcome and the request for the name and sets the step to
    [askedWelcome], but the role and the mode of the profile stay what they
    were: the statements that should set them are comparisons. *)
Theorem askedMaster_usuario sv ev t u step nombre modo rol :
  evento_valido ev -> t !! ev_chat_id ev = Some u -> u <> ∅ ->
  u !! "step" = Some step -> u !! "nombre" = Some nombre -> u !! "modo" = Some modo ->
  u !! "rol" = Some rol -> bien_tipado u ->
  regla_de (master_de u) (paso_despachado u (mensaje_decoded_de ev) step) modo
    (mensaje_decoded_de ev) = RAskedMaster ->
  mensaje_decoded_de ev = "usuario" ->
  (turno sv ev t).1 = Ok ok_200 /\
  enviados (turno sv ev t).2
    = [SendText (ev_chat_id ev) saludo; SendText (ev_chat_id ev) pide_nombre] /\
  exists u', tabla (turno sv ev t).2 !! ev_chat_id ev = Some u' /\
    u' !! "step" = Some (VStr "askedWelcome") /\
    u' !! "rol" = Some rol /\ u' !! "modo" = Some modo.
Proof.
  intros Hev Ht Hu Hstep Hnombre Hmodo Hrol Hb Hr Hm.
  eassert (E : turno sv ev t = _).
  { erewrite turno_existente by done. rewrite Hr, Hm. cbn [cuerpo].
    unfold regla_askedMaster. cbv zeta beta.
    change ("usuario" =? "usuario")%string with true.
    change ("usuario" =? "asociado")%string with false.
    change ("usuario" =? "desarrollador")%string with false.
    change ("usuario" =? "master")%string with false.
    cbn [andb]. cbv iota.
    do 3 sigue. do 2 mira. do 4 sigue.
    by apply cierre_texto; [| |apply insert_non_empty]. }
  rewrite E. cbn [fst snd]. expone. concluye.
Qed.

Lemma profile_name_no_vacio (first last : string) :
  (first +:+ " " +:+ last =? EmptyString)%string = false.
Proof. apply String.eqb_neq. by destruct first. Qed.

(** C5 (the code departs from it).  For a sender without a stored profile,
    whatever the first and last name of the event and even when both are
    empty, [Hola] is answered by the branch of the named user: the profile
    ends at step [askedBirthdate], and the two actions are the greeting with
    the name and the request for the birth date.  The display name is
    [first_name + " " + last_name], which is never empty, so the branch of
    the unnamed user is not taken. *)
Theorem hola_de_desconocido sv chat first last t :
  evento_valido (Evento chat "Hola" first last None) -> t !! chat = None ->
  deja (turno sv (Evento chat "Hola" first last None) t) chat
    [SendText chat
       ("Hola *" +:+ (first +:+ " " +:+ last) +:+
        "*, espero te encuentres bien. Soy *TUBOT*, ejecutivo virtual de *TUEMPRESA*. Es un gusto para mí atenderte para ofrecerte diferentes opciones de seguros de salud.");
     SendText chat pide_fecha]
    "askedBirthdate" "normal".
Proof.
  intros Hev Ht. pose proof (profile_name_no_vacio first last) as Hpn.
  eassert (E : turno sv _ t = _).
  { rewrite turno_valido by done.
    cbn [ev_chat_id ev_text obtener_boton ev_callback_data].
    unfold profile_name_de. cbn [ev_first_name ev_last_name].
    eapply paso_Ok; [apply cargar_nuevo; [done | by apply String.eqb_neq]|].
    destruct Hev as (_ & _ & Hbot). cbn [ev_chat_id] in Hbot.
    rewrite (despacho_eq _ _ _ _ _ (VStr "start") (VStr (first +:+ " " +:+ last))
               (VStr "normal"))
      by first [done | by left].
    expone.
    set (pn := first +:+ " " +:+ last) in *.
    change (usuario_nuevo pn !! "rol") with (@None value).
    change (usuario_nuevo pn !! "developer") with (@None value).
    change (master_de (usuario_nuevo pn)) with (VStr "OFF").
    change (paso_despachado (usuario_nuevo pn) (lower "Hola") (VStr "start"))
      with (VStr "start").
    change (usuario_despachado (usuario_nuevo pn) (lower "Hola") (VStr "start"))
      with (usuario_nuevo pn).
    change (regla_de (VStr "OFF") (VStr "start") (VStr "normal") (lower "Hola"))
      with RStart.
    assert (Hv : veq (VStr pn) EmptyString = false) by exact Hpn.
    assert (Hn : nombre_de pn (VStr pn) = VStr pn)
      by (unfold nombre_de; by rewrite Hv, Hpn).
    cbn [cuerpo default]. rewrite Hn. unfold regla_start. rewrite Hv.
    change (veq (VStr "user") "admin") with false.
    change (veq (VStr "user") "developer") with false. cbv iota.
    entera. by apply cierre_texto; [| |apply insert_non_empty]. }
  rewrite E. unfold deja. cbn [fst snd]. expone.
  repeat split. eexists. split; [apply lookup_insert_eq|].
  split; apply lookup_union_Some_l; by simplify_map_eq.
Qed.

(** C1 (the code departs from it).  At [askedFamily], when the PDF service
    answers with an HTTP error, [generar_pdf] raises it again and nothing in
    the handler catches it: the turn ends with [HTTPError], the only action
    sent is the first status message (no apology), and the profile stored
    before the quote is left at [waitForQuestion] in mode [chatgpt]. *)
Theorem askedFamily_pdf_caido sv ev t u step nombre modo fecha email sexo :
  evento_valido ev -> t !! ev_chat_id ev = Some u -> u <> ∅ ->
  u !! "step" = Some step -> u !! "nombre" = Some nombre -> u !! "modo" = Some modo ->
  u !! "fecha" = Some (VStr fecha) -> u !! "email" = Some email ->
  u !! "sexo" = Some sexo -> bien_tipado u ->
  regla_de (master_de u) (paso_despachado u (mensaje_decoded_de ev) step) modo
    (mensaje_decoded_de ev) = RAskedFamily ->
  (forall url, sv_pagina sv url = PaginaHTTPError) ->
  (turno sv ev t).1 = Raise HTTPError /\
  enviados (turno sv ev t).2 = [SendText (ev_chat_id ev) perfecto] /\
  exists u', tabla (turno sv ev t).2 !! ev_chat_id ev = Some u' /\
    u' !! "step" = Some (VStr "waitForQuestion") /\ u' !! "modo" = Some (VStr "chatgpt").
Proof.
  intros Hev Ht Hu Hstep Hnombre Hmodo Hfecha Hemail Hsexo Hb Hr Hpdf.
  eassert (E : turno sv ev t = _).
  { erewrite turno_existente by done. rewrite Hr. cbn [cuerpo].
    unfold regla_askedFamily.
    do 3 sigue. mira. do 6 sigue.
    unfold datos_cotizacion, fecha_sql_de.
    mira. sigue. do 6 mira. sigue. cbv zeta.
    eapply paso_asoc. eapply paso_Raise.
    { unfold generar_pdf, obtener_contenido_pagina. rewrite Hpdf. reflexivity. }
    reflexivity. }
  rewrite E. cbn [fst snd]. expone. concluye.
Qed.

(** *** The claims at concrete turns *)

Ltac no_vacio_mapa :=
  let H := fresh in
  intros H; apply (f_equal (fun m : gmap string value => m !! "step")) in H;
  vm_compute in H; discriminate H.

Ltac evento_ok := split; [reflexivity | split; [reflexivity | discriminate]].



Lemma confirmContinue_cierra_si :
  let ev := mensaje_de "Si" in
  let u := perfil_cotizando "confirmContinue" "chatgpt" in
  let t : gmap string (gmap string value) := {["42" := u]} in
  (evento_valido ev /\ t !! ev_chat_id ev = Some u /\ u <> ∅ /\
   u !! "step" = Some (VStr "confirmContinue") /\ u !! "nombre" = Some (VStr "Ana Diaz") /\
   u !! "modo" = Some (VStr "chatgpt") /\ bien_tipado u /\
   regla_de (master_de u)
     (paso_despachado u (mensaje_decoded_de ev) (VStr "confirmContinue"))
     (VStr "chatgpt") (mensaje_decoded_de ev) = RConfirmContinue) /\
  deja (turno servicios_en_pie ev t) "42" [SendText "42" despedida] "finalizado" "normal".
Proof.
  intros ev u t.
  assert (H1 : evento_valido ev) by evento_ok.
  assert (H2 : t !! ev_chat_id ev = Some u) by reflexivity.
  assert (H3 : u <> ∅) by no_vacio_mapa.
  assert (H4 : u !! "step" = Some (VStr "confirmContinue")) by reflexivity.
  assert (H5 : u !! "nombre" = Some (VStr "Ana Diaz")) by reflexivity.
  assert (H6 : u !! "modo" = Some (VStr "chatgpt")) by reflexivity.
  assert (H7 : bien_tipado u) by (left; reflexivity).
  assert (H8 : regla_de (master_de u)
                 (paso_despachado u (mensaje_decoded_de ev) (VStr "confirmContinue"))
                 (VStr "chatgpt") (mensaje_decoded_de ev) = RConfirmContinue) by reflexivity.
  exact (conj (conj H1 (conj H2 (conj H3 (conj H4 (conj H5 (conj H6 (conj H7 H8)))))))
           (confirmContinue_cierra servicios_en_pie ev t u _ _ _ H1 H2 H3 H4 H5 H6 H7 H8)).
Defined.

(** C10 as stated does not hold: at step [confirmContinue] the text
    [chatgpt], which is not [cotiza], is taken by the rule of the keyword
    before the rule of the step is looked at; the turn ends at
    [waitForQuestion] in mode [chatgpt], and the reply is not the
    farewell. *)
Lemma confirmContinue_chatgpt :
  let ev := mensaje_de "chatgpt" in
  let r := turno servicios_en_pie ev {["42" := perfil_cotizando "confirmContinue" "chatgpt"]} in
  evento_valido ev /\ r.1 = Ok ok_200 /\ enviados r.2 = [SendText "42" adelante] /\
  campo_guardado r "42" "step" = Some (VStr "waitForQuestion") /\
  campo_guardado r "42" "modo" = Some (VStr "chatgpt").
Proof. intros ev r. split; [evento_ok|]. by vm_compute. Qed.



Lemma askedMaster_usuario_developer :
  let ev := mensaje_de "Usuario" in
  let u := perfil_master "start" "gandalf" in
  let t : gmap string (gmap string value) := {["42" := u]} in
  (evento_valido ev /\ t !! ev_chat_id ev = Some u /\ u <> ∅ /\
   u !! "step" = Some (VStr "start") /\ u !! "nombre" = Some (VStr "Ana Diaz") /\
   u !! "modo" = Some (VStr "gandalf") /\ u !! "rol" = Some (VStr "developer") /\
   bien_tipado u /\
   regla_de (master_de u) (paso_despachado u (mensaje_decoded_de ev) (VStr "start"))
     (VStr "gandalf") (mensaje_decoded_de ev) = RAskedMaster /\
   mensaje_decoded_de ev = "usuario") /\
  (turno servicios_en_pie ev t).1 = Ok ok_200 /\
  enviados (turno servicios_en_pie ev t).2
    = [SendText "42" saludo; SendText "42" pide_nombre] /\
  exists u', tabla (turno servicios_en_pie ev t).2 !! "42" = Some u' /\
    u' !! "step" = Some (VStr "askedWelcome") /\
    u' !! "rol" = Some (VStr "developer") /\ u' !! "modo" = Some (VStr "gandalf").
Proof.
  intros ev u t.
  assert (H1 : evento_valido ev) by evento_ok.
  assert (H2 : t !! ev_chat_id ev = Some u) by reflexivity.
  assert (H3 : u <> ∅) by no_vacio_mapa.
  assert (H4 : u !! "step" = Some (VStr "start")) by reflexivity.
  assert (H5 : u !! "nombre" = Some (VStr "Ana Diaz")) by reflexivity.
  assert (H6 : u !! "modo" = Some (VStr "gandalf")) by reflexivity.
  assert (H7 : u !! "rol" = Some (VStr "developer")) by reflexivity.
  assert (H8 : bien_tipado u) by (right; eexists; reflexivity).
  assert (H9 : regla_de (master_de u)
                 (paso_despachado u (mensaje_decoded_de ev) (VStr "start"))
                 (VStr "gandalf") (mensaje_decoded_de ev) = RAskedMaster) by reflexivity.
  assert (H10 : mensaje_decoded_de ev = "usuario") by reflexivity.
  exact (conj (conj H1 (conj H2 (conj H3 (conj H4 (conj H5 (conj H6 (conj H7 (conj H8
                 (conj H9 H10)))))))))
           (askedMaster_usuario servicios_en_pie ev t u _ _ _ _
              H1 H2 H3 H4 H5 H6 H7 H8 H9 H10)).
Defined.

Lemma hola_de_desconocido_sin_nombre :
  (evento_valido (Evento "42" "Hola" EmptyString EmptyString None) /\
   (∅ : gmap string (gmap string value)) !! "42" = None) /\
  deja (turno servicios_en_pie (Evento "42" "Hola" EmptyString EmptyString None) ∅) "42"
    [SendText "42"
       ("Hola *" +:+ (EmptyString +:+ " " +:+ EmptyString) +:+
        "*, espero te encuentres bien. Soy *TUBOT*, ejecutivo virtual de *TUEMPRESA*. Es un gusto para mí atenderte para ofrecerte diferentes opciones de seguros de salud.");
     SendText "42" pide_fecha]
    "askedBirthdate" "normal".
Proof.
  assert (H1 : evento_valido (Evento "42" "Hola" EmptyString EmptyString None))
    by evento_ok.
  assert (H2 : (∅ : gmap string (gmap string value)) !! "42" = None) by reflexivity.
  exact (conj (conj H1 H2)
           (hola_de_desconocido servicios_en_pie "42" EmptyString EmptyString ∅ H1 H2)).
Defined.

Lemma askedFamily_pdf_caido_continuar :
  let ev := mensaje_de "Continuar" in
  let u := perfil_cotizando "askedFamily" "normal" in
  let t : gmap string (gmap string value) := {["42" := u]} in
  (evento_valido ev /\ t !! ev_chat_id ev = Some u /\ u <> ∅ /\
   u !! "step" = Some (VStr "askedFamily") /\ u !! "nombre" = Some (VStr "Ana Diaz") /\
   u !! "modo" = Some (VStr "normal") /\ u !! "fecha" = Some (VStr "25/12/1990") /\
   u !! "email" = Some (VStr "ana@correo.com") /\ u !! "sexo" = Some (VStr "f") /\
   bien_tipado u /\
   regla_de (master_de u) (paso_despachado u (mensaje_decoded_de ev) (VStr "askedFamily"))
     (VStr "normal") (mensaje_decoded_de ev) = RAskedFamily /\
   (forall url, sv_pagina servicios_sin_pdf url = PaginaHTTPError)) /\
  (turno servicios_sin_pdf ev t).1 = Raise HTTPError /\
  enviados (turno servicios_sin_pdf ev t).2 = [SendText "42" perfecto] /\
  exists u', tabla (turno servicios_sin_pdf ev t).2 !! "42" = Some u' /\
    u' !! "step" = Some (VStr "waitForQuestion") /\ u' !! "modo" = Some (VStr "chatgpt").
Proof.
  intros ev u t.
  assert (H1 : evento_valido ev) by evento_ok.
  assert (H2 : t !! ev_chat_id ev = Some u) by reflexivity.
  assert (H3 : u <> ∅) by no_vacio_mapa.
  assert (H4 : u !! "step" = Some (VStr "askedFamily")) by reflexivity.
  assert (H5 : u !! "nombre" = Some (VStr "Ana Diaz")) by reflexivity.
  assert (H6 : u !! "modo" = Some (VStr "normal")) by reflexivity.
  assert (H7 : u !! "fecha" = Some (VStr "25/12/1990")) by reflexivity.
  assert (H8 : u !! "email" = Some (VStr "ana@correo.com")) by reflexivity.
  assert (H9 : u !! "sexo" = Some (VStr "f")) by reflexivity.
  assert (H10 : bien_tipado u) by (left; reflexivity).
  assert (H11 : regla_de (master_de u)
                  (paso_despachado u (mensaje_decoded_de ev) (VStr "askedFamily"))
                  (VStr "normal") (mensaje_decoded_de ev) = RAskedFamily) by reflexivity.
  assert (H12 : forall url, sv_pagina servicios_sin_pdf url = PaginaHTTPError)
    by (intros url; reflexivity).
  exact (conj (conj H1 (conj H2 (conj H3 (conj H4 (conj H5 (conj H6 (conj H7 (conj H8
                 (conj H9 (conj H10 (conj H11 H12)))))))))))
           (askedFamily_pdf_caido servicios_sin_pdf ev t u _ _ _ _ _ _
              H1 H2 H3 H4 H5 H6 H7 H8 H9 H10 H11 H12)).
Defined.

End HandlerFacts.

(** ** The validators and the shortcut table, beyond the specification *)

Module ValidadoresFacts.
Import Text Fecha Historial Segmenter Handler.
Import TextFacts SegmenterFacts FechaFacts HistorialFacts.

(** *** [correo_es_valido] *)

Lemma hasta_arroba_spec (s : list ascii) :
  s = (hasta_arroba s).1 ++ (hasta_arroba s).2 /\
  ("@"%char ∉ (hasta_arroba s).1) /\
  ((hasta_arroba s).2 = [] \/ exists r, (hasta_arroba s).2 = "@"%char :: r).
Proof.
  induction s as [|c s (IH1 & IH2 & IH3)]; cbn [hasta_arroba].
  - repeat split; [apply not_elem_of_nil | by left].
  - destruct (decide (c = "@"%char)) as [Hc|Hc].
    + cbn. repeat split; [apply not_elem_of_nil | right; eexists; by rewrite Hc].
    + destruct (hasta_arroba s) as [a b]. cbn in *. repeat split.
      * by rewrite IH1 at 1.
      * intros [H|H]%elem_of_cons; [by subst c|done].
      * done.
Qed.

Lemma hasta_arroba_app (u r : list ascii) :
  "@"%char ∉ u -> hasta_arroba (u ++ "@"%char :: r) = (u, "@"%char :: r).
Proof.
  induction u as [|c u IH]; intros Hu; cbn [hasta_arroba app].
  - by rewrite decide_True.
  - apply not_elem_of_cons in Hu as [Hc Hu]. rewrite decide_False by done.
    by rewrite IH.
Qed.

Lemma hasta_arroba_prefijo (u r : list ascii) :
  "@"%char ∉ u -> (hasta_arroba (u ++ r)).1 = u ++ (hasta_arroba r).1.
Proof.
  induction u as [|c u IH]; intros Hu; cbn [hasta_arroba app]; [done|].
  apply not_elem_of_cons in Hu as [Hc Hu]. rewrite decide_False by done.
  specialize (IH Hu). destruct (hasta_arroba (u ++ r)) as [a b]. cbn in *. by rewrite IH.
Qed.

Lemma punto_interior_spec (s : list ascii) :
  punto_interior s = true <->
  exists x y, s = x ++ "."%char :: y /\ x <> [] /\ y <> [].
Proof.
  induction s as [|c s IH].
  - split; [done|]. intros (x & y & H & _). by destruct x.
  - assert (Hrec : punto_interior s = true ->
                   exists x y, c :: s = x ++ "."%char :: y /\ x <> [] /\ y <> []).
    { intros (x & y & -> & Hx & Hy)%IH. by exists (c :: x), y. }
    assert (Hinv : forall x y, c :: s = x ++ "."%char :: y -> x <> [] -> y <> [] ->
                   (exists d y', s = "."%char :: d :: y') \/ punto_interior s = true).
    { intros x y H Hx Hy. destruct x as [|c' x]; [done|]. injection H as -> ->.
      destruct x as [|c'' x].
      - left. destruct y as [|d y']; [done|]. by exists d, y'.
      - right. apply IH. by exists (c'' :: x), y. }
    split.
    + cbn [punto_interior]. destruct s as [|d s']; [done|].
      destruct (decide (d = "."%char)) as [->|Hd].
      * destruct s' as [|e s'']; [apply Hrec|].
        intros _. by exists [c], (e :: s'').
      * intros H. apply Hrec.
        destruct d as [[] [] [] [] [] [] [] []]; try done.
    + intros (x & y & H & Hx & Hy).
      destruct (Hinv x y H Hx Hy) as [(d & y' & ->)|Hp]; [done|].
      cbn [punto_interior]. destruct s as [|d s']; [done|].
      destruct d as [[] [] [] [] [] [] [] []]; try done. by destruct s'.
Qed.

(** X17.  [correo_es_valido] accepts a text exactly when it begins with one
    or more characters other than [@], an [@], and a run of characters other
    than [@] that has a full stop after its first and before its last
    character: what [re.match] of [[^@]+@[^@]+\.[^@]+] finds at the start of
    the text.  Whatever follows is not looked at. *)
Theorem correo_es_valido_forma (correo : string) :
  correo_es_valido correo = true <->
  exists u v w resto,
    list_ascii_of_string correo = u ++ "@"%char :: v ++ "."%char :: w ++ resto /\
    u <> [] /\ v <> [] /\ w <> [] /\
    ("@"%char ∉ u) /\ ("@"%char ∉ v) /\ ("@"%char ∉ w).
Proof.
  unfold correo_es_valido. split.
  - destruct (hasta_arroba_spec (list_ascii_of_string correo)) as (H1 & H2 & H3).
    destruct (hasta_arroba (list_ascii_of_string correo)) as [a b]. cbn in *.
    destruct a as [|c a]; [done|]. destruct b as [|c' resto]; [done|].
    destruct H3 as [|[r [= -> ->]]]; [done|].
    destruct (hasta_arroba_spec r) as (H4 & H5 & _).
    intros (x & y & Hxy & Hx & Hy)%punto_interior_spec.
    rewrite Hxy in H5. apply not_elem_of_app in H5 as [H5 H6].
    apply not_elem_of_cons in H6 as [_ H6].
    exists (c :: a), x, y, (hasta_arroba r).2. repeat split; try done.
    rewrite H1. do 2 f_equal. rewrite H4 at 1. rewrite Hxy.
    by rewrite <- app_assoc.
  - intros (u & v & w & resto & -> & Hu & Hv & Hw & Hau & Hav & Haw).
    rewrite hasta_arroba_app by done. destruct u as [|c u]; [done|].
    replace (v ++ "."%char :: w ++ resto) with ((v ++ "."%char :: w) ++ resto)
      by (by rewrite <- app_assoc).
    rewrite hasta_arroba_prefijo.
    + apply punto_interior_spec. exists v, (w ++ (hasta_arroba resto).1).
      repeat split; [by rewrite <- app_assoc | done | by destruct w].
    + intros [H|H]%elem_of_app; [done|].
      apply elem_of_cons in H as [H|H]; done.
Qed.

(** *** [parentesco_valido] *)

Lemma lstrip_blank (a : list ascii) : blank a -> lstrip a = [].
Proof. induction 1 as [|c a Hc _ IH]; cbn; [done|]. by rewrite Hc. Qed.

Lemma lstrip_blank_app (a s : list ascii) : blank a -> lstrip (a ++ s) = lstrip s.
Proof. induction 1 as [|c a Hc _ IH]; cbn; [done|]. by rewrite Hc. Qed.

Lemma lstrip_nil_blank (s : list ascii) : lstrip s = [] -> blank s.
Proof.
  induction s as [|c s IH]; cbn; [constructor|].
  destruct (isspace c) eqn:Hc; [|done]. intros H. apply Forall_cons. split; [done | by apply IH].
Qed.

Lemma lstrip_app (s b : list ascii) : lstrip s <> [] -> lstrip (s ++ b) = lstrip s ++ b.
Proof.
  induction s as [|c s IH]; cbn; [done|].
  destruct (isspace c); [exact IH | done].
Qed.

Lemma rstrip_app_blank (s b : list ascii) : blank b -> rstrip (s ++ b) = rstrip s.
Proof.
  intros Hb. unfold rstrip. rewrite reverse_app.
  by rewrite lstrip_blank_app by (by apply blank_reverse).
Qed.

Lemma strip_rodeado (a s b : list ascii) :
  blank a -> blank b -> strip (a ++ s ++ b) = strip s.
Proof.
  intros Ha Hb. unfold strip. rewrite lstrip_blank_app by done.
  destruct (lstrip s) as [|c r] eqn:E.
  - apply lstrip_nil_blank in E. rewrite lstrip_blank by (by apply blank_app). done.
  - rewrite lstrip_app by (by rewrite E). rewrite E. by apply rstrip_app_blank.
Qed.

Lemma isspace_lower_char (c : ascii) : isspace (lower_char c) = isspace c.
Proof. by destruct c as [[] [] [] [] [] [] [] []]. Qed.

Lemma list_ascii_of_lower (s : string) :
  list_ascii_of_string (lower s) = lower_char <$> list_ascii_of_string s.
Proof. induction s as [|c s IH]; cbn; [done|]. by rewrite IH. Qed.

Lemma lower_of_list_ascii (l : list ascii) :
  lower (string_of_list_ascii l) = string_of_list_ascii (lower_char <$> l).
Proof. induction l as [|c l IH]; cbn; [done|]. by rewrite IH. Qed.

Lemma lstrip_lower (l : list ascii) :
  lstrip (lower_char <$> l) = lower_char <$> lstrip l.
Proof.
  induction l as [|c l IH]; cbn; [done|]. rewrite isspace_lower_char.
  by destruct (isspace c).
Qed.

Lemma strip_lower (l : list ascii) : strip (lower_char <$> l) = lower_char <$> strip l.
Proof.
  unfold strip, rstrip. rewrite lstrip_lower, <- fmap_reverse, lstrip_lower.
  by rewrite fmap_reverse.
Qed.

Lemma str_strip_lower (s : string) : str_strip (lower s) = lower (str_strip s).
Proof.
  unfold str_strip, sobre_lista.
  by rewrite list_ascii_of_lower, strip_lower, lower_of_list_ascii.
Qed.

(** X18.  [parentesco_valido] looks at its text without the white space
    around it and without regard to case: white space added before or after
    the text, and a change of case, do not change the answer. *)
Theorem parentesco_valido_normaliza (cadena : string) (a b : list ascii) :
  blank a -> blank b ->
  parentesco_valido (string_of_list_ascii (a ++ list_ascii_of_string cadena ++ b))
  = parentesco_valido cadena /\
  parentesco_valido (lower cadena) = parentesco_valido cadena.
Proof.
  intros Ha Hb. unfold parentesco_valido. split.
  - unfold str_strip, sobre_lista.
    by rewrite list_ascii_of_string_of_list_ascii, strip_rodeado.
  - by rewrite str_strip_lower, lower_idem.
Qed.

Lemma parentesco_valido_normaliza_madre :
  (blank (list_ascii_of_string "  ") /\ blank (list_ascii_of_string " ")) /\
  parentesco_valido
    (string_of_list_ascii
       (list_ascii_of_string "  " ++ list_ascii_of_string "MaDre" ++
        list_ascii_of_string " "))
  = parentesco_valido "MaDre" /\
  parentesco_valido (lower "MaDre") = parentesco_valido "MaDre".
Proof.
  assert (H1 : blank (list_ascii_of_string "  ")) by (by repeat constructor).
  assert (H2 : blank (list_ascii_of_string " ")) by (by repeat constructor).
  exact (conj (conj H1 H2) (parentesco_valido_normaliza "MaDre" _ _ H1 H2)).
Defined.

(** *** [agregar_opciones], key by key *)

Lemma foldl_insert_lookup (G : string -> string) (ops : list string) :
  forall (h : gmap string string) (k : string),
  foldl (fun h o => <[lower o := G (lower o)]> h) h ops !! k
  = if decide (k ∈ lower <$> ops) then Some (G k) else h !! k.
Proof.
  induction ops as [|o ops IH]; intros h k; cbn [foldl fmap list_fmap].
  - rewrite decide_False; [done | apply not_elem_of_nil].
  - rewrite IH. destruct (decide (k ∈ lower <$> ops)) as [Hin|Hnin].
    + rewrite decide_True; [done | by apply elem_of_cons; right].
    + destruct (decide (k = lower o)) as [->|Hne].
      * rewrite lookup_insert_eq. rewrite decide_True; [done | by apply elem_of_cons; left].
      * rewrite lookup_insert_ne by done.
        rewrite decide_False; [done|]. by intros [?|?]%elem_of_cons.
Qed.

Lemma paso_de_lookup (ops : list string) (p k : string) :
  paso_de ops (PasoUnico p) !! k = if decide (k ∈ lower <$> ops) then Some p else None.
Proof. unfold paso_de. by rewrite (foldl_insert_lookup (fun _ => p)). Qed.

(** X19.  After [agregar_opciones(historial, opciones, paso_default)] a key
    that is the lower case of one of the options holds the step given for it:
    [paso_default] itself when it is one step, its entry for the key when it
    is a dict, and [start] when the dict has no such entry; every other key
    holds what it held before. *)
Theorem agregar_opciones_lookup (historial : gmap string string)
    (opciones : list string) (paso_default : paso) (k : string) :
  agregar_opciones historial opciones paso_default !! k
  = if decide (k ∈ lower <$> opciones)
    then Some (match paso_default with
               | PasoUnico p => p
               | PasoPorOpcion d => default "start" (d !! k)
               end)
    else historial !! k.
Proof.
  unfold agregar_opciones. cbv zeta.
  rewrite (foldl_insert_lookup
             (fun k => default "start" (paso_de opciones paso_default !! k))).
  destruct (decide (k ∈ lower <$> opciones)) as [Hin|Hnin]; [|done].
  destruct paso_default as [p|d]; [|done].
  by rewrite paso_de_lookup, decide_True.
Qed.

(** X20.  Registering the same options with the same step a second time
    changes nothing, and the result does not depend on the order or the
    repetitions of the options: two lists with the same options in lower
    case give the same table. *)
Theorem agregar_opciones_idempotente (historial : gmap string string)
    (opciones opciones' : list string) (paso : string) :
  agregar_opciones (agregar_opciones historial opciones (PasoUnico paso)) opciones
    (PasoUnico paso)
  = agregar_opciones historial opciones (PasoUnico paso) /\
  ((forall k, k ∈ lower <$> opciones <-> k ∈ lower <$> opciones') ->
   agregar_opciones historial opciones (PasoUnico paso)
   = agregar_opciones historial opciones' (PasoUnico paso)).
Proof.
  split.
  - apply map_eq. intros k. rewrite !agregar_opciones_lookup.
    by destruct (decide (k ∈ lower <$> opciones)).
  - intros H. apply map_eq. intros k. rewrite !agregar_opciones_lookup.
    destruct (decide (k ∈ lower <$> opciones)) as [Hin|Hnin].
    + rewrite decide_True; [done | by apply H].
    + rewrite decide_False; [done|]. by rewrite <- H.
Qed.

(** *** The SQL form is not a date for the validator *)

Lemma digito_mod_10 (n : Z) : digito (n mod 10) = digito n.
Proof. unfold digito. by rewrite Z.mod_mod by lia. Qed.

Lemma es_digito_digito_de (n : Z) : es_digito (digito n) = true.
Proof.
  rewrite <- digito_mod_10. apply es_digito_de_digito.
  pose proof (Z.mod_pos_bound n 10). lia.
Qed.

Lemma list_bind_nada {A B} (f : A -> list B) (l : list A) :
  (forall x, x ∈ l -> f x = []) -> l ≫= f = [].
Proof.
  induction l as [|x l IH]; intros H; [done|].
  rewrite bind_cons, H by (by left). apply IH. intros y Hy. apply H. by right.
Qed.

Lemma literal_digito (sep c : ascii) (r : list ascii) :
  es_digito sep = false -> es_digito c = true -> literal sep (c :: r) = [].
Proof.
  intros Hs Hc. unfold literal. rewrite decide_False; [done|]. intros ->. congruence.
Qed.

Lemma strptime_dmy_Ymd (sep : ascii) (c1 c2 c3 : ascii) (r : list ascii) :
  es_digito sep = false -> es_digito c2 = true -> es_digito c3 = true ->
  strptime_dmy sep (string_of_list_ascii (c1 :: c2 :: c3 :: r)) = None.
Proof.
  intros Hs H2 H3. unfold strptime_dmy, re_match.
  rewrite list_ascii_of_string_of_list_ascii.
  rewrite list_bind_nada; [done|].
  intros [d r1] Hd. apply elem_of_re_d in Hd as [Hd Hl].
  destruct d as [|x [|y [|z d]]]; cbn in Hl; try lia.
  - injection Hd as _ <-. cbv beta iota.
    by rewrite (literal_digito sep c2 (c3 :: r) Hs H2).
  - injection Hd as _ _ <-. cbv beta iota.
    by rewrite (literal_digito sep c3 r Hs H3).
Qed.

(** X21.  What [fecha_sql] gives for an accepted date (of a year from 1000
    on) is not itself a date for the validator: [validar_fecha] and
    [fecha_sql] both answer [None] on it, so rendering twice loses the
    date. *)
Theorem fecha_sql_no_es_entrada (cadena_fecha : string) (fecha : date) :
  validar_fecha cadena_fecha = Some fecha -> 1000 <= year fecha ->
  fecha_sql cadena_fecha = Some (strftime_Ymd fecha) /\
  validar_fecha (strftime_Ymd fecha) = None /\
  fecha_sql (strftime_Ymd fecha) = None.
Proof.
  intros Hv _. split; [by apply validar_fecha_sql|].
  assert (H : forall sep, es_digito sep = false ->
                          strptime_dmy sep (strftime_Ymd fecha) = None).
  { intros sep Hs. unfold strftime_Ymd.
    apply strptime_dmy_Ymd; [done | apply es_digito_digito_de..]. }
  assert (Hn : validar_fecha (strftime_Ymd fecha) = None).
  { unfold validar_fecha. by rewrite !H. }
  split; [done|]. by apply validar_fecha_None_sql.
Qed.

Lemma fecha_sql_no_es_entrada_navidad :
  (validar_fecha "25/12/2024" = Some (Date 2024 12 25) /\
   1000 <= year (Date 2024 12 25)) /\
  fecha_sql "25/12/2024" = Some "2024-12-25" /\
  validar_fecha "2024-12-25" = None /\
  fecha_sql "2024-12-25" = None.
Proof.
  assert (H1 : validar_fecha "25/12/2024" = Some (Date 2024 12 25)) by reflexivity.
  assert (H2 : 1000 <= year (Date 2024 12 25)) by (cbn; lia).
  exact (conj (conj H1 H2) (fecha_sql_no_es_entrada "25/12/2024" _ H1 H2)).
Defined.

End ValidadoresFacts.

(** ** What every turn keeps, and the rules one by one *)

Module TurnoFacts.
Import Text Fecha Historial Segmenter Handler Invariantes.
Import TextFacts SegmenterFacts FechaFacts HistorialFacts HandlerFacts.

(** *** What every rule keeps

    A property [P] of the state that the assignments of the rules, the
    sending of an action to the sender and the two writes to the table keep
    is kept by the whole dispatch, and the dispatch raises only what [Q]
    allows. *)

Ltac esta := apply (bool_decide_unpack _); vm_compute; exact I.
Ltac campo :=
  split; [esta|];
  first [ let H := fresh in intros H; discriminate H
        | intros _; eexists; split; [|reflexivity]; esta ].

Section cumple.
Context (sv : servicios) (sender : string) (P : estado -> Prop) (Q : excepcion -> Prop).
Hypothesis HL : forall s r b o u p,
  P s -> P (Estado (tabla s) (enviados s) (usuario s) r b o u p).
Hypothesis HE : forall s a,
  chat_de a = sender -> P s -> P (con_enviados (enviados s ++ [a]) s).
Hypothesis HP : forall s k v,
  asignable k v -> P s -> P (con_usuario (<[k := v]> (usuario s)) s).
Hypothesis HS : forall s k paso,
  historial_de (usuario s) !! k = Some paso -> P s ->
  P (con_usuario (<["step" := VStr paso]> (usuario s)) s).
Hypothesis HH : forall s ops paso,
  paso ∈ pasos_asignados -> P s ->
  P (con_usuario
       (<["historial" := VDict (agregar_opciones (historial_de (usuario s)) ops
                                  (PasoUnico paso))]> (usuario s)) s).
Hypothesis HG : forall s,
  P s -> P (con_tabla (<[sender := usuario s ∪ {["userID" := VStr sender]}]> (tabla s)) s).
Hypothesis HD : forall s ud v,
  tabla s !! "deyna" = Some ud -> ud <> ∅ -> P s ->
  P (con_tabla (<["deyna" := <["instrucciones" := v]> ud ∪ {["userID" := VStr "deyna"]}]>
                  (tabla s)) s).
Hypothesis HK : forall s k, P s -> usuario s !! k = None -> Q (KeyError k).
Hypothesis HT : Q TypeError.
Hypothesis HA : Q AttributeError.
Hypothesis HNE : forall n, Q (NameError n).
Hypothesis HM : Q NoModelado.
Hypothesis HPDF :
  (forall url, exists c, sv_pagina sv url = Pagina c) \/ (Q HTTPError /\ Q URLError).

Lemma cumple_ret {A} b (a : A) : cumple P Q b (mret a).
Proof. intros s HPs _. by cbn. Qed.

Lemma cumple_bind {A B} b (m : M A) (f : A -> M B) :
  cumple P Q b m -> (forall a, cumple P Q b (f a)) -> cumple P Q b (m ≫= f).
Proof.
  intros Hm Hf s HPs Hb. destruct (Hm s HPs Hb) as (HP1 & Hr1 & HQ1).
  unfold mbind, M_bind. destruct (m s) as [[a|e|] s'] eqn:E; cbn in *; [|done..].
  destruct (Hf a s' HP1) as (HP2 & Hr2 & HQ2); [intros Hbt; auto|].
  split; [done|]. split; [|done]. auto.
Qed.

Lemma cumple_debil {A} b (m : M A) : cumple P Q false m -> cumple P Q b m.
Proof. intros Hm s HPs _. by apply Hm. Qed.

Lemma cumple_lanzar {A} b e : Q e -> cumple P Q b (@lanzar A e).
Proof. intros He s HPs _. by cbn. Qed.

Lemma cumple_leer b k : cumple P Q b (leer k).
Proof.
  intros s HPs _. unfold leer. destruct (usuario s !! k) eqn:E; cbn; [done|].
  repeat split; try done. by eapply HK.
Qed.

Lemma cumple_obtener b k : cumple P Q b (obtener k).
Proof. intros s HPs _. by cbn. Qed.

Lemma cumple_poner b k v : asignable k v -> cumple P Q b (poner k v).
Proof. intros Hk s HPs _. cbn. repeat split; try done. by apply HP. Qed.

Lemma P_locales s s' :
  tabla s' = tabla s -> enviados s' = enviados s -> usuario s' = usuario s ->
  P s -> P s'.
Proof.
  intros H1 H2 H3 HPs. destruct s'; cbn in *; subst.
  by apply (HL s).
Qed.

Lemma cumple_decir b t : cumple P Q b (decir t).
Proof. intros s HPs _. cbn. repeat split; try done. by apply (P_locales s). Qed.

Lemma cumple_decir_bind {B} b t (f : unit -> M B) :
  cumple P Q true (f tt) -> cumple P Q b (decir t ≫= f).
Proof.
  intros Hf s HPs _. unfold mbind, M_bind. cbn.
  destruct (Hf (con_respuesta (Some t) s)) as (HP2 & Hr2 & HQ2);
    [by apply (P_locales s) | done |].
  repeat split; try done. intros _. by apply Hr2.
Qed.

Lemma cumple_fijar_botones b x : cumple P Q b (fijar_botones x).
Proof. intros s HPs _. cbn. repeat split; try done. by apply (P_locales s). Qed.
Lemma cumple_fijar_opciones b x : cumple P Q b (fijar_opciones x).
Proof. intros s HPs _. cbn. repeat split; try done. by apply (P_locales s). Qed.
Lemma cumple_fijar_url_pdf b x : cumple P Q b (fijar_url_pdf x).
Proof. intros s HPs _. cbn. repeat split; try done. by apply (P_locales s). Qed.
Lemma cumple_fijar_pdf_file b x : cumple P Q b (fijar_pdf_file x).
Proof. intros s HPs _. cbn. repeat split; try done. by apply (P_locales s). Qed.

Lemma chat_de_enviar m bo u p o :
  chat_de (enviar_mensaje_telegram sender m bo u p o) = sender.
Proof. unfold enviar_mensaje_telegram. by repeat case_match. Qed.

Lemma cumple_enviar b m bo u p o : cumple P Q b (enviar sender m bo u p o).
Proof.
  intros s HPs _. cbn -[enviar_mensaje_telegram].
  repeat split; try done. apply HE; [|done]. apply chat_de_enviar.
Qed.

Lemma cumple_enviar_respuesta : cumple P Q true (enviar_respuesta sender).
Proof.
  intros s HPs Hr. unfold enviar_respuesta.
  destruct (respuesta s) eqn:E; [|by specialize (Hr eq_refl)].
  cbn -[enviar_mensaje_telegram]. rewrite E.
  repeat split; try done. apply HE; [|done]. apply chat_de_enviar.
Qed.

Lemma cumple_enviar_menu o : cumple P Q true (enviar_menu sender o).
Proof.
  intros s HPs Hr. unfold enviar_menu.
  destruct (respuesta s) eqn:E; [|by specialize (Hr eq_refl)].
  cbn -[enviar_mensaje_telegram]. rewrite E.
  repeat split; try done. apply HE; [|done]. apply chat_de_enviar.
Qed.

Lemma cumple_guardar_usuario b : cumple P Q b (guardar_usuario sender).
Proof. intros s HPs _. cbn. repeat split; try done. by apply HG. Qed.

Lemma cumple_formatear b v : cumple P Q b (formatear v).
Proof. destruct v; first [apply cumple_ret | by apply cumple_lanzar]. Qed.

Lemma con_usuario_mismo s : con_usuario (usuario s) s = s.
Proof. by destruct s. Qed.

Lemma cumple_registrar_opciones b ops paso :
  paso ∈ pasos_asignados -> cumple P Q b (registrar_opciones ops paso).
Proof.
  intros Hpaso s HPs _. unfold registrar_opciones.
  erewrite bind_Ok by reflexivity.
  pose proof (HH s ops paso Hpaso HPs) as HH'. unfold historial_de in HH'.
  unfold agregar_opciones_en.
  destruct (usuario s !! "historial") as [v|] eqn:E.
  - destruct v as [t|n|d|l|].
    + destruct (verdadero (VStr t)) eqn:Ev.
      * destruct ops; [|by cbn].
        erewrite bind_Ok by reflexivity. cbn.
        rewrite insert_id by done. by rewrite con_usuario_mismo.
      * erewrite bind_Ok by reflexivity. by cbn.
    + destruct (verdadero (VInt n)) eqn:Ev.
      * destruct ops; [|by cbn].
        erewrite bind_Ok by reflexivity. cbn.
        rewrite insert_id by done. by rewrite con_usuario_mismo.
      * erewrite bind_Ok by reflexivity. by cbn.
    + erewrite bind_Ok by reflexivity. by cbn.
    + destruct (verdadero (VList l)) eqn:Ev.
      * destruct ops; [|by cbn].
        erewrite bind_Ok by reflexivity. cbn.
        rewrite insert_id by done. by rewrite con_usuario_mismo.
      * erewrite bind_Ok by reflexivity. by cbn.
    + erewrite bind_Ok by reflexivity. by cbn.
  - erewrite bind_Ok by reflexivity. by cbn.
Qed.


Lemma cumple_no_termina {A} b : cumple P Q b (@no_termina A).
Proof. intros s HPs _. by cbn. Qed.

Lemma cumple_generar_pdf b id_cotizacion : cumple P Q b (generar_pdf sv id_cotizacion).
Proof.
  unfold generar_pdf, obtener_contenido_pagina.
  destruct HPDF as [Hpdf|[H1 H2]].
  - destruct (Hpdf ("https://YOUR_PDF_SERVICE.co/pdfgen/gen.php?id=" +:+ id_cotizacion +:+
                    "&zoom=0.65&orientation=Landscape&nofolder=1&server=YOUR_SERVER.co"))
      as [c ->].
    apply cumple_ret.
  - case_match; first [apply cumple_ret | by apply cumple_lanzar].
Qed.


Ltac paso_cumple :=
  lazymatch goal with
  | |- cumple _ _ _ (mbind _ (decir _)) => apply cumple_decir_bind; cbv beta
  | |- cumple _ _ _ (mbind _ _) => apply cumple_bind; [|intros ?]
  | |- cumple _ _ _ (mret _) => apply cumple_ret
  | |- cumple _ _ _ (ret _) => apply cumple_ret
  | |- cumple _ _ _ nada => apply cumple_ret
  | |- cumple _ _ _ (lanzar _) => apply cumple_lanzar; auto
  | |- cumple _ _ _ no_termina => apply cumple_no_termina
  | |- cumple _ _ _ (leer _) => apply cumple_leer
  | |- cumple _ _ _ (obtener _) => apply cumple_obtener
  | |- cumple _ _ _ (poner _ _) => apply cumple_poner; campo
  | |- cumple _ _ _ (decir _) => apply cumple_decir
  | |- cumple _ _ _ (fijar_botones _) => apply cumple_fijar_botones
  | |- cumple _ _ _ (fijar_opciones _) => apply cumple_fijar_opciones
  | |- cumple _ _ _ (fijar_url_pdf _) => apply cumple_fijar_url_pdf
  | |- cumple _ _ _ (fijar_pdf_file _) => apply cumple_fijar_pdf_file
  | |- cumple _ _ _ (enviar _ _ _ _ _ _) => apply cumple_enviar
  | |- cumple _ _ true (enviar_respuesta _) => apply cumple_enviar_respuesta
  | |- cumple _ _ true (enviar_menu _ _) => apply cumple_enviar_menu
  | |- cumple _ _ _ (guardar_usuario _) => apply cumple_guardar_usuario
  | |- cumple _ _ _ (formatear _) => apply cumple_formatear
  | |- cumple _ _ _ (registrar_opciones _ _) => apply cumple_registrar_opciones; esta
  | |- cumple _ _ _ (generar_pdf _ _) => apply cumple_generar_pdf
  | |- cumple _ _ _ (if _ then _ else _) => case_match
  | |- cumple _ _ _ (match _ with _ => _ end) => case_match
  end.

Ltac anda := cbv zeta; repeat paso_cumple.

Lemma cumple_fecha_sql_de b k : cumple P Q b (fecha_sql_de k).
Proof. unfold fecha_sql_de. anda. Qed.

Lemma cumple_datos_cotizacion b extra : cumple P Q b (datos_cotizacion sender extra).
Proof.
  unfold datos_cotizacion.
  apply cumple_bind; [apply cumple_fecha_sql_de|intros ?]. anda.
Qed.

Lemma cumple_enviar_cotizacion b id guarda : cumple P Q b (enviar_cotizacion sender id guarda).
Proof. unfold enviar_cotizacion. anda. Qed.

Lemma cumple_enviar_trozos b mensajes : cumple P Q b (enviar_trozos sender mensajes).
Proof. induction mensajes as [|t r IH]; cbn [enviar_trozos]; anda. exact IH. Qed.

Lemma cumple_documento_elegido b e pdf : cumple P Q b (documento_elegido e pdf).
Proof. unfold documento_elegido. anda. Qed.

Lemma cumple_abrir_carpeta b m : cumple P Q b (abrir_carpeta sv m).
Proof. unfold abrir_carpeta. anda. Qed.

Lemma recuperar_usuario_eq k s :
  exists r, recuperar_usuario k s = (Ok r, s) /\
            forall ud, r = Some ud -> tabla s !! k = Some ud.
Proof.
  unfold recuperar_usuario. destruct (tabla s !! k) as [ud|] eqn:E.
  - eexists. split; [reflexivity|]. intros ud'. case_decide; naive_solver.
  - eexists. split; [reflexivity|]. naive_solver.
Qed.

Lemma cumple_regla_askedTrainer b m : cumple P Q b (regla_askedTrainer sv sender m).
Proof.
  unfold regla_askedTrainer.
  apply cumple_decir_bind; cbv beta.
  apply cumple_bind; [apply cumple_enviar|intros _].
  intros s HPs Hb.
  destruct (recuperar_usuario_eq "deyna" s) as (r & Hr & Hud).
  rewrite (bind_Ok _ _ _ _ _ Hr).
  destruct r as [ud|]; [|by apply (ltac:(anda) :
     cumple P Q true (decir "Mi base de conocimiento no tiene instrucciones. Algo anda mal con mi servidor.";;
                      poner "step" (VStr "master")))].
  specialize (Hud ud eq_refl).
  destruct (ud !! "instrucciones") as [[i|n|d|l|]|] eqn:Ei;
    try (by apply (ltac:(anda) : cumple P Q true (lanzar TypeError)));
    [|by apply (ltac:(anda) :
     cumple P Q true (decir "Mi base de conocimiento no tiene instrucciones. Algo anda mal con mi servidor.";;
                      poner "step" (VStr "master")))].
  cbv zeta. erewrite bind_Ok by reflexivity.
  assert (Hne : ud <> ∅) by (intros ->; by rewrite lookup_empty in Ei).
  pose proof (HD s ud (VStr (i +:+ nl +:+ m)) Hud Hne HPs) as HP1.
  set (s1 := con_tabla _ s) in *.
  destruct ((ltac:(anda) :
     cumple P Q true (decir "Mi base de conocimiento ha sido actualizada con éxito.";;
                      poner "step" (VStr "master"))) s1 HP1) as (H1 & H2 & H3);
    [intros _; by apply Hb|].
  split; [exact H1|]. split; [intros _; apply H2; by apply Hb | exact H3].
Qed.

Lemma cumple_atajo b m step : cumple P Q b (atajo m step).
Proof.
  intros s HPs Hb. unfold atajo. erewrite bind_Ok by reflexivity.
  destruct (usuario s !! "historial") as [[x|n|h|l|]|] eqn:E;
    try (by apply (ltac:(anda) : cumple P Q b (@lanzar value TypeError)));
    try (by apply (ltac:(anda) : cumple P Q b (ret step))).
  - case_match; [by apply (ltac:(anda) : cumple P Q b (@lanzar value TypeError))
                |by apply (ltac:(anda) : cumple P Q b (ret step))].
  - destruct (h !! m) as [paso|] eqn:Em;
      [|by apply (ltac:(anda) : cumple P Q b (ret step))].
    cbn. repeat split; try done. apply (HS s m); [|done].
    unfold historial_de. by rewrite E.
  - case_match; [by apply (ltac:(anda) : cumple P Q b (@lanzar value TypeError))
                |by apply (ltac:(anda) : cumple P Q b (ret step))].
Qed.

Lemma cumple_campo_o b k d : cumple P Q b (campo_o k d).
Proof. unfold campo_o. anda. Qed.

Lemma cumple_cierre b : cumple P Q b (cierre sender).
Proof.
  unfold cierre. apply cumple_bind; [|intros _; apply cumple_bind; [|intros _; apply cumple_ret]].
  - intros s HPs _. destruct (no_vacio (respuesta s)) eqn:E; [|by cbn].
    apply cumple_enviar_respuesta; [done|]. intros _. by destruct (respuesta s).
  - intros s HPs _. case_decide; [by cbn|]. by apply (cumple_guardar_usuario false s HPs).
Qed.

Lemma cumple_cuerpo m nombre rol developer r :
  cumple P Q false (cuerpo sv sender m nombre rol developer r).
Proof.
  destruct r; cbn [cuerpo].
  - unfold regla_start. anda.
  - unfold regla_master. anda.
  - unfold regla_chatgpt. anda.
  - unfold regla_askedWelcome. anda.
  - unfold regla_askedBirthdate. anda.
  - unfold regla_askedOnlyName. anda.
  - unfold regla_askedName. anda.
  - unfold regla_askedEmail. anda.
  - unfold regla_askedSex. anda.
  - unfold regla_askBenefit. anda.
  - unfold regla_askedParent. anda.
  - unfold regla_askedBirthdateParent. anda; apply cumple_fecha_sql_de.
  - unfold regla_askedFamily. anda; first [apply cumple_datos_cotizacion | apply cumple_enviar_cotizacion].
  - unfold regla_end. anda.
  - unfold regla_additionalHelp. anda.
  - unfold regla_endCotiza. anda.
  - unfold regla_waitForQuestion. anda. apply cumple_enviar_trozos.
  - unfold regla_confirmContinue. anda.
  - unfold regla_askedAdmin. anda.
  - unfold regla_askedMaster. anda.
  - apply cumple_regla_askedTrainer.
  - unfold regla_gandalf. anda.
  - unfold regla_sub_category_selection. anda; apply cumple_documento_elegido.
  - unfold regla_company_selection. anda; apply cumple_documento_elegido.
  - unfold regla_document_choice. anda; apply cumple_abrir_carpeta.
  - unfold regla_fallback. anda.
Qed.

Lemma cumple_despacho pn mensaje : cumple P Q false (despacho sv sender pn mensaje).
Proof.
  unfold despacho. anda; first [apply cumple_atajo | apply cumple_campo_o | apply cumple_cuerpo | apply cumple_cierre].
Qed.

End cumple.

(** The same, for a property that does not look at which step is assigned:
    it is enough that it is kept by the assignment of any assigned field. *)
Lemma cumple_despacho_campos sv sender (P : estado -> Prop) (Q : excepcion -> Prop)
    pn mensaje :
  (forall s r b o u p, P s -> P (Estado (tabla s) (enviados s) (usuario s) r b o u p)) ->
  (forall s a, chat_de a = sender -> P s -> P (con_enviados (enviados s ++ [a]) s)) ->
  (forall s k v, k ∈ campos_asignados -> P s -> P (con_usuario (<[k := v]> (usuario s)) s)) ->
  (forall s ops paso, P s ->
     P (con_usuario
          (<["historial" := VDict (agregar_opciones (historial_de (usuario s)) ops
                                     (PasoUnico paso))]> (usuario s)) s)) ->
  (forall s,
     P s -> P (con_tabla (<[sender := usuario s ∪ {["userID" := VStr sender]}]> (tabla s)) s)) ->
  (forall s ud v,
     tabla s !! "deyna" = Some ud -> P s ->
     P (con_tabla (<["deyna" := <["instrucciones" := v]> ud ∪ {["userID" := VStr "deyna"]}]>
                     (tabla s)) s)) ->
  (forall s k, P s -> usuario s !! k = None -> Q (KeyError k)) ->
  Q TypeError -> Q AttributeError -> (forall n, Q (NameError n)) -> Q NoModelado ->
  (forall url, exists c, sv_pagina sv url = Pagina c) \/ (Q HTTPError /\ Q URLError) ->
  cumple P Q false (despacho sv sender pn mensaje).
Proof.
  intros HL HE HP HH HG HD HK HT HA HNE HM HPDF.
  apply cumple_despacho; try done.
  - intros s k v [Hk _]. by apply HP.
  - intros s k paso _. apply HP. esta.
  - intros s ops paso _. apply HH.
  - intros s ud v Hud _. by apply HD.
Qed.

Lemma profile_name_mismo (pn : string) :
  (if (pn =? EmptyString)%string then EmptyString else pn) = pn.
Proof. destruct (pn =? EmptyString)%string eqn:E; [|done]. by apply String.eqb_eq in E. Qed.

(** What the handler starts a turn from: the stored profile, or a new one
    that it stores at once when the sender has none (or an empty one). *)
Lemma cargar_casos sender pn t :
  (exists u, t !! sender = Some u /\ u <> ∅ /\
     cargar sender pn (inicio t) = (Ok tt, con_usuario u (inicio t))) \/
  ((t !! sender = None \/ t !! sender = Some ∅) /\
   cargar sender pn (inicio t)
   = (Ok tt, Estado (<[sender := usuario_nuevo pn ∪ {["userID" := VStr sender]}]> t) []
               (usuario_nuevo pn) None [] [] None None)).
Proof.
  unfold cargar.
  destruct (t !! sender) as [u|] eqn:E.
  - destruct (decide (u = ∅)) as [->|Hne].
    + right. split; [by right|].
      erewrite bind_Ok
        by (unfold recuperar_usuario; cbn [tabla inicio]; rewrite E; reflexivity).
      rewrite decide_True by done. by rewrite profile_name_mismo.
    + left. exists u. repeat split; try done.
      erewrite bind_Ok
        by (unfold recuperar_usuario; cbn [tabla inicio]; rewrite E; reflexivity).
      by rewrite decide_False by done.
  - right. split; [by left|].
    erewrite bind_Ok
      by (unfold recuperar_usuario; cbn [tabla inicio]; rewrite E; reflexivity).
    by rewrite profile_name_mismo.
Qed.

(** An event without a sender or without a text is answered at once; any
    other goes through the loading of the profile and the dispatch. *)
Lemma turno_casos sv ev t :
  turno sv ev t = (Ok (Respuesta 200 "Mensaje no válido"), inicio t) \/
  exists s1,
    cargar (ev_chat_id ev) (profile_name_de ev) (inicio t) = (Ok tt, s1) /\
    turno sv ev t
    = despacho sv (ev_chat_id ev) (profile_name_de ev) (obtener_boton ev (ev_text ev)) s1.
Proof.
  unfold turno, lambda_handler. cbv zeta.
  destruct (negb (no_vacio (Some (ev_chat_id ev))) || negb (no_vacio (Some (ev_text ev))));
    [by left|].
  right. fold (profile_name_de ev).
  destruct (cargar_casos (ev_chat_id ev) (profile_name_de ev) t)
    as [(u & _ & _ & H)|[_ H]]; eexists; (split; [exact H|]); by erewrite bind_Ok.
Qed.

Lemma no_asignado k :
  bool_decide (k ∈ campos_asignados) = false -> k ∉ campos_asignados.
Proof. by intros H%bool_decide_eq_false. Qed.

Lemma asignado_ne k k' :
  k ∈ campos_asignados -> bool_decide (k' ∈ campos_asignados) = false -> k <> k'.
Proof. intros Hk Hk'%bool_decide_eq_false ->. done. Qed.

Lemma lookup_con_userID (u : gmap string value) (id k : string) :
  k <> "userID" -> (u ∪ {["userID" := VStr id]}) !! k = u !! k.
Proof.
  intros Hk. destruct (u !! k) as [v|] eqn:E.
  - by apply lookup_union_Some_l.
  - rewrite lookup_union_r by done. by apply lookup_singleton_ne.
Qed.

Lemma historial_de_insert_ne k v u :
  k <> "historial" -> historial_de (<[k := v]> u) = historial_de u.
Proof. intros Hk. unfold historial_de. by rewrite lookup_insert_ne. Qed.

Lemma historial_de_con_userID u id :
  historial_de (u ∪ {["userID" := VStr id]}) = historial_de u.
Proof. unfold historial_de. by rewrite lookup_con_userID. Qed.

Lemma agregar_opciones_conserva h ops paso k :
  is_Some (h !! k) -> is_Some (agregar_opciones h ops paso !! k).
Proof. rewrite agregar_opciones_registrar. apply (registrar_conserva lower). Qed.

(** *** The actions of a turn go to the sender *)

Lemma solo_al_remitente_despacho sv sender pn mensaje s :
  Forall (fun a => chat_de a = sender) (enviados s) ->
  Forall (fun a => chat_de a = sender) (enviados (despacho sv sender pn mensaje s).2).
Proof.
  intros Hs.
  by apply (cumple_despacho_campos sv sender
              (fun s => Forall (fun a => chat_de a = sender) (enviados s))
              (fun _ => True)); try done; try (by right);
    intros; cbn; try done; apply Forall_app; split; [done|by constructor].
Qed.

(** X1.  Whatever the event, the table and the answers of the collaborators,
    and however the turn ends, every action it sends is addressed to the chat
    of the sender. *)
Theorem solo_al_remitente sv ev t :
  Forall (fun a => chat_de a = ev_chat_id ev) (enviados (turno sv ev t).2).
Proof.
  destruct (turno_casos sv ev t) as [->|(s1 & Hc & ->)]; [by constructor|].
  apply solo_al_remitente_despacho.
  destruct (cargar_casos (ev_chat_id ev) (profile_name_de ev) t)
    as [(u & _ & _ & H)|[_ H]]; rewrite H in Hc; injection Hc as <-; by constructor.
Qed.

(** *** A turn leaves the records of the other users alone *)

(** X2.  A turn changes no other record of the table than that of the sender
    and the knowledge-base record [deyna]. *)
Theorem otros_intactos sv ev t k :
  k <> ev_chat_id ev -> k <> "deyna" -> tabla (turno sv ev t).2 !! k = t !! k.
Proof.
  intros Hk Hd.
  destruct (turno_casos sv ev t) as [->|(s1 & Hc & ->)]; [done|].
  assert (H1 : tabla s1 !! k = t !! k).
  { destruct (cargar_casos (ev_chat_id ev) (profile_name_de ev) t)
      as [(u & _ & _ & H)|[_ H]]; rewrite H in Hc; injection Hc as <-; [done|].
    cbn. by rewrite lookup_insert_ne. }
  enough (cumple (fun s => tabla s !! k = t !! k) (fun _ => True) false
            (despacho sv (ev_chat_id ev) (profile_name_de ev)
               (obtener_boton ev (ev_text ev))))
    as H by (by apply H).
  apply cumple_despacho_campos; try done; try (by right); intros; cbn; by rewrite lookup_insert_ne.
Qed.

(** *** Every item of the table keeps its key as [userID] *)

(** X3.  If every item of the table carries its key as [userID], so does
    every item after a turn: the handler never stores a profile under the key
    of another. *)
Theorem tabla_coherente sv ev t :
  coherente t -> coherente (tabla (turno sv ev t).2).
Proof.
  intros Ht.
  destruct (turno_casos sv ev t) as [->|(s1 & Hc & ->)]; [done|].
  set (sender := ev_chat_id ev) in *.
  set (P := fun s => coherente (tabla s) /\
                     (usuario s !! "userID" = None \/
                      usuario s !! "userID" = Some (VStr sender))).
  assert (H1 : P s1).
  { destruct (cargar_casos sender (profile_name_de ev) t)
      as [(u & Hu & _ & H)|[_ H]]; rewrite H in Hc; injection Hc as <-.
    - split; [done|]. right. by apply Ht.
    - split; [|by left]. intros k u. cbn.
      destruct (decide (k = sender)) as [->|Hne].
      + rewrite lookup_insert_eq. intros [= <-]. by rewrite lookup_union_r.
      + rewrite lookup_insert_ne by done. apply Ht. }
  enough (cumple P (fun _ => True) false
            (despacho sv sender (profile_name_de ev) (obtener_boton ev (ev_text ev))))
    as H by (by apply H).
  apply cumple_despacho_campos; try done; try (by right); unfold P.
  - intros s k v Hk [Hc' Hu]. split; [done|]. cbn.
    rewrite lookup_insert_ne; [done|]. by apply (asignado_ne _ _ Hk).
  - intros s ops paso [Hc' Hu]. split; [done|]. cbn. by rewrite lookup_insert_ne.
  - intros s [Hc' Hu]. split; [|done]. intros k u. cbn.
    destruct (decide (k = sender)) as [->|Hne].
    + rewrite lookup_insert_eq. intros [= <-]. destruct Hu as [Hu|Hu].
      * by rewrite lookup_union_r.
      * by apply lookup_union_Some_l.
    + rewrite lookup_insert_ne by done. apply Hc'.
  - intros s ud v Hud [Hc' Hu]. split; [|done]. intros k u. cbn.
    destruct (decide (k = "deyna")) as [->|Hne].
    + rewrite lookup_insert_eq. intros [= <-]. apply lookup_union_Some_l.
      rewrite lookup_insert_ne by done. by apply Hc'.
    + rewrite lookup_insert_ne by done. apply Hc'.
Qed.

(** *** The shortcut table of a profile only grows *)

(** X4.  After a turn the sender still has a stored profile, and every key
    of the shortcut table of the profile before the turn is a key of it
    afterwards, however the turn ends. *)
Theorem historial_crece sv ev t u :
  t !! ev_chat_id ev = Some u ->
  exists u', tabla (turno sv ev t).2 !! ev_chat_id ev = Some u' /\
    forall k, is_Some (historial_de u !! k) -> is_Some (historial_de u' !! k).
Proof.
  intros Hu.
  destruct (turno_casos sv ev t) as [->|(s1 & Hc & ->)]; [by exists u|].
  set (sender := ev_chat_id ev) in *.
  set (P := fun s =>
    (forall k, is_Some (historial_de u !! k) -> is_Some (historial_de (usuario s) !! k)) /\
    exists u', tabla s !! sender = Some u' /\
      forall k, is_Some (historial_de u !! k) -> is_Some (historial_de u' !! k)).
  assert (H1 : P s1).
  { destruct (cargar_casos sender (profile_name_de ev) t)
      as [(u0 & Hu0 & _ & H)|[Hn H]]; rewrite H in Hc; injection Hc as <-.
    - assert (u0 = u) as -> by congruence. split; [done|]. by exists u.
    - assert (u = ∅) as -> by (destruct Hn; congruence).
      split; [by intros k [? ?]|]. eexists. split; [apply lookup_insert_eq|].
      by intros k [? ?]. }
  enough (cumple P (fun _ => True) false
            (despacho sv sender (profile_name_de ev) (obtener_boton ev (ev_text ev))))
    as H by (by apply H).
  apply cumple_despacho_campos; try done; try (by right); unfold P.
  - intros s k v Hk [H2 H3]. split; [|done]. cbn.
    rewrite historial_de_insert_ne; [done|]. by apply (asignado_ne _ _ Hk).
  - intros s ops paso [H2 H3]. split; [|done]. cbn. intros k Hk.
    unfold historial_de at 1. rewrite lookup_insert_eq.
    by apply agregar_opciones_conserva, H2.
  - intros s [H2 H3]. split; [done|]. cbn. eexists. split; [apply lookup_insert_eq|].
    intros k Hk. rewrite historial_de_con_userID. by apply H2.
  - intros s ud v Hud [H2 (u' & H3 & H4)]. split; [done|]. cbn.
    destruct (decide (sender = "deyna")) as [Heq|Hne].
    + rewrite Heq in *. eexists. split; [apply lookup_insert_eq|].
      intros k Hk. rewrite historial_de_con_userID, historial_de_insert_ne by done.
      assert (ud = u') as -> by congruence. by apply H4.
    + exists u'. by rewrite lookup_insert_ne.
Qed.

(** *** Fields are never removed, and a [KeyError] names a field that was
    not there *)

(** X5.  A turn removes no field of the stored profile, and when it ends with
    [KeyError k], [k] is a field that the profile did not have when the turn
    began. *)
Theorem campos_persisten sv ev t u :
  t !! ev_chat_id ev = Some u ->
  (exists u', tabla (turno sv ev t).2 !! ev_chat_id ev = Some u' /\
     forall k, is_Some (u !! k) -> is_Some (u' !! k)) /\
  forall k, (turno sv ev t).1 = Raise (KeyError k) -> u !! k = None.
Proof.
  intros Hu.
  destruct (turno_casos sv ev t) as [->|(s1 & Hc & ->)]; [split; [by exists u|done]|].
  set (sender := ev_chat_id ev) in *.
  set (P := fun s =>
    (forall k, is_Some (u !! k) -> is_Some (usuario s !! k)) /\
    exists u', tabla s !! sender = Some u' /\
      forall k, is_Some (u !! k) -> is_Some (u' !! k)).
  set (Q := fun e => forall k, e = KeyError k -> u !! k = None).
  assert (H1 : P s1).
  { destruct (cargar_casos sender (profile_name_de ev) t)
      as [(u0 & Hu0 & _ & H)|[Hn H]]; rewrite H in Hc; injection Hc as <-.
    - assert (u0 = u) as -> by congruence. split; [done|]. by exists u.
    - assert (u = ∅) as -> by (destruct Hn; congruence).
      split; [by intros k [? ?]|]. eexists. split; [apply lookup_insert_eq|].
      by intros k [? ?]. }
  enough (cumple P Q false
            (despacho sv sender (profile_name_de ev) (obtener_boton ev (ev_text ev))))
    as H.
  { destruct (H s1 H1) as (H2 & _ & H3); [done|]. split; [apply H2|].
    intros k Hk. rewrite Hk in H3. by apply H3. }
  apply cumple_despacho_campos; try done; try (by right); unfold P, Q.
  - intros s k v Hk [H2 H3]. split; [|done]. cbn. intros k' Hk'.
    destruct (decide (k = k')) as [->|Hne].
    + by rewrite lookup_insert_eq.
    + rewrite lookup_insert_ne by done. by apply H2.
  - intros s ops paso [H2 H3]. split; [|done]. cbn. intros k' Hk'.
    destruct (decide ("historial" = k')) as [<-|Hne].
    + by rewrite lookup_insert_eq.
    + rewrite lookup_insert_ne by done. by apply H2.
  - intros s [H2 H3]. split; [done|]. cbn. eexists. split; [apply lookup_insert_eq|].
    intros k Hk. destruct (H2 k Hk) as [v Hv]. exists v. by apply lookup_union_Some_l.
  - intros s ud v Hud [H2 (u' & H3 & H4)]. split; [done|]. cbn.
    destruct (decide (sender = "deyna")) as [Heq|Hne].
    + rewrite Heq in *. eexists. split; [apply lookup_insert_eq|].
      intros k Hk. assert (ud = u') as -> by congruence.
      destruct (H4 k Hk) as [w Hw].
      destruct (decide ("instrucciones" = k)) as [<-|Hne].
      * eexists. apply lookup_union_Some_l. apply lookup_insert_eq.
      * exists w. apply lookup_union_Some_l. by rewrite lookup_insert_ne.
    + exists u'. by rewrite lookup_insert_ne.
  - intros s k [H2 _] Hn k' [= <-].
    destruct (u !! k) eqn:E; [|done]. destruct (H2 k) as [? ?]; [done|congruence].
Qed.

(** *** A turn writes no other field than those the rules assign *)

Lemma usuario_nuevo_no_asignado pn k :
  k ∉ campos_asignados -> usuario_nuevo pn !! k = None.
Proof.
  intros Hk. unfold usuario_nuevo.
  repeat (rewrite lookup_insert_ne;
          [|intros <-; apply Hk; apply (bool_decide_unpack _); vm_compute; exact I]).
  apply lookup_singleton_ne.
  intros <-; apply Hk; apply (bool_decide_unpack _); vm_compute; exact I.
Qed.

(** X6.  A turn leaves every field of the stored profile as it was, other
    than the fields that the rules assign, the shortcut table, [userID] and
    [instrucciones]: in particular [rol], [master] and [developer] are never
    changed by a conversation. *)
Theorem solo_campos_asignados sv ev t u k :
  t !! ev_chat_id ev = Some u ->
  k ∉ campos_asignados -> k <> "historial" -> k <> "userID" -> k <> "instrucciones" ->
  exists u', tabla (turno sv ev t).2 !! ev_chat_id ev = Some u' /\ u' !! k = u !! k.
Proof.
  intros Hu Hk Hh Hid Hi.
  destruct (turno_casos sv ev t) as [->|(s1 & Hc & ->)]; [by exists u|].
  set (sender := ev_chat_id ev) in *.
  set (P := fun s =>
    usuario s !! k = u !! k /\ exists u', tabla s !! sender = Some u' /\ u' !! k = u !! k).
  assert (H1 : P s1).
  { destruct (cargar_casos sender (profile_name_de ev) t)
      as [(u0 & Hu0 & _ & H)|[Hn H]]; rewrite H in Hc; injection Hc as <-.
    - assert (u0 = u) as -> by congruence. split; [done|]. by exists u.
    - assert (u = ∅) as -> by (destruct Hn; congruence).
      split; [by apply usuario_nuevo_no_asignado|].
      eexists. split; [apply lookup_insert_eq|].
      rewrite lookup_con_userID by done. by apply usuario_nuevo_no_asignado. }
  enough (cumple P (fun _ => True) false
            (despacho sv sender (profile_name_de ev) (obtener_boton ev (ev_text ev))))
    as H by (by apply H).
  apply cumple_despacho_campos; try done; try (by right); unfold P.
  - intros s k' v Hk' [H2 H3]. split; [|done]. cbn.
    rewrite lookup_insert_ne; [done|]. by intros ->.
  - intros s ops paso [H2 H3]. split; [|done]. cbn. by rewrite lookup_insert_ne.
  - intros s [H2 H3]. split; [done|]. cbn. eexists. split; [apply lookup_insert_eq|].
    by rewrite lookup_con_userID.
  - intros s ud v Hud [H2 (u' & H3 & H4)]. split; [done|]. cbn.
    destruct (decide (sender = "deyna")) as [Heq|Hne].
    + rewrite Heq in *. eexists. split; [apply lookup_insert_eq|].
      assert (ud = u') as -> by congruence.
      by rewrite lookup_con_userID, lookup_insert_ne.
    + exists u'. by rewrite lookup_insert_ne.
Qed.

(** *** No failure of a collaborator other than the PDF service escapes *)

(** X7.  When the PDF service answers, no turn ends with [HTTPError] or
    [URLError], whatever the other collaborators do: their failures are
    handled where they are called. *)
Theorem errores_de_red sv ev t :
  (forall url, exists c, sv_pagina sv url = Pagina c) ->
  (turno sv ev t).1 <> Raise HTTPError /\ (turno sv ev t).1 <> Raise URLError.
Proof.
  intros Hpdf.
  destruct (turno_casos sv ev t) as [->|(s1 & Hc & ->)]; [done|].
  enough (cumple (fun _ => True) (fun e => e <> HTTPError /\ e <> URLError) false
            (despacho sv (ev_chat_id ev) (profile_name_de ev)
               (obtener_boton ev (ev_text ev))))
    as H.
  { destruct (H s1 I) as (_ & _ & H3); [done|].
    destruct (despacho _ _ _ _ s1).1; [done| |done].
    split; intros [= ->]; by destruct H3. }
  apply cumple_despacho_campos; try done; by left.
Qed.

(** *** The invariants at concrete turns *)

Lemma coherente_singleton k u :
  u !! "userID" = Some (VStr k) -> coherente {[k := u]}.
Proof. intros H k' u' [<- <-]%lookup_singleton_Some. exact H. Qed.

Lemma otros_intactos_vecino :
  let ev := mensaje_de "Hola" in
  let t : gmap string (gmap string value) :=
    {["42" := perfil_cotizando "finalizado" "normal";
      "7" := perfil_master "start" "normal"]} in
  ("7" <> ev_chat_id ev /\ "7" <> "deyna") /\
  tabla (turno servicios_en_pie ev t).2 !! "7" = t !! "7".
Proof.
  intros ev t.
  assert (H1 : "7" <> ev_chat_id ev) by discriminate.
  assert (H2 : "7" <> "deyna") by discriminate.
  exact (conj (conj H1 H2) (otros_intactos servicios_en_pie ev t "7" H1 H2)).
Defined.

Lemma tabla_coherente_finalizado :
  let ev := mensaje_de "Hola" in
  let t : gmap string (gmap string value) :=
    {["42" := perfil_cotizando "finalizado" "normal"]} in
  coherente t /\ coherente (tabla (turno servicios_en_pie ev t).2).
Proof.
  intros ev t.
  assert (H1 : coherente t) by (by apply coherente_singleton).
  exact (conj H1 (tabla_coherente servicios_en_pie ev t H1)).
Defined.

Lemma historial_crece_master :
  let ev := mensaje_de "Hola" in
  let u := perfil_master "start" "normal" in
  let t : gmap string (gmap string value) := {["42" := u]} in
  t !! ev_chat_id ev = Some u /\
  exists u', tabla (turno servicios_en_pie ev t).2 !! ev_chat_id ev = Some u' /\
    forall k, is_Some (historial_de u !! k) -> is_Some (historial_de u' !! k).
Proof.
  intros ev u t.
  assert (H1 : t !! ev_chat_id ev = Some u) by reflexivity.
  exact (conj H1 (historial_crece servicios_en_pie ev t u H1)).
Defined.

Lemma campos_persisten_cotizando :
  let ev := mensaje_de "Continuar" in
  let u := perfil_cotizando "askedFamily" "normal" in
  let t : gmap string (gmap string value) := {["42" := u]} in
  t !! ev_chat_id ev = Some u /\
  (exists u', tabla (turno servicios_sin_pdf ev t).2 !! ev_chat_id ev = Some u' /\
     forall k, is_Some (u !! k) -> is_Some (u' !! k)) /\
  forall k, (turno servicios_sin_pdf ev t).1 = Raise (KeyError k) -> u !! k = None.
Proof.
  intros ev u t.
  assert (H1 : t !! ev_chat_id ev = Some u) by reflexivity.
  exact (conj H1 (campos_persisten servicios_sin_pdf ev t u H1)).
Defined.

Lemma solo_campos_asignados_rol :
  let ev := mensaje_de "Usuario" in
  let u := perfil_master "start" "gandalf" in
  let t : gmap string (gmap string value) := {["42" := u]} in
  (t !! ev_chat_id ev = Some u /\ ("rol" ∉ campos_asignados) /\ "rol" <> "historial" /\
   "rol" <> "userID" /\ "rol" <> "instrucciones") /\
  exists u', tabla (turno servicios_en_pie ev t).2 !! ev_chat_id ev = Some u' /\
             u' !! "rol" = u !! "rol".
Proof.
  intros ev u t.
  assert (H1 : t !! ev_chat_id ev = Some u) by reflexivity.
  assert (H2 : "rol" ∉ campos_asignados) by (by apply no_asignado).
  assert (H3 : "rol" <> "historial") by discriminate.
  assert (H4 : "rol" <> "userID") by discriminate.
  assert (H5 : "rol" <> "instrucciones") by discriminate.
  exact (conj (conj H1 (conj H2 (conj H3 (conj H4 H5))))
           (solo_campos_asignados servicios_en_pie ev t u "rol" H1 H2 H3 H4 H5)).
Defined.

Lemma errores_de_red_en_pie :
  let ev := mensaje_de "Continuar" in
  let t : gmap string (gmap string value) :=
    {["42" := perfil_cotizando "askedFamily" "normal"]} in
  (forall url, exists c, sv_pagina servicios_en_pie url = Pagina c) /\
  (turno servicios_en_pie ev t).1 <> Raise HTTPError /\
  (turno servicios_en_pie ev t).1 <> Raise URLError.
Proof.
  intros ev t.
  assert (H1 : forall url, exists c, sv_pagina servicios_en_pie url = Pagina c)
    by (intros url; by eexists).
  exact (conj H1 (errores_de_red servicios_en_pie ev t H1)).
Defined.

(** *** The rules of the quote, one by one *)

Lemma veq_true v t : veq v t = true -> v = VStr t.
Proof. destruct v; try done. cbn. by intros ->%String.eqb_eq. Qed.

Ltac paso_de_regla :=
  unfold regla_de; cbv zeta; repeat case_match; try discriminate; intros _;
  by apply veq_true.

Lemma regla_askedBirthdate_paso master step modo m :
  regla_de master step modo m = RAskedBirthdate -> step = VStr "askedBirthdate".
Proof. paso_de_regla. Qed.

Lemma regla_askedEmail_paso master step modo m :
  regla_de master step modo m = RAskedEmail -> step = VStr "askedEmail".
Proof. paso_de_regla. Qed.

Lemma regla_askedParent_paso master step modo m :
  regla_de master step modo m = RAskedParent -> step = VStr "askedParent".
Proof. paso_de_regla. Qed.


(** The field [k] of the profile that a state stores for the sender. *)
Lemma campo_guardado_eq (r : res http_respuesta) s sender (u : gmap string value) k :
  k <> "userID" ->
  tabla s = <[sender := u ∪ {["userID" := VStr sender]}]> (tabla s) ->
  campo_guardado (r, s) sender k = u !! k.
Proof.
  intros Hk Ht. unfold campo_guardado. cbn [snd]. rewrite Ht, lookup_insert_eq.
  cbn. by apply lookup_con_userID.
Qed.

Ltac guardado :=
  unfold campo_guardado; cbn [fst snd]; expone; rewrite lookup_insert_eq;
  cbn [mbind option_bind]; rewrite lookup_con_userID by done; busca.

(** X8.  At [askedBirthdate] the text is kept as the birth date, and the
    conversation moves on to the e-mail, exactly when [validar_fecha] accepts
    it; the date kept is then one that [fecha_sql] renders.  Any other text
    is answered with the request for a valid date, and the step and the
    stored date stay as they were. *)
Theorem askedBirthdate_fecha sv ev t u step nombre modo :
  evento_valido ev -> t !! ev_chat_id ev = Some u -> u <> ∅ ->
  u !! "step" = Some step -> u !! "nombre" = Some nombre ->
  u !! "modo" = Some (VStr modo) -> bien_tipado u ->
  regla_de (master_de u) (paso_despachado u (mensaje_decoded_de ev) step) (VStr modo)
    (mensaje_decoded_de ev) = RAskedBirthdate ->
  match validar_fecha (mensaje_decoded_de ev) with
  | Some fecha =>
      deja (turno sv ev t) (ev_chat_id ev)
        [SendText (ev_chat_id ev) "Y ahora tu correo electrónico."] "askedEmail" modo /\
      campo_guardado (turno sv ev t) (ev_chat_id ev) "fecha"
        = Some (VStr (mensaje_decoded_de ev)) /\
      fecha_sql (mensaje_decoded_de ev) = Some (strftime_Ymd fecha)
  | None =>
      deja (turno sv ev t) (ev_chat_id ev)
        [SendText (ev_chat_id ev) fecha_incorrecta] "askedBirthdate" modo /\
      campo_guardado (turno sv ev t) (ev_chat_id ev) "fecha" = u !! "fecha"
  end.
Proof.
  intros Hev Ht Hu Hstep Hnombre Hmodo Hb Hr.
  destruct (validar_fecha (mensaje_decoded_de ev)) as [fecha|] eqn:Ef.
  - eassert (E : turno sv ev t = _).
    { erewrite turno_existente by done. rewrite Hr. cbn [cuerpo].
      unfold regla_askedBirthdate. rewrite Ef.
      do 3 sigue. by apply cierre_texto; [| |apply insert_non_empty]. }
    rewrite E. split; [unfold deja; cbn [fst snd]; expone; concluye|].
    split; [guardado|]. by apply validar_fecha_sql.
  - eassert (E : turno sv ev t = _).
    { erewrite turno_existente by done. rewrite Hr. cbn [cuerpo].
      unfold regla_askedBirthdate. rewrite Ef.
      do 2 sigue. by apply cierre_texto; [| |apply insert_non_empty]. }
    rewrite E. split; [unfold deja; cbn [fst snd]; expone; concluye|]. guardado.
Qed.

(** X9.  At [askedEmail] the text is kept as the e-mail, and the gender
    buttons are shown, exactly when [correo_es_valido] accepts it; any other
    text is answered with the request for a valid address, and the step and
    the stored e-mail stay as they were. *)
Theorem askedEmail_correo sv ev t u step nombre modo :
  evento_valido ev -> t !! ev_chat_id ev = Some u -> u <> ∅ ->
  u !! "step" = Some step -> u !! "nombre" = Some nombre ->
  u !! "modo" = Some (VStr modo) -> bien_tipado u ->
  regla_de (master_de u) (paso_despachado u (mensaje_decoded_de ev) step) (VStr modo)
    (mensaje_decoded_de ev) = RAskedEmail ->
  if correo_es_valido (mensaje_decoded_de ev)
  then
    deja (turno sv ev t) (ev_chat_id ev)
      [SendButtons (ev_chat_id ev) "Por último, selecciona tu género:"
         [("M", "Masculino"); ("F", "Femenino")]] "askedSex" modo /\
    campo_guardado (turno sv ev t) (ev_chat_id ev) "email"
      = Some (VStr (mensaje_decoded_de ev))
  else
    deja (turno sv ev t) (ev_chat_id ev)
      [SendText (ev_chat_id ev)
         "El correo electrónico ingresado no es válido. Por favor, ingresa un correo electrónico válido."]
      "askedEmail" modo /\
    campo_guardado (turno sv ev t) (ev_chat_id ev) "email" = u !! "email".
Proof.
  intros Hev Ht Hu Hstep Hnombre Hmodo Hb Hr.
  pose proof (regla_askedEmail_paso _ _ _ _ Hr) as Hpaso.
  pose proof (usuario_despachado_step u (mensaje_decoded_de ev) step Hb Hstep) as Hs.
  rewrite Hpaso in Hs.
  destruct (correo_es_valido (mensaje_decoded_de ev)) eqn:Ec.
  - eassert (E : turno sv ev t = _).
    { erewrite turno_existente by done. rewrite Hr. cbn [cuerpo].
      unfold regla_askedEmail. rewrite Ec.
      do 4 sigue. by apply cierre_texto; [| |apply insert_non_empty]. }
    rewrite E. split; [unfold deja; cbn [fst snd]; expone; concluye|]. guardado.
  - eassert (E : turno sv ev t = _).
    { erewrite turno_existente by done. rewrite Hr. cbn [cuerpo].
      unfold regla_askedEmail. rewrite Ec.
      entera. apply cierre_texto; [done|done|].
      expone. by apply usuario_despachado_no_vacio. }
    rewrite E. split; [|guardado].
    unfold deja; cbn [fst snd]; expone.
    repeat split. eexists. split; [apply lookup_insert_eq|].
    split; apply lookup_union_Some_l; [exact Hs|busca].
Qed.

(** X10.  At [askedParent] the kinship is kept, trimmed and in lower case,
    exactly when [parentesco_valido] accepts the text; what is kept is then
    one of the eight kinships.  Any other text is answered with the list of
    kinships, and the step and the stored kinship stay as they were. *)
Theorem askedParent_parentesco sv ev t u step nombre modo :
  evento_valido ev -> t !! ev_chat_id ev = Some u -> u <> ∅ ->
  u !! "step" = Some step -> u !! "nombre" = Some nombre ->
  u !! "modo" = Some (VStr modo) -> bien_tipado u ->
  regla_de (master_de u) (paso_despachado u (mensaje_decoded_de ev) step) (VStr modo)
    (mensaje_decoded_de ev) = RAskedParent ->
  let parentesco := lower (str_strip (mensaje_decoded_de ev)) in
  if parentesco_valido (mensaje_decoded_de ev)
  then
    deja (turno sv ev t) (ev_chat_id ev)
      [SendText (ev_chat_id ev)
         ("Escribe la fecha de nacimiento de tu " +:+ parentesco +:+ ":")]
      "askedBirthdateParent" modo /\
    campo_guardado (turno sv ev t) (ev_chat_id ev) "parentesco" = Some (VStr parentesco) /\
    parentesco ∈ ["madre"; "padre"; "esposo"; "esposa"; "hijo"; "hija"; "hermano"; "hermana"]
  else
    deja (turno sv ev t) (ev_chat_id ev)
      [SendText (ev_chat_id ev)
         "El parentesco no es correcto. Por favor, escribe alguna de estas opciones: Madre, Padre, Esposo, Esposa, Hijo, Hija, Hermano o Hermana"]
      "askedParent" modo /\
    campo_guardado (turno sv ev t) (ev_chat_id ev) "parentesco" = u !! "parentesco".
Proof.
  intros Hev Ht Hu Hstep Hnombre Hmodo Hb Hr parentesco.
  pose proof (regla_askedParent_paso _ _ _ _ Hr) as Hpaso.
  pose proof (usuario_despachado_step u (mensaje_decoded_de ev) step Hb Hstep) as Hs.
  rewrite Hpaso in Hs.
  destruct (parentesco_valido (mensaje_decoded_de ev)) eqn:Ec.
  - eassert (E : turno sv ev t = _).
    { erewrite turno_existente by done. rewrite Hr. cbn [cuerpo].
      unfold regla_askedParent. rewrite Ec. cbv zeta.
      do 3 sigue. by apply cierre_texto; [| |apply insert_non_empty]. }
    rewrite E. split; [unfold deja; cbn [fst snd]; expone; concluye|].
    split; [guardado|]. unfold parentesco_valido in Ec.
    by apply bool_decide_eq_true in Ec.
  - eassert (E : turno sv ev t = _).
    { erewrite turno_existente by done. rewrite Hr. cbn [cuerpo].
      unfold regla_askedParent. rewrite Ec.
      entera. apply cierre_texto; [done|done|].
      expone. by apply usuario_despachado_no_vacio. }
    rewrite E. split; [|guardado].
    unfold deja; cbn [fst snd]; expone.
    repeat split. eexists. split; [apply lookup_insert_eq|].
    split; apply lookup_union_Some_l; [exact Hs|busca].
Qed.


Lemma regla_waitForQuestion_paso master step modo m :
  regla_de master step modo m = RWaitForQuestion -> step = VStr "waitForQuestion".
Proof. paso_de_regla. Qed.






Ltac avanza := repeat first [sigue | mira].


(** X14.  The first message of a sender without a stored profile, whatever
    its text, is answered as [Hola] is: the greeting with the display name
    and the request for the birth date, and the new profile is left at
    [askedBirthdate]; only [chatgpt] and [dr seguro] are taken as the keyword
    they are, and lead to [waitForQuestion]. *)
Theorem primer_mensaje sv ev t :
  evento_valido ev -> t !! ev_chat_id ev = None ->
  if (mensaje_decoded_de ev =? "chatgpt")%string ||
     (mensaje_decoded_de ev =? "dr seguro")%string
  then deja (turno sv ev t) (ev_chat_id ev)
         [SendText (ev_chat_id ev) adelante] "waitForQuestion" "normal"
  else deja (turno sv ev t) (ev_chat_id ev)
         [SendText (ev_chat_id ev)
            ("Hola *" +:+ profile_name_de ev +:+
             "*, espero te encuentres bien. Soy *TUBOT*, ejecutivo virtual de *TUEMPRESA*. Es un gusto para mí atenderte para ofrecerte diferentes opciones de seguros de salud.");
          SendText (ev_chat_id ev) pide_fecha]
         "askedBirthdate" "normal".
Proof.
  intros Hev Ht. pose proof Hev as Hev0.
  pose proof (profile_name_no_vacio (ev_first_name ev) (ev_last_name ev)) as Hpn.
  fold (profile_name_de ev) in Hpn.
  set (pn := profile_name_de ev) in *.
  set (m := mensaje_decoded_de ev).
  assert (Hv : veq (VStr pn) EmptyString = false) by exact Hpn.
  assert (Hn : nombre_de pn (VStr pn) = VStr pn)
    by (unfold nombre_de; by rewrite Hv, Hpn).
  assert (Hregla : regla_de (VStr "OFF") (VStr "start") (VStr "normal") m
                   = if (m =? "chatgpt")%string || (m =? "dr seguro")%string
                     then RChatgpt else RStart).
  { unfold regla_de. cbv zeta.
    by destruct ((m =? "chatgpt")%string || (m =? "dr seguro")%string). }
  destruct Hev as (Hev1 & Hev2 & Hbot).
  assert (Hd : forall s,
    usuario s = usuario_nuevo pn ->
    despacho sv (ev_chat_id ev) pn (obtener_boton ev (ev_text ev)) s
    = (cuerpo sv (ev_chat_id ev) m (VStr pn) (VStr "user") (VStr "OFF")
         (if (m =? "chatgpt")%string || (m =? "dr seguro")%string
          then RChatgpt else RStart)
       ≫= fun _ => cierre (ev_chat_id ev)) s).
  { intros s Hs.
    rewrite (despacho_eq _ _ _ _ _ (VStr "start") (VStr pn) (VStr "normal"));
      try done; try (by rewrite Hs); [|left; by rewrite Hs].
    rewrite Hs.
    change (lower (obtener_boton ev (ev_text ev))) with m.
    change (usuario_nuevo pn !! "rol") with (@None value).
    change (usuario_nuevo pn !! "developer") with (@None value).
    change (master_de (usuario_nuevo pn)) with (VStr "OFF").
    change (paso_despachado (usuario_nuevo pn) m (VStr "start")) with (VStr "start").
    change (usuario_despachado (usuario_nuevo pn) m (VStr "start")) with (usuario_nuevo pn).
    rewrite Hregla, Hn. cbn [default]. rewrite <- Hs. by destruct s. }
  destruct ((m =? "chatgpt")%string || (m =? "dr seguro")%string).
  - eassert (E : turno sv ev t = _).
    { rewrite turno_valido by exact Hev0. fold pn.
      eapply paso_Ok; [apply cargar_nuevo; [done | by apply String.eqb_neq]|].
      rewrite Hd by done.
      cbn [cuerpo]. unfold regla_chatgpt.
      do 2 sigue. by apply cierre_texto; [| |apply insert_non_empty]. }
    rewrite E. unfold deja. cbn [fst snd]. expone.
    repeat split. eexists. split; [apply lookup_insert_eq|].
    split; apply lookup_union_Some_l; by simplify_map_eq.
  - eassert (E : turno sv ev t = _).
    { rewrite turno_valido by exact Hev0. fold pn.
      eapply paso_Ok; [apply cargar_nuevo; [done | by apply String.eqb_neq]|].
      rewrite Hd by done.
      cbn [cuerpo]. unfold regla_start. rewrite Hv.
      change (veq (VStr "user") "admin") with false.
      change (veq (VStr "user") "developer") with false. cbv iota.
      entera. by apply cierre_texto; [| |apply insert_non_empty]. }
    rewrite E. unfold deja. cbn [fst snd]. expone.
    repeat split. eexists. split; [apply lookup_insert_eq|].
    split; apply lookup_union_Some_l; by simplify_map_eq.
Qed.

(** X15.  In mode [normal] and with the master flag off, [hola] and [/start]
    restart the quote from every step and whatever the shortcut table holds:
    a user who is neither [admin] nor [developer] and has a name is greeted
    by it and asked for the birth date, the profile is left at
    [askedBirthdate], the policy is set to [Salud] and the stored quote id is
    emptied. *)
Theorem hola_reinicia sv ev t u step n :
  evento_valido ev -> t !! ev_chat_id ev = Some u -> u <> ∅ ->
  u !! "step" = Some step -> u !! "nombre" = Some (VStr n) -> n <> EmptyString ->
  u !! "modo" = Some (VStr "normal") -> bien_tipado u ->
  veq (master_de u) "ON" = false ->
  veq (default (VStr "user") (u !! "rol")) "admin" = false ->
  veq (default (VStr "user") (u !! "rol")) "developer" = false ->
  mensaje_decoded_de ev = "hola" \/ mensaje_decoded_de ev = "/start" ->
  deja (turno sv ev t) (ev_chat_id ev)
    [SendText (ev_chat_id ev)
       ("Hola *" +:+ n +:+
        "*, espero te encuentres bien. Soy *TUBOT*, ejecutivo virtual de *TUEMPRESA*. Es un gusto para mí atenderte para ofrecerte diferentes opciones de seguros de salud.");
     SendText (ev_chat_id ev) pide_fecha]
    "askedBirthdate" "normal" /\
  campo_guardado (turno sv ev t) (ev_chat_id ev) "poliza" = Some (VStr "Salud") /\
  campo_guardado (turno sv ev t) (ev_chat_id ev) "cotiza" = Some (VStr EmptyString).
Proof.
  intros Hev Ht Hu Hstep Hnombre Hn Hmodo Hb Hmaster Hadmin Hdev Hm.
  assert (Hv : veq (VStr n) EmptyString = false) by (by apply String.eqb_neq).
  assert (Hnom : nombre_de (profile_name_de ev) (VStr n) = VStr n).
  { unfold nombre_de. by rewrite Hv, andb_false_r. }
  assert (Hr : regla_de (master_de u) (paso_despachado u (mensaje_decoded_de ev) step)
                 (VStr "normal") (mensaje_decoded_de ev) = RStart).
  { unfold regla_de. cbv zeta. rewrite Hmaster.
    destruct Hm as [-> | ->]; cbn -[paso_despachado]; by rewrite !orb_true_r. }
  eassert (E : turno sv ev t = _).
  { erewrite turno_existente by done. rewrite Hr, Hnom. cbn [cuerpo].
    unfold regla_start. rewrite Hv, Hadmin, Hdev.
    do 6 sigue. by apply cierre_texto; [| |apply insert_non_empty]. }
  rewrite E. split; [unfold deja; cbn [fst snd]; expone; concluye|]. split; guardado.
Qed.

(** X16.  A message whose sender is the bot's own number is not ignored: the
    branch that should answer [ignored] calls [jsonify], which the module
    neither defines nor imports, so the turn ends with [NameError] and
    nothing is sent. *)
Theorem remitente_bot sv ev t :
  ev_chat_id ev = "YOUR_BOT_PHONE_NUMBER" -> no_vacio (Some (ev_text ev)) = true ->
  (forall u, t !! ev_chat_id ev = Some u -> u <> ∅ ->
             is_Some (u !! "step") /\ is_Some (u !! "nombre")) ->
  (turno sv ev t).1 = Raise (NameError "jsonify") /\ enviados (turno sv ev t).2 = [].
Proof.
  intros Hchat Htext Hcampos.
  assert (Hd : forall s, is_Some (usuario s !! "step") -> is_Some (usuario s !! "nombre") ->
    despacho sv "YOUR_BOT_PHONE_NUMBER" (profile_name_de ev)
      (obtener_boton ev (ev_text ev)) s = (Raise (NameError "jsonify"), s)).
  { intros s [v1 H1] [v2 H2]. unfold despacho.
    erewrite bind_Ok by (by apply leer_Some).
    erewrite bind_Ok by (by apply leer_Some).
    do 3 (erewrite bind_Ok by reflexivity). reflexivity. }
  unfold turno, lambda_handler. cbv zeta. rewrite Htext, Hchat. cbn [no_vacio negb orb].
  fold (profile_name_de ev). rewrite Hchat in Hcampos.
  destruct (cargar_casos "YOUR_BOT_PHONE_NUMBER" (profile_name_de ev) t)
    as [(u & Hu & Hne & H)|[_ H]].
  - erewrite bind_Ok by exact H. destruct (Hcampos u Hu Hne) as [H1 H2].
    by rewrite Hd.
  - erewrite bind_Ok by exact H. rewrite Hd; [done| |]; cbn; by eexists.
Qed.

(** *** The rules at concrete turns *)

Lemma askedBirthdate_fecha_navidad :
  let ev := mensaje_de "25/12/1990" in
  let u := perfil_cotizando "askedBirthdate" "normal" in
  let t : gmap string (gmap string value) := {["42" := u]} in
  (evento_valido ev /\ t !! ev_chat_id ev = Some u /\ u <> ∅ /\
   u !! "step" = Some (VStr "askedBirthdate") /\ u !! "nombre" = Some (VStr "Ana Diaz") /\
   u !! "modo" = Some (VStr "normal") /\ bien_tipado u /\
   regla_de (master_de u)
     (paso_despachado u (mensaje_decoded_de ev) (VStr "askedBirthdate"))
     (VStr "normal") (mensaje_decoded_de ev) = RAskedBirthdate) /\
  deja (turno servicios_en_pie ev t) "42"
    [SendText "42" "Y ahora tu correo electrónico."] "askedEmail" "normal" /\
  campo_guardado (turno servicios_en_pie ev t) "42" "fecha" = Some (VStr "25/12/1990") /\
  fecha_sql "25/12/1990" = Some "1990-12-25".
Proof.
  intros ev u t.
  assert (H1 : evento_valido ev) by evento_ok.
  assert (H2 : t !! ev_chat_id ev = Some u) by reflexivity.
  assert (H3 : u <> ∅) by no_vacio_mapa.
  assert (H4 : u !! "step" = Some (VStr "askedBirthdate")) by reflexivity.
  assert (H5 : u !! "nombre" = Some (VStr "Ana Diaz")) by reflexivity.
  assert (H6 : u !! "modo" = Some (VStr "normal")) by reflexivity.
  assert (H7 : bien_tipado u) by (left; reflexivity).
  assert (H8 : regla_de (master_de u)
                 (paso_despachado u (mensaje_decoded_de ev) (VStr "askedBirthdate"))
                 (VStr "normal") (mensaje_decoded_de ev) = RAskedBirthdate) by reflexivity.
  exact (conj (conj H1 (conj H2 (conj H3 (conj H4 (conj H5 (conj H6 (conj H7 H8)))))))
           (askedBirthdate_fecha servicios_en_pie ev t u _ _ _ H1 H2 H3 H4 H5 H6 H7 H8)).
Defined.

Lemma askedEmail_correo_ana :
  let ev := mensaje_de "Ana@Correo.com" in
  let u := perfil_cotizando "askedEmail" "normal" in
  let t : gmap string (gmap string value) := {["42" := u]} in
  (evento_valido ev /\ t !! ev_chat_id ev = Some u /\ u <> ∅ /\
   u !! "step" = Some (VStr "askedEmail") /\ u !! "nombre" = Some (VStr "Ana Diaz") /\
   u !! "modo" = Some (VStr "normal") /\ bien_tipado u /\
   regla_de (master_de u)
     (paso_despachado u (mensaje_decoded_de ev) (VStr "askedEmail"))
     (VStr "normal") (mensaje_decoded_de ev) = RAskedEmail) /\
  deja (turno servicios_en_pie ev t) "42"
    [SendButtons "42" "Por último, selecciona tu género:"
       [("M", "Masculino"); ("F", "Femenino")]] "askedSex" "normal" /\
  campo_guardado (turno servicios_en_pie ev t) "42" "email" = Some (VStr "ana@correo.com").
Proof.
  intros ev u t.
  assert (H1 : evento_valido ev) by evento_ok.
  assert (H2 : t !! ev_chat_id ev = Some u) by reflexivity.
  assert (H3 : u <> ∅) by no_vacio_mapa.
  assert (H4 : u !! "step" = Some (VStr "askedEmail")) by reflexivity.
  assert (H5 : u !! "nombre" = Some (VStr "Ana Diaz")) by reflexivity.
  assert (H6 : u !! "modo" = Some (VStr "normal")) by reflexivity.
  assert (H7 : bien_tipado u) by (left; reflexivity).
  assert (H8 : regla_de (master_de u)
                 (paso_despachado u (mensaje_decoded_de ev) (VStr "askedEmail"))
                 (VStr "normal") (mensaje_decoded_de ev) = RAskedEmail) by reflexivity.
  exact (conj (conj H1 (conj H2 (conj H3 (conj H4 (conj H5 (conj H6 (conj H7 H8)))))))
           (askedEmail_correo servicios_en_pie ev t u _ _ _ H1 H2 H3 H4 H5 H6 H7 H8)).
Defined.

Lemma askedParent_parentesco_madre :
  let ev := mensaje_de " Madre " in
  let u := perfil_cotizando "askedParent" "normal" in
  let t : gmap string (gmap string value) := {["42" := u]} in
  (evento_valido ev /\ t !! ev_chat_id ev = Some u /\ u <> ∅ /\
   u !! "step" = Some (VStr "askedParent") /\ u !! "nombre" = Some (VStr "Ana Diaz") /\
   u !! "modo" = Some (VStr "normal") /\ bien_tipado u /\
   regla_de (master_de u)
     (paso_despachado u (mensaje_decoded_de ev) (VStr "askedParent"))
     (VStr "normal") (mensaje_decoded_de ev) = RAskedParent) /\
  deja (turno servicios_en_pie ev t) "42"
    [SendText "42" "Escribe la fecha de nacimiento de tu madre:"]
    "askedBirthdateParent" "normal" /\
  campo_guardado (turno servicios_en_pie ev t) "42" "parentesco" = Some (VStr "madre") /\
  "madre" ∈ ["madre"; "padre"; "esposo"; "esposa"; "hijo"; "hija"; "hermano"; "hermana"].
Proof.
  intros ev u t.
  assert (H1 : evento_valido ev) by evento_ok.
  assert (H2 : t !! ev_chat_id ev = Some u) by reflexivity.
  assert (H3 : u <> ∅) by no_vacio_mapa.
  assert (H4 : u !! "step" = Some (VStr "askedParent")) by reflexivity.
  assert (H5 : u !! "nombre" = Some (VStr "Ana Diaz")) by reflexivity.
  assert (H6 : u !! "modo" = Some (VStr "normal")) by reflexivity.
  assert (H7 : bien_tipado u) by (left; reflexivity).
  assert (H8 : regla_de (master_de u)
                 (paso_despachado u (mensaje_decoded_de ev) (VStr "askedParent"))
                 (VStr "normal") (mensaje_decoded_de ev) = RAskedParent) by reflexivity.
  exact (conj (conj H1 (conj H2 (conj H3 (conj H4 (conj H5 (conj H6 (conj H7 H8)))))))
           (askedParent_parentesco servicios_en_pie ev t u _ _ _
              H1 H2 H3 H4 H5 H6 H7 H8)).
Defined.




Lemma primer_mensaje_buenas :
  let ev := mensaje_de "Buenas tardes" in
  (evento_valido ev /\ (∅ : gmap string (gmap string value)) !! ev_chat_id ev = None) /\
  deja (turno servicios_en_pie ev ∅) "42"
    [SendText "42"
       "Hola *Ana Diaz*, espero te encuentres bien. Soy *TUBOT*, ejecutivo virtual de *TUEMPRESA*. Es un gusto para mí atenderte para ofrecerte diferentes opciones de seguros de salud.";
     SendText "42" pide_fecha]
    "askedBirthdate" "normal".
Proof.
  intros ev.
  assert (H1 : evento_valido ev) by evento_ok.
  assert (H2 : (∅ : gmap string (gmap string value)) !! ev_chat_id ev = None)
    by reflexivity.
  exact (conj (conj H1 H2) (primer_mensaje servicios_en_pie ev ∅ H1 H2)).
Defined.

Lemma hola_reinicia_en_askedEmail :
  let ev := mensaje_de "Hola" in
  let u := perfil_cotizando "askedEmail" "normal" in
  let t : gmap string (gmap string value) := {["42" := u]} in
  (evento_valido ev /\ t !! ev_chat_id ev = Some u /\ u <> ∅ /\
   u !! "step" = Some (VStr "askedEmail") /\ u !! "nombre" = Some (VStr "Ana Diaz") /\
   "Ana Diaz" <> EmptyString /\ u !! "modo" = Some (VStr "normal") /\ bien_tipado u /\
   veq (master_de u) "ON" = false /\
   veq (default (VStr "user") (u !! "rol")) "admin" = false /\
   veq (default (VStr "user") (u !! "rol")) "developer" = false /\
   (mensaje_decoded_de ev = "hola" \/ mensaje_decoded_de ev = "/start")) /\
  deja (turno servicios_en_pie ev t) "42"
    [SendText "42"
       "Hola *Ana Diaz*, espero te encuentres bien. Soy *TUBOT*, ejecutivo virtual de *TUEMPRESA*. Es un gusto para mí atenderte para ofrecerte diferentes opciones de seguros de salud.";
     SendText "42" pide_fecha]
    "askedBirthdate" "normal" /\
  campo_guardado (turno servicios_en_pie ev t) "42" "poliza" = Some (VStr "Salud") /\
  campo_guardado (turno servicios_en_pie ev t) "42" "cotiza" = Some (VStr EmptyString).
Proof.
  intros ev u t.
  assert (H1 : evento_valido ev) by evento_ok.
  assert (H2 : t !! ev_chat_id ev = Some u) by reflexivity.
  assert (H3 : u <> ∅) by no_vacio_mapa.
  assert (H4 : u !! "step" = Some (VStr "askedEmail")) by reflexivity.
  assert (H5 : u !! "nombre" = Some (VStr "Ana Diaz")) by reflexivity.
  assert (H6 : "Ana Diaz" <> EmptyString) by discriminate.
  assert (H7 : u !! "modo" = Some (VStr "normal")) by reflexivity.
  assert (H8 : bien_tipado u) by (left; reflexivity).
  assert (H9 : veq (master_de u) "ON" = false) by reflexivity.
  assert (H10 : veq (default (VStr "user") (u !! "rol")) "admin" = false) by reflexivity.
  assert (H11 : veq (default (VStr "user") (u !! "rol")) "developer" = false)
    by reflexivity.
  assert (H12 : mensaje_decoded_de ev = "hola" \/ mensaje_decoded_de ev = "/start")
    by (left; reflexivity).
  exact (conj (conj H1 (conj H2 (conj H3 (conj H4 (conj H5 (conj H6 (conj H7 (conj H8
                 (conj H9 (conj H10 (conj H11 H12)))))))))))
           (hola_reinicia servicios_en_pie ev t u _ _
              H1 H2 H3 H4 H5 H6 H7 H8 H9 H10 H11 H12)).
Defined.

Lemma remitente_bot_hola :
  let ev := Evento "YOUR_BOT_PHONE_NUMBER" "Hola" "Tu" "Bot" None in
  let t : gmap string (gmap string value) := ∅ in
  (ev_chat_id ev = "YOUR_BOT_PHONE_NUMBER" /\ no_vacio (Some (ev_text ev)) = true /\
   (forall u, t !! ev_chat_id ev = Some u -> u <> ∅ ->
              is_Some (u !! "step") /\ is_Some (u !! "nombre"))) /\
  (turno servicios_en_pie ev t).1 = Raise (NameError "jsonify") /\
  enviados (turno servicios_en_pie ev t).2 = [].
Proof.
  intros ev t.
  assert (H1 : ev_chat_id ev = "YOUR_BOT_PHONE_NUMBER") by reflexivity.
  assert (H2 : no_vacio (Some (ev_text ev)) = true) by reflexivity.
  assert (H3 : forall u, t !! ev_chat_id ev = Some u -> u <> ∅ ->
                         is_Some (u !! "step") /\ is_Some (u !! "nombre"))
    by (intros u Hu; unfold t in Hu; by rewrite lookup_empty in Hu).
  exact (conj (conj H1 (conj H2 H3)) (remitente_bot servicios_en_pie ev t H1 H2 H3)).
Defined.

(** *** The steps a profile can be at *)

Lemma agregar_opciones_pasos h ops paso k p :
  agregar_opciones h ops (PasoUnico paso) !! k = Some p -> p = paso \/ h !! k = Some p.
Proof.
  rewrite agregar_opciones_registrar. intros H.
  destruct (decide (k ∈ lower <$> ops)) as [Hin|Hnin].
  - left. apply list_elem_of_fmap in Hin as (o & -> & Ho).
    rewrite (registrar_valor lower
               (fun o => default "start" (paso_de ops (PasoUnico paso) !! lower o))
               ops paso) in H; [congruence| |done].
    intros o' Ho'. by rewrite paso_de_unico.
  - right. rewrite <- H. symmetry. apply (registrar_ajeno lower).
    intros o Ho <-. apply Hnin, list_elem_of_fmap. by exists o.
Qed.

Lemma alcanzable_insert k v u :
  k <> "step" -> k <> "historial" -> alcanzable u -> alcanzable (<[k := v]> u).
Proof.
  intros H1 H2 [(p & Hp & Hs) Hh]. split.
  - exists p. by rewrite lookup_insert_ne.
  - by rewrite historial_de_insert_ne.
Qed.

Lemma alcanzable_paso paso u :
  paso ∈ pasos_asignados -> alcanzable u -> alcanzable (<["step" := VStr paso]> u).
Proof.
  intros Hp [_ Hh]. split.
  - exists paso. by rewrite lookup_insert_eq.
  - by rewrite historial_de_insert_ne.
Qed.

Lemma alcanzable_con_userID u id :
  alcanzable u -> alcanzable (u ∪ {["userID" := VStr id]}).
Proof.
  intros [(p & Hp & Hs) Hh]. split.
  - exists p. by rewrite lookup_con_userID.
  - by rewrite historial_de_con_userID.
Qed.

Lemma alcanzable_usuario_nuevo pn : alcanzable (usuario_nuevo pn).
Proof.
  split.
  - exists "start". split; [esta|done].
  - intros k paso H. unfold historial_de in H.
    rewrite usuario_nuevo_no_asignado in H by (by apply no_asignado).
    by rewrite lookup_empty in H.
Qed.

Lemma alcanzable_remitente sv ev t :
  (forall u, t !! ev_chat_id ev = Some u -> u <> ∅ -> alcanzable u) ->
  forall u', tabla (turno sv ev t).2 !! ev_chat_id ev = Some u' -> u' <> ∅ ->
             alcanzable u'.
Proof.
  intros Ht.
  destruct (turno_casos sv ev t) as [->|(s1 & Hc & ->)]; [exact Ht|].
  set (sender := ev_chat_id ev) in *.
  set (P := fun s =>
    alcanzable (usuario s) /\ exists u', tabla s !! sender = Some u' /\ alcanzable u').
  assert (H1 : P s1).
  { destruct (cargar_casos sender (profile_name_de ev) t)
      as [(u0 & Hu0 & Hne & H)|[Hn H]]; rewrite H in Hc; injection Hc as <-.
    - split; [by apply Ht|]. exists u0. split; [done|by apply Ht].
    - split; [apply alcanzable_usuario_nuevo|].
      eexists. split; [apply lookup_insert_eq|].
      apply alcanzable_con_userID, alcanzable_usuario_nuevo. }
  enough (cumple P (fun _ => True) false
            (despacho sv sender (profile_name_de ev) (obtener_boton ev (ev_text ev))))
    as H.
  { destruct (H s1 H1) as ((_ & u'' & H2 & H3) & _); [done|].
    intros u' Hu' _. by assert (u' = u'') as -> by congruence. }
  apply cumple_despacho; try done; try (by right); unfold P.
  - intros s k v [Hk Hv] [H2 H3]. split; [|done]. cbn.
    destruct (decide (k = "step")) as [->|Hne].
    + destruct Hv as (paso & Hp & ->); [done|]. by apply alcanzable_paso.
    + apply alcanzable_insert; [done| |done]. by apply (asignado_ne _ _ Hk).
  - intros s k paso Hh [H2 H3]. split; [|done]. cbn.
    apply alcanzable_paso; [|done]. by apply (proj2 H2 k).
  - intros s ops paso Hp [[(p & Hp' & Hs) Hh] H3]. split; [|done]. cbn. split.
    + exists p. by rewrite lookup_insert_ne.
    + intros k p'. unfold historial_de at 1. rewrite lookup_insert_eq.
      intros [->|H]%agregar_opciones_pasos; [done|by eapply Hh].
  - intros s [H2 H3]. split; [done|]. cbn. eexists. split; [apply lookup_insert_eq|].
    by apply alcanzable_con_userID.
  - intros s ud v Hud _ [H2 (u' & H3 & H4)]. split; [done|]. cbn.
    destruct (decide (sender = "deyna")) as [Heq|Hne].
    + rewrite Heq in *. eexists. split; [apply lookup_insert_eq|].
      assert (ud = u') as -> by congruence.
      by apply alcanzable_con_userID, alcanzable_insert.
    + exists u'. by rewrite lookup_insert_ne.
Qed.

Lemma alcanzable_ajeno sv ev t k :
  k <> ev_chat_id ev ->
  (forall u, t !! k = Some u -> u <> ∅ -> alcanzable u) ->
  forall u', tabla (turno sv ev t).2 !! k = Some u' -> u' <> ∅ -> alcanzable u'.
Proof.
  intros Hk Ht.
  destruct (turno_casos sv ev t) as [->|(s1 & Hc & ->)]; [exact Ht|].
  set (sender := ev_chat_id ev) in *.
  set (P := fun s => forall u, tabla s !! k = Some u -> u <> ∅ -> alcanzable u).
  assert (H1 : P s1).
  { destruct (cargar_casos sender (profile_name_de ev) t)
      as [(u0 & Hu0 & Hne & H)|[Hn H]]; rewrite H in Hc; injection Hc as <-; [done|].
    intros u. cbn. rewrite lookup_insert_ne by done. apply Ht. }
  enough (cumple P (fun _ => True) false
            (despacho sv sender (profile_name_de ev) (obtener_boton ev (ev_text ev))))
    as H by (by apply H).
  apply cumple_despacho; try done; try (by right); unfold P.
  - intros s H2 u. cbn. rewrite lookup_insert_ne by done. apply H2.
  - intros s ud v Hud Hne H2 u. cbn.
    destruct (decide ("deyna" = k)) as [<-|Hne'].
    + rewrite lookup_insert_eq. intros [= <-] _.
      apply alcanzable_con_userID, alcanzable_insert; [done..|]. by apply H2.
    + rewrite lookup_insert_ne by done. apply H2.
Qed.

(** X27.  A turn keeps, record by record, that a stored profile is at a step
    that the rules assign and that its shortcut table leads to such steps
    only: for every user of the table, a profile of which this holds before
    the turn (or which is absent or empty) is one of which it holds after
    the turn, however the turn ends; the profile that the turn creates for a
    new sender is one of them. *)
Theorem pasos_alcanzables sv ev t k :
  (forall u, t !! k = Some u -> u <> ∅ -> alcanzable u) ->
  forall u', tabla (turno sv ev t).2 !! k = Some u' -> u' <> ∅ -> alcanzable u'.
Proof.
  destruct (decide (k = ev_chat_id ev)) as [->|Hne].
  - apply alcanzable_remitente.
  - by apply alcanzable_ajeno.
Qed.

(** *** Rules that no conversation reaches *)

Lemma no_asignado_paso paso :
  bool_decide (paso ∈ pasos_asignados) = false -> paso ∉ pasos_asignados.
Proof. by intros H%bool_decide_eq_false. Qed.

Lemma regla_de_paso master step modo m :
  let r := regla_de master step modo m in
  (r = RAskedOnlyName -> veq step "askedOnlyName" = true) /\
  (r = RAskedName -> veq step "askedName" = true) /\
  (r = REndCotiza -> veq step "endCotiza" = true) /\
  (r = RGandalf -> veq step "gandalf" = true).
Proof.
  cbv zeta. unfold regla_de. cbv zeta.
  repeat (case_match; [repeat split; first [discriminate | done]|]).
  repeat split; discriminate.
Qed.

Lemma paso_despachado_alcanzable u m step :
  alcanzable u -> u !! "step" = Some step ->
  exists paso, (paso ∈ pasos_asignados) /\ paso_despachado u m step = VStr paso.
Proof.
  intros [(p & Hp & Hs) Hh] Hstep. assert (step = VStr p) as -> by congruence.
  assert (He : exists paso, (paso ∈ pasos_asignados) /\
                            paso_efectivo u m (VStr p) = VStr paso).
  { unfold paso_efectivo, historial_de in *.
    destruct (u !! "historial") as [[]|]; eauto.
    case_match; eauto. }
  unfold paso_despachado. cbv zeta. case_match; [|done].
  exists "master". split; [esta|done].
Qed.

(** X28.  A turn for a stored profile runs the rule that the step after the
    shortcut override selects, and for a profile at a step that the rules
    assign, whose shortcut table leads to such steps only, this is never one
    of the rules for the steps [askedOnlyName], [askedName], [endCotiza] and
    [gandalf]: no rule assigns these steps and no menu registers them. *)
Theorem reglas_sin_uso sv ev t u step nombre modo :
  evento_valido ev -> t !! ev_chat_id ev = Some u -> alcanzable u -> bien_tipado u ->
  u !! "step" = Some step -> u !! "nombre" = Some nombre -> u !! "modo" = Some modo ->
  let m := mensaje_decoded_de ev in
  let r := regla_de (master_de u) (paso_despachado u m step) modo m in
  turno sv ev t
  = (cuerpo sv (ev_chat_id ev) m (nombre_de (profile_name_de ev) nombre)
       (default (VStr "user") (u !! "rol")) (default (VStr "OFF") (u !! "developer")) r
     ≫= fun _ => cierre (ev_chat_id ev))
      (Estado t [] (usuario_despachado u m step) None [] [] None None) /\
  r <> RAskedOnlyName /\ r <> RAskedName /\ r <> REndCotiza /\ r <> RGandalf.
Proof.
  intros Hev Ht Ha Hb Hstep Hnombre Hmodo m r. split.
  - apply turno_existente; try done. intros ->. destruct Ha as [(p & _ & Hp) _].
    by rewrite lookup_empty in Hp.
  - destruct (paso_despachado_alcanzable u m step Ha Hstep) as (paso & Hp & E).
    destruct (regla_de_paso (master_de u) (paso_despachado u m step) modo m)
      as (H1 & H2 & H3 & H4).
    fold r in H1, H2, H3, H4. rewrite E in H1, H2, H3, H4. cbn [veq] in *.
    repeat split; intros Hr.
    + apply H1, String.eqb_eq in Hr as ->. revert Hp. by apply no_asignado_paso.
    + apply H2, String.eqb_eq in Hr as ->. revert Hp. by apply no_asignado_paso.
    + apply H3, String.eqb_eq in Hr as ->. revert Hp. by apply no_asignado_paso.
    + apply H4, String.eqb_eq in Hr as ->. revert Hp. by apply no_asignado_paso.
Qed.

(** *** The reachable steps at concrete turns *)

Lemma alcanzable_perfil_master : alcanzable (perfil_master "start" "normal").
Proof.
  split.
  - exists "start". split; [esta|reflexivity].
  - assert (H : map_Forall (fun _ paso => paso ∈ pasos_asignados)
                  (historial_de (perfil_master "start" "normal")))
      by (apply (bool_decide_unpack _); vm_compute; exact I).
    intros k paso Hk. exact (H k paso Hk).
Qed.

Lemma alcanzable_perfil_cotizando : alcanzable (perfil_cotizando "askedFamily" "normal").
Proof.
  split.
  - exists "askedFamily". split; [esta|reflexivity].
  - assert (H : historial_de (perfil_cotizando "askedFamily" "normal") = ∅) by reflexivity.
    intros k paso Hk. rewrite H in Hk. by rewrite lookup_empty in Hk.
Qed.

Lemma pasos_alcanzables_master :
  let ev := mensaje_de "Usuario" in
  let u := perfil_master "start" "normal" in
  let t : gmap string (gmap string value) := {["42" := u]} in
  (forall u0, t !! "42" = Some u0 -> u0 <> ∅ -> alcanzable u0) /\
  (forall u', tabla (turno servicios_en_pie ev t).2 !! "42" = Some u' ->
              u' <> ∅ -> alcanzable u').
Proof.
  intros ev u t.
  assert (H1 : forall u0, t !! "42" = Some u0 -> u0 <> ∅ -> alcanzable u0).
  { intros u0 [_ <-]%lookup_singleton_Some _. apply alcanzable_perfil_master. }
  exact (conj H1 (pasos_alcanzables servicios_en_pie ev t "42" H1)).
Defined.

Lemma reglas_sin_uso_cotizando :
  let ev := mensaje_de "Continuar" in
  let u := perfil_cotizando "askedFamily" "normal" in
  let t : gmap string (gmap string value) := {["42" := u]} in
  let m := mensaje_decoded_de ev in
  let r := regla_de (master_de u) (paso_despachado u m (VStr "askedFamily"))
             (VStr "normal") m in
  (evento_valido ev /\ t !! ev_chat_id ev = Some u /\ alcanzable u /\ bien_tipado u /\
   u !! "step" = Some (VStr "askedFamily") /\ u !! "nombre" = Some (VStr "Ana Diaz") /\
   u !! "modo" = Some (VStr "normal")) /\
  turno servicios_en_pie ev t
  = (cuerpo servicios_en_pie (ev_chat_id ev) m
       (nombre_de (profile_name_de ev) (VStr "Ana Diaz"))
       (default (VStr "user") (u !! "rol")) (default (VStr "OFF") (u !! "developer")) r
     ≫= fun _ => cierre (ev_chat_id ev))
      (Estado t [] (usuario_despachado u m (VStr "askedFamily")) None [] [] None None) /\
  r <> RAskedOnlyName /\ r <> RAskedName /\ r <> REndCotiza /\ r <> RGandalf.
Proof.
  intros ev u t m r.
  assert (H1 : evento_valido ev) by evento_ok.
  assert (H2 : t !! ev_chat_id ev = Some u) by reflexivity.
  assert (H3 : alcanzable u) by apply alcanzable_perfil_cotizando.
  assert (H4 : bien_tipado u) by (left; reflexivity).
  assert (H5 : u !! "step" = Some (VStr "askedFamily")) by reflexivity.
  assert (H6 : u !! "nombre" = Some (VStr "Ana Diaz")) by reflexivity.
  assert (H7 : u !! "modo" = Some (VStr "normal")) by reflexivity.
  exact (conj (conj H1 (conj H2 (conj H3 (conj H4 (conj H5 (conj H6 H7))))))
           (reglas_sin_uso servicios_en_pie ev t u _ _ _ H1 H2 H3 H4 H5 H6 H7)).
Defined.

End TurnoFacts.

(** ** The requests with query parameters *)

Module AdminFacts.
Import Text Fecha Historial Segmenter Handler Invariantes Admin.
Import HandlerFacts TurnoFacts.

Lemma bloque_ausente p parametro c s :
  params p !! parametro = None -> bloque p parametro c s = (Ok None, s).
Proof. intros H. unfold bloque. by rewrite H. Qed.

Lemma bloque_presente p parametro valor c s :
  method p = "GET" -> params p !! parametro = Some valor ->
  bloque p parametro c s = c valor s.
Proof. intros Hm H. unfold bloque. by rewrite H, Hm. Qed.

Lemma bloque_otro_metodo p parametro c s :
  method p <> "GET" -> bloque p parametro c s = (Ok None, s).
Proof.
  intros Hm%String.eqb_neq. unfold bloque. rewrite Hm. by destruct (params p !! parametro).
Qed.

Lemma o_sigue_None b resto s s' :
  b s = (Ok None, s') -> o_sigue b resto s = resto s'.
Proof. intros H. unfold o_sigue. by erewrite bind_Ok by exact H. Qed.

Lemma o_sigue_Some b resto s s' r :
  b s = (Ok (Some r), s') -> o_sigue b resto s = (Ok r, s').
Proof. intros H. unfold o_sigue. by erewrite bind_Ok by exact H. Qed.

Lemma o_sigue_Raise b resto s s' e :
  b s = (Raise e, s') -> o_sigue b resto s = (Raise e, s').
Proof. intros H. unfold o_sigue. by erewrite bind_Raise by exact H. Qed.

Lemma o_sigue_casos b resto s s' (B : bool) r :
  b s = (if B then Ok (Some r) else Raise TypeError, s') ->
  o_sigue b resto s = (if B then Ok r else Raise TypeError, s').
Proof.
  intros H. unfold o_sigue, mbind, M_bind. rewrite H. by destruct B.
Qed.

Lemma recuperar_existente id s u :
  tabla s !! id = Some u -> u <> ∅ -> recuperar_usuario id s = (Ok (Some u), s).
Proof. intros H Hu. unfold recuperar_usuario. by rewrite H, decide_False. Qed.

Lemma recuperar_ausente id s :
  tabla s !! id = None -> recuperar_usuario id s = (Ok None, s).
Proof. intros H. unfold recuperar_usuario. by rewrite H. Qed.

Lemma con_userID_no_vacio (u : gmap string value) id : u ∪ {["userID" := VStr id]} <> ∅.
Proof.
  intros H. apply (f_equal (fun m : gmap string value => m !! "userID")) in H.
  rewrite lookup_empty in H. destruct (u !! "userID") as [v|] eqn:E.
  - by erewrite lookup_union_Some_l in H.
  - rewrite lookup_union_r in H by done. by rewrite lookup_singleton_eq in H.
Qed.

(** What a block that writes a profile and answers with it does. *)
Lemma guardar_responder id (u : gmap string value) s :
  (guardar id u;; responder id) s
  = (json_dumps (u ∪ {["userID" := VStr id]})
     ≫= fun b => ret (Some (RespuestaHttp 200 b)))
      (con_tabla (<[id := u ∪ {["userID" := VStr id]}]> (tabla s)) s).
Proof.
  erewrite bind_Ok by reflexivity. unfold responder.
  erewrite bind_Ok
    by (apply recuperar_existente; [cbn; apply lookup_insert_eq | apply con_userID_no_vacio]).
  reflexivity.
Qed.

Lemma json_dumps_eq u s :
  json_dumps u s
  = (if bool_decide (map_Forall (fun _ v => es_numero v = false) u)
     then Ok (BodyJson u) else Raise TypeError, s).
Proof. unfold json_dumps. by case_bool_decide. Qed.

Lemma modificar_existente id cambios s u :
  tabla s !! id = Some u -> u <> ∅ ->
  modificar id cambios s
  = (if bool_decide (map_Forall (fun _ v => es_numero v = false)
                       (cambios u ∪ {["userID" := VStr id]}))
     then Ok (Some (RespuestaHttp 200 (BodyJson (cambios u ∪ {["userID" := VStr id]}))))
     else Raise TypeError,
     con_tabla (<[id := cambios u ∪ {["userID" := VStr id]}]> (tabla s)) s).
Proof.
  intros H Hu. unfold modificar.
  erewrite bind_Ok by (by apply recuperar_existente). cbv beta iota.
  rewrite guardar_responder. unfold mbind, M_bind. rewrite json_dumps_eq.
  by case_bool_decide.
Qed.

Lemma modificar_ausente id cambios s :
  tabla s !! id = None -> modificar id cambios s = (Raise TypeError, s).
Proof.
  intros H. unfold modificar. by erewrite bind_Ok by (by apply recuperar_ausente).
Qed.

Lemma borrar_lookup keys (u : gmap string value) k :
  borrar keys u !! k = if decide (k ∈ keys) then None else u !! k.
Proof.
  revert u. induction keys as [|x keys IH]; intros u; cbn [borrar foldl].
  - rewrite decide_False; [done | apply not_elem_of_nil].
  - fold (borrar keys (delete x u)). rewrite IH.
    destruct (decide (k ∈ keys)) as [Hin|Hnin].
    + rewrite decide_True; [done | by right].
    + destruct (decide (k = x)) as [->|Hne].
      * rewrite lookup_delete_eq. rewrite decide_True; [done | by left].
      * rewrite lookup_delete_ne by done. rewrite decide_False; [done|].
        by intros [?|?]%elem_of_cons.
Qed.

(** X22.  A request whose method is not [GET] is answered 403 and changes
    nothing, whatever its parameters. *)
Theorem solo_GET p t :
  method p <> "GET" ->
  administra p t
  = (Ok (RespuestaHttp 403 (BodyTexto "Token inválido o método incorrecto")), inicio t).
Proof.
  intros Hm. unfold administra, administrar.
  do 7 (erewrite o_sigue_None by (by apply bloque_otro_metodo)).
  apply String.eqb_neq in Hm. by rewrite Hm.
Qed.

(** X23.  [userid] only reads: when the user has a stored profile, the
    request is answered with the profile without its counter of relatives,
    whatever the other parameters, and the table is left as it was. *)
Theorem userid_solo_lee p t id u :
  method p = "GET" -> params p !! "userid" = Some id -> t !! id = Some u -> u <> ∅ ->
  tabla (administra p t).2 = t /\
  (administra p t).1
  = if bool_decide (map_Forall (fun _ v => es_numero v = false) (delete "bcuenta" u))
    then Ok (RespuestaHttp 200 (BodyJson (delete "bcuenta" u)))
    else Raise TypeError.
Proof.
  intros Hm Hp Ht Hu.
  assert (E : administra p t
    = (if bool_decide (map_Forall (fun _ v => es_numero v = false) (delete "bcuenta" u))
       then Ok (RespuestaHttp 200 (BodyJson (delete "bcuenta" u)))
       else Raise TypeError, inicio t)).
  { unfold administra, administrar. apply o_sigue_casos.
    erewrite bloque_presente by done.
    erewrite bind_Ok by (by apply recuperar_existente). cbv beta iota.
    unfold mbind, M_bind. rewrite json_dumps_eq. by case_bool_decide. }
  by rewrite E.
Qed.

(** X24.  [adminid] and [resetid] on a stored profile put the step back to
    [start], set the role ([admin] and [user]), replace the shortcut table by
    the two shortcuts to [start] and remove the five working fields; every
    other field, the mode and the master flag among them, is kept, and the
    other profiles are not touched. *)
Theorem restablece p t id u rol :
  method p = "GET" -> params p !! "userid" = None ->
  (params p !! "adminid" = Some id /\ rol = "admin") \/
  (params p !! "adminid" = None /\ params p !! "resetid" = Some id /\ rol = "user") ->
  t !! id = Some u -> u <> ∅ ->
  exists u',
    tabla (administra p t).2 = <[id := u']> t /\
    u' !! "step" = Some (VStr "start") /\ u' !! "rol" = Some (VStr rol) /\
    u' !! "historial" = Some (VDict historial_inicial) /\
    (forall k, k ∈ keys_to_delete -> u' !! k = None) /\
    (forall k, k ∉ keys_to_delete -> k <> "step" -> k <> "rol" -> k <> "historial" ->
               k <> "userID" -> u' !! k = u !! k) /\
    (administra p t).1
    = if bool_decide (map_Forall (fun _ v => es_numero v = false) u')
      then Ok (RespuestaHttp 200 (BodyJson u')) else Raise TypeError.
Proof.
  intros Hm Hu0 Hcaso Ht Hu.
  exists (restablecido rol u ∪ {["userID" := VStr id]}).
  assert (E : administra p t
    = (if bool_decide (map_Forall (fun _ v => es_numero v = false)
                         (restablecido rol u ∪ {["userID" := VStr id]}))
       then Ok (RespuestaHttp 200 (BodyJson (restablecido rol u ∪ {["userID" := VStr id]})))
       else Raise TypeError,
       con_tabla (<[id := restablecido rol u ∪ {["userID" := VStr id]}]> t) (inicio t))).
  { unfold administra, administrar.
    erewrite o_sigue_None by (by apply bloque_ausente).
    destruct Hcaso as [[Ha ->]|(Ha & Hr & ->)].
    - apply o_sigue_casos. erewrite bloque_presente by done.
      by apply modificar_existente.
    - erewrite o_sigue_None by (by apply bloque_ausente).
      apply o_sigue_casos. erewrite bloque_presente by done.
      by apply modificar_existente. }
  rewrite E. cbn [fst snd]. split; [done|].
  assert (Hl : forall k, k <> "userID" ->
    (restablecido rol u ∪ {["userID" := VStr id]}) !! k = restablecido rol u !! k).
  { intros k Hk. destruct (restablecido rol u !! k) as [v|] eqn:Ek.
    - by apply lookup_union_Some_l.
    - rewrite lookup_union_r by done. by apply lookup_singleton_ne. }
  assert (Hno : forall k, bool_decide (k ∈ keys_to_delete) = false -> k ∉ keys_to_delete)
    by (intros k; apply bool_decide_eq_false).
  repeat split.
  - rewrite Hl by done. unfold restablecido. rewrite borrar_lookup.
    rewrite decide_False by (by apply Hno).
    rewrite !lookup_insert_ne by done. apply lookup_insert_eq.
  - rewrite Hl by done. unfold restablecido. rewrite borrar_lookup.
    rewrite decide_False by (by apply Hno).
    rewrite lookup_insert_ne by done. apply lookup_insert_eq.
  - rewrite Hl by done. unfold restablecido. rewrite borrar_lookup.
    rewrite decide_False by (by apply Hno). apply lookup_insert_eq.
  - intros k Hk. rewrite Hl.
    + unfold restablecido. rewrite borrar_lookup. by rewrite decide_True.
    + intros ->. by apply (Hno "userID").
  - intros k Hk H1 H2 H3 H4. rewrite Hl by done. unfold restablecido.
    rewrite borrar_lookup, decide_False by done. by rewrite !lookup_insert_ne.
Qed.

(** The [userid] block falls through when the parameter is absent or names
    no stored profile. *)
Lemma userid_sigue p t c :
  method p = "GET" ->
  (forall user_id, params p !! "userid" = Some user_id -> t !! user_id = None) ->
  bloque p "userid" (fun user_id =>
    user_data ← recuperar_usuario user_id;
    match user_data with
    | Some user_data => c user_data
    | None => ret None
    end) (inicio t) = (Ok None, inicio t).
Proof.
  intros Hm Hu. destruct (params p !! "userid") as [user_id|] eqn:E.
  - erewrite bloque_presente by done.
    by erewrite bind_Ok by (apply recuperar_ausente; cbn; by apply Hu).
  - by apply bloque_ausente.
Qed.

(** X25.  [adminid], [resetid], [setname_id] and [master_id] for a user
    without a stored profile do not answer: the assignment into the missing
    profile raises [TypeError], and the table is left as it was. *)
Theorem usuario_desconocido p t id :
  method p = "GET" ->
  (forall user_id, params p !! "userid" = Some user_id -> t !! user_id = None) ->
  params p !! "adminid" = Some id \/
  (params p !! "adminid" = None /\ params p !! "resetid" = Some id) \/
  (params p !! "adminid" = None /\ params p !! "resetid" = None /\
   params p !! "setname_id" = Some id) \/
  (params p !! "adminid" = None /\ params p !! "resetid" = None /\
   params p !! "setname_id" = None /\ params p !! "add_admin" = None /\
   params p !! "add_developer" = None /\ params p !! "master_id" = Some id) ->
  t !! id = None ->
  administra p t = (Raise TypeError, inicio t).
Proof.
  intros Hm Hu Hcaso Ht. unfold administra, administrar.
  erewrite o_sigue_None by (by apply userid_sigue).
  destruct Hcaso as [H|[(H1 & H)|[(H1 & H2 & H)|(H1 & H2 & H3 & H4 & H5 & H)]]].
  - apply o_sigue_Raise. erewrite bloque_presente by done. by apply modificar_ausente.
  - erewrite o_sigue_None by (by apply bloque_ausente).
    apply o_sigue_Raise. erewrite bloque_presente by done. by apply modificar_ausente.
  - do 2 (erewrite o_sigue_None by (by apply bloque_ausente)).
    apply o_sigue_Raise. erewrite bloque_presente by done. by apply modificar_ausente.
  - do 5 (erewrite o_sigue_None by (by apply bloque_ausente)).
    apply o_sigue_Raise. erewrite bloque_presente by done. by apply modificar_ausente.
Qed.

Lemma admin_nuevo_serializable id :
  map_Forall (fun _ v => es_numero v = false) (admin_nuevo ∪ {["userID" := VStr id]}).
Proof.
  apply map_Forall_lookup. intros k v [H|[_ H]]%lookup_union_Some_raw.
  - unfold admin_nuevo in H.
    repeat (apply lookup_insert_Some in H as [[_ <-]|[_ H]]; [done|]).
    by apply lookup_singleton_Some in H as [_ <-].
  - by apply lookup_singleton_Some in H as [_ <-].
Qed.

(** X26.  [add_admin] stores a new administrator profile under the given id
    whatever was stored there: a profile that the id already had is
    replaced, none of its fields is kept. *)
Theorem add_admin_reemplaza p t id :
  method p = "GET" ->
  (forall user_id, params p !! "userid" = Some user_id -> t !! user_id = None) ->
  params p !! "adminid" = None -> params p !! "resetid" = None ->
  params p !! "setname_id" = None -> params p !! "add_admin" = Some id ->
  administra p t
  = (Ok (RespuestaHttp 200 (BodyJson (admin_nuevo ∪ {["userID" := VStr id]}))),
     con_tabla (<[id := admin_nuevo ∪ {["userID" := VStr id]}]> t) (inicio t)).
Proof.
  intros Hm Hu H1 H2 H3 H4. unfold administra, administrar.
  erewrite o_sigue_None by (by apply userid_sigue).
  do 3 (erewrite o_sigue_None by (by apply bloque_ausente)).
  apply o_sigue_Some. erewrite bloque_presente by done.
  rewrite guardar_responder. unfold mbind, M_bind. rewrite json_dumps_eq.
  by rewrite bool_decide_true by apply admin_nuevo_serializable.
Qed.

(** *** The requests at concrete tables *)

Lemma solo_GET_post :
  let p := Peticion "POST" {["resetid" := "42"]} in
  let t : gmap string (gmap string value) :=
    {["42" := perfil_cotizando "askedEmail" "normal"]} in
  method p <> "GET" /\
  administra p t
  = (Ok (RespuestaHttp 403 (BodyTexto "Token inválido o método incorrecto")), inicio t).
Proof.
  intros p t.
  assert (H1 : method p <> "GET") by discriminate.
  exact (conj H1 (solo_GET p t H1)).
Defined.

Lemma userid_solo_lee_cotizando :
  let p := Peticion "GET" {["userid" := "42"; "resetid" := "42"]} in
  let u := perfil_cotizando "askedFamily" "normal" in
  let t : gmap string (gmap string value) := {["42" := u]} in
  (method p = "GET" /\ params p !! "userid" = Some "42" /\ t !! "42" = Some u /\
   u <> ∅) /\
  tabla (administra p t).2 = t /\
  (administra p t).1
  = if bool_decide (map_Forall (fun _ v => es_numero v = false) (delete "bcuenta" u))
    then Ok (RespuestaHttp 200 (BodyJson (delete "bcuenta" u)))
    else Raise TypeError.
Proof.
  intros p u t.
  assert (H1 : method p = "GET") by reflexivity.
  assert (H2 : params p !! "userid" = Some "42") by reflexivity.
  assert (H3 : t !! "42" = Some u) by reflexivity.
  assert (H4 : u <> ∅) by no_vacio_mapa.
  exact (conj (conj H1 (conj H2 (conj H3 H4))) (userid_solo_lee p t "42" u H1 H2 H3 H4)).
Defined.

Lemma restablece_master :
  let p := Peticion "GET" {["resetid" := "42"]} in
  let u := perfil_master "askedMaster" "gandalf" in
  let t : gmap string (gmap string value) := {["42" := u]} in
  (method p = "GET" /\ params p !! "userid" = None /\
   ((params p !! "adminid" = Some "42" /\ "user" = "admin") \/
    (params p !! "adminid" = None /\ params p !! "resetid" = Some "42" /\
     "user" = "user")) /\
   t !! "42" = Some u /\ u <> ∅) /\
  exists u',
    tabla (administra p t).2 = <["42" := u']> t /\
    u' !! "step" = Some (VStr "start") /\ u' !! "rol" = Some (VStr "user") /\
    u' !! "historial" = Some (VDict historial_inicial) /\
    (forall k, k ∈ keys_to_delete -> u' !! k = None) /\
    (forall k, k ∉ keys_to_delete -> k <> "step" -> k <> "rol" -> k <> "historial" ->
               k <> "userID" -> u' !! k = u !! k) /\
    (administra p t).1
    = if bool_decide (map_Forall (fun _ v => es_numero v = false) u')
      then Ok (RespuestaHttp 200 (BodyJson u')) else Raise TypeError.
Proof.
  intros p u t.
  assert (H1 : method p = "GET") by reflexivity.
  assert (H2 : params p !! "userid" = None) by reflexivity.
  assert (H3 : (params p !! "adminid" = Some "42" /\ "user" = "admin") \/
               (params p !! "adminid" = None /\ params p !! "resetid" = Some "42" /\
                "user" = "user")) by (right; by repeat split).
  assert (H4 : t !! "42" = Some u) by reflexivity.
  assert (H5 : u <> ∅) by no_vacio_mapa.
  exact (conj (conj H1 (conj H2 (conj H3 (conj H4 H5))))
           (restablece p t "42" u "user" H1 H2 H3 H4 H5)).
Defined.

Lemma usuario_desconocido_master_id :
  let p := Peticion "GET" {["master_id" := "99"]} in
  let t : gmap string (gmap string value) :=
    {["42" := perfil_cotizando "askedEmail" "normal"]} in
  (method p = "GET" /\
   (forall user_id, params p !! "userid" = Some user_id -> t !! user_id = None) /\
   (params p !! "adminid" = Some "99" \/
    (params p !! "adminid" = None /\ params p !! "resetid" = Some "99") \/
    (params p !! "adminid" = None /\ params p !! "resetid" = None /\
     params p !! "setname_id" = Some "99") \/
    (params p !! "adminid" = None /\ params p !! "resetid" = None /\
     params p !! "setname_id" = None /\ params p !! "add_admin" = None /\
     params p !! "add_developer" = None /\ params p !! "master_id" = Some "99")) /\
   t !! "99" = None) /\
  administra p t = (Raise TypeError, inicio t).
Proof.
  intros p t.
  assert (H1 : method p = "GET") by reflexivity.
  assert (H2 : forall user_id, params p !! "userid" = Some user_id -> t !! user_id = None)
    by (intros user_id H; discriminate H).
  assert (H3 : params p !! "adminid" = Some "99" \/
    (params p !! "adminid" = None /\ params p !! "resetid" = Some "99") \/
    (params p !! "adminid" = None /\ params p !! "resetid" = None /\
     params p !! "setname_id" = Some "99") \/
    (params p !! "adminid" = None /\ params p !! "resetid" = None /\
     params p !! "setname_id" = None /\ params p !! "add_admin" = None /\
     params p !! "add_developer" = None /\ params p !! "master_id" = Some "99"))
    by (do 3 right; by repeat split).
  assert (H4 : t !! "99" = None) by reflexivity.
  exact (conj (conj H1 (conj H2 (conj H3 H4))) (usuario_desconocido p t "99" H1 H2 H3 H4)).
Defined.

Lemma add_admin_reemplaza_cotizando :
  let p := Peticion "GET" {["add_admin" := "42"]} in
  let t : gmap string (gmap string value) :=
    {["42" := perfil_cotizando "askedFamily" "normal"]} in
  (method p = "GET" /\
   (forall user_id, params p !! "userid" = Some user_id -> t !! user_id = None) /\
   params p !! "adminid" = None /\ params p !! "resetid" = None /\
   params p !! "setname_id" = None /\ params p !! "add_admin" = Some "42") /\
  administra p t
  = (Ok (RespuestaHttp 200 (BodyJson (admin_nuevo ∪ {["userID" := VStr "42"]}))),
     con_tabla (<["42" := admin_nuevo ∪ {["userID" := VStr "42"]}]> t) (inicio t)).
Proof.
  intros p t.
  assert (H1 : method p = "GET") by reflexivity.
  assert (H2 : forall user_id, params p !! "userid" = Some user_id -> t !! user_id = None)
    by (intros user_id H; discriminate H).
  assert (H3 : params p !! "adminid" = None) by reflexivity.
  assert (H4 : params p !! "resetid" = None) by reflexivity.
  assert (H5 : params p !! "setname_id" = None) by reflexivity.
  assert (H6 : params p !! "add_admin" = Some "42") by reflexivity.
  exact (conj (conj H1 (conj H2 (conj H3 (conj H4 (conj H5 H6)))))
           (add_admin_reemplaza p t "42" H1 H2 H3 H4 H5 H6)).
Defined.

(** *** The profiles that the requests write *)

Lemma historial_inicial_pasos u :
  u !! "historial" = Some (VDict historial_inicial) ->
  forall k paso, historial_de u !! k = Some paso -> paso ∈ pasos_asignados.
Proof.
  intros H. unfold historial_de. rewrite H.
  assert (Hi : map_Forall (fun _ paso => paso ∈ pasos_asignados) historial_inicial)
    by (apply (bool_decide_unpack _); vm_compute; exact I).
  intros k paso Hk. exact (Hi k paso Hk).
Qed.

Lemma alcanzable_restablecido rol u : alcanzable (restablecido rol u).
Proof.
  unfold restablecido. split.
  - exists "start". split; [esta|].
    rewrite borrar_lookup, decide_False
      by (apply (bool_decide_unpack _); vm_compute; exact I).
    rewrite !lookup_insert_ne by done. apply lookup_insert_eq.
  - apply historial_inicial_pasos.
    rewrite borrar_lookup, decide_False
      by (apply (bool_decide_unpack _); vm_compute; exact I).
    apply lookup_insert_eq.
Qed.

Lemma alcanzable_admin_nuevo : alcanzable admin_nuevo.
Proof.
  split.
  - exists "start". split; [esta|reflexivity].
  - by apply historial_inicial_pasos.
Qed.

Lemma alcanzable_developer_nuevo : alcanzable developer_nuevo.
Proof.
  split.
  - exists "start". split; [esta|reflexivity].
  - by apply historial_inicial_pasos.
Qed.

Lemma alcanzable_master u :
  alcanzable u ->
  alcanzable (<["modo" := VStr "normal"]>
                (<["master" := VStr "ON"]>
                   (<["historial" := VDict historial_inicial]> u))).
Proof.
  intros [(p & Hp & Hs) _]. split.
  - exists p. by rewrite !lookup_insert_ne.
  - apply historial_inicial_pasos. rewrite !lookup_insert_ne by done.
    apply lookup_insert_eq.
Qed.

Section registro_a_registro.
Context (k : string).

Lemma guarda_bind {A B} (m : M A) (f : A -> M B) :
  guarda k m -> (forall a, guarda k (f a)) -> guarda k (m ≫= f).
Proof.
  intros Hm Hf s Hs. specialize (Hm s Hs). unfold mbind, M_bind.
  destruct (m s) as [[a| |] s']; cbn in *; [|done..]. by apply Hf.
Qed.

Lemma guarda_ret {A} (a : A) : guarda k (mret a).
Proof. by intros s Hs. Qed.

Lemma guarda_lanzar {A} e : guarda k (@lanzar A e).
Proof. by intros s Hs. Qed.

Lemma guarda_recuperar id : guarda k (recuperar_usuario id).
Proof. intros s Hs. unfold recuperar_usuario. by destruct (tabla s !! id). Qed.

Lemma guarda_json_dumps u : guarda k (json_dumps u).
Proof. intros s Hs. rewrite json_dumps_eq. cbn. done. Qed.

Lemma guarda_responder id : guarda k (responder id).
Proof.
  unfold responder. apply guarda_bind; [apply guarda_recuperar|].
  intros [u|]; [|apply guarda_ret].
  apply guarda_bind; [apply guarda_json_dumps|]. intros b. apply guarda_ret.
Qed.

Lemma guarda_guardar id (u : gmap string value) :
  (k = id -> alcanzable u) -> guarda k (guardar id u).
Proof.
  intros Hu s Hs u'. cbn. destruct (decide (id = k)) as [->|Hne].
  - rewrite lookup_insert_eq. intros [= <-] _.
    by apply alcanzable_con_userID, Hu.
  - rewrite lookup_insert_ne by done. apply Hs.
Qed.

Lemma guarda_modificar id cambios :
  (forall u, alcanzable u -> alcanzable (cambios u)) -> guarda k (modificar id cambios).
Proof.
  intros Hc s Hs. unfold modificar, mbind, M_bind, recuperar_usuario.
  destruct (tabla s !! id) as [u|] eqn:E; cbn; [|done].
  destruct (decide (u = ∅)) as [->|Hne]; cbn; [done|].
  apply (guarda_bind (guardar id (cambios u)) (fun _ => responder id));
    [|intros _; apply guarda_responder|done].
  apply guarda_guardar. intros ->. apply Hc. by apply Hs.
Qed.

Lemma guarda_bloque p parametro c :
  (forall valor, guarda k (c valor)) -> guarda k (bloque p parametro c).
Proof.
  intros Hc. unfold bloque. destruct (params p !! parametro) as [valor|]; [|apply guarda_ret].
  destruct (method p =? "GET")%string; [apply Hc|apply guarda_ret].
Qed.

Lemma guarda_o_sigue b resto : guarda k b -> guarda k resto -> guarda k (o_sigue b resto).
Proof.
  intros Hb Hr. unfold o_sigue. apply guarda_bind; [done|].
  intros [r|]; [apply guarda_ret|done].
Qed.

Lemma guarda_administrar p : guarda k (administrar p).
Proof.
  unfold administrar.
  repeat (apply guarda_o_sigue; [apply guarda_bloque; intros id|]).
  - apply guarda_bind; [apply guarda_recuperar|].
    intros [u|]; [|apply guarda_ret].
    apply guarda_bind; [apply guarda_json_dumps|]. intros b. apply guarda_ret.
  - apply guarda_modificar. intros u _. apply alcanzable_restablecido.
  - apply guarda_modificar. intros u _. apply alcanzable_restablecido.
  - apply guarda_modificar. intros u Hu. by apply alcanzable_insert.
  - apply guarda_bind; [|intros _; apply guarda_responder].
    apply guarda_guardar. intros _. apply alcanzable_admin_nuevo.
  - apply guarda_bind; [|intros _; apply guarda_responder].
    apply guarda_guardar. intros _. apply alcanzable_developer_nuevo.
  - apply guarda_modificar. apply alcanzable_master.
  - case_match; apply guarda_ret.
Qed.

End registro_a_registro.

(** X29.  A request with query parameters keeps, record by record, what a
    turn keeps: for every user of the table, a profile that is absent, empty
    or at a step that the rules assign, with a shortcut table that leads to
    such steps only, is so after the request, whatever the request is and
    however it ends.  The profiles that [adminid], [resetid], [add_admin] and
    [add_developer] write are at step [start]. *)
Theorem administra_alcanzable p t k :
  (forall u, t !! k = Some u -> u <> ∅ -> alcanzable u) ->
  forall u', tabla (administra p t).2 !! k = Some u' -> u' <> ∅ -> alcanzable u'.
Proof. intros Ht. by apply (guarda_administrar k p (inicio t)). Qed.

Lemma administra_alcanzable_master_id :
  let p := Peticion "GET" {["master_id" := "42"]} in
  let u := perfil_cotizando "askedFamily" "normal" in
  let t : gmap string (gmap string value) := {["42" := u]} in
  (forall u0, t !! "42" = Some u0 -> u0 <> ∅ -> alcanzable u0) /\
  (forall u', tabla (administra p t).2 !! "42" = Some u' -> u' <> ∅ -> alcanzable u').
Proof.
  intros p u t.
  assert (H1 : forall u0, t !! "42" = Some u0 -> u0 <> ∅ -> alcanzable u0).
  { intros u0 [_ <-]%lookup_singleton_Some _.
    apply alcanzable_perfil_cotizando. }
  exact (conj H1 (administra_alcanzable p t "42" H1)).
Defined.

End AdminFacts.
